(** * The Kafka load producer [app/producer.py]: model and properties

    The program reads its configuration from the environment, plans a number
    of batches, pushes fixed-size messages to a broker client with a retry on
    local back-pressure, reports throughput once per batch and flushes the
    client before its final summary.

    Python integers are [Z]; Python floats are IEEE-754 binary64 numbers,
    given here by their exact value [m * 2^e]; strings are [string]; the
    configuration dictionary is a [gmap]; the broker client, the clock and
    the key generator are the environment the program runs against. *)

From stdpp Require Import base strings pretty gmap list.
From Stdlib Require Import ZArith Lia Ascii.

Open Scope Z_scope.

(** ** Exceptions of the Python run time that the program can meet *)

Inductive exn :=
  | ZeroDivisionError
  | OverflowError
  | ValueError
  | KafkaException (detail : string).

(** ** Binary64 floating point numbers *)

Module Float.

(** A finite number is [m * 2^e].  The operations below return finite
    numbers in canonical form: zero is [Fin 0 0]; a normal number has
    [2^52 <= |m| < 2^53] and [-1074 <= e <= 971]; a subnormal one has
    [|m| < 2^52] and [e = -1074].  The sign of zero is not tracked. *)
Inductive float :=
  | Fin (m e : Z)
  | Inf (neg : bool)
  | NaN.

Definition prec : Z := 53.
Definition emin : Z := -1074.
Definition emax : Z := 971.

(** [shl x k] is [x * 2^k] for [k >= 0] and [x] otherwise, so that the
    fraction [shl n k / shl d (-k)] is [n / d * 2^k] for every [k]. *)
Definition shl (x k : Z) : Z := if 0 <=? k then x * 2 ^ k else x.

(** Nearest integer to [n / d], ties to even ([0 <= n], [0 < d]). *)
Definition rne (n d : Z) : Z :=
  let q := n / d in
  match 2 * (n mod d) ?= d with
  | Lt => q
  | Gt => q + 1
  | Eq => if Z.even q then q else q + 1
  end.

(** [ilog2 n d] is the integer [k] with [2^k <= n / d < 2^(k+1)]
    ([0 < n], [0 < d]). *)
Definition ilog2 (n d : Z) : Z :=
  let k := Z.log2 n - Z.log2 d in
  if shl d k <=? shl n (- k) then k else k - 1.

(** Correct rounding of the positive fraction [n / d]. *)
Definition round_pos (n d : Z) : float :=
  let e := Z.max (ilog2 n d - (prec - 1)) emin in
  let m := rne (shl n (- e)) (shl d e) in
  if m =? 0 then Fin 0 0
  else if m =? 2 ^ prec then
    (if emax <? e + 1 then Inf false else Fin (2 ^ (prec - 1)) (e + 1))
  else if emax <? e then Inf false
  else Fin m e.

Definition opp (x : float) : float :=
  match x with
  | Fin m e => Fin (- m) e
  | Inf s => Inf (negb s)
  | NaN => NaN
  end.

(** Correct rounding of the fraction [n / d] ([0 < d]). *)
Definition round (n d : Z) : float :=
  match n ?= 0 with
  | Eq => Fin 0 0
  | Gt => round_pos n d
  | Lt => opp (round_pos (- n) d)
  end.

(** Exact comparison of [m1 * 2^e1] with [m2 * 2^e2]. *)
Definition cmp_dyadic (m1 e1 m2 e2 : Z) : comparison :=
  let e := Z.min e1 e2 in
  m1 * 2 ^ (e1 - e) ?= m2 * 2 ^ (e2 - e).

(** [x < y] on floats: false as soon as one side is not a number. *)
Definition ltb (x y : float) : bool :=
  match x, y with
  | NaN, _ | _, NaN => false
  | Inf true, Inf true => false
  | Inf true, _ => true
  | _, Inf true => false
  | Inf false, _ => false
  | _, Inf false => true
  | Fin m1 e1, Fin m2 e2 =>
      match cmp_dyadic m1 e1 m2 e2 with Lt => true | _ => false end
  end.

(** [float(n)] for a Python integer: correctly rounded, [OverflowError]
    when [n] is too large. *)
Definition of_int (n : Z) : exn + float :=
  match round n 1 with
  | Inf _ => inl OverflowError
  | x => inr x
  end.

(** [a / b] on two Python integers. *)
Definition int_truediv (a b : Z) : exn + float :=
  if b =? 0 then inl ZeroDivisionError
  else
    match round (a * Z.sgn b) (Z.abs b) with
    | Inf _ => inl OverflowError
    | x => inr x
    end.

(** [x / y] on two floats.  A quotient that is zero is [Fin 0 0] whatever
    the signs of [x] and [y]: where Python gives [-0.0] (a negative finite
    number over [inf], a negative quotient that underflows), the model has
    the one zero, which compares as [-0.0] does but is printed without the
    minus sign. *)
Definition div (x y : float) : exn + float :=
  match x, y with
  | _, Fin 0 _ => inl ZeroDivisionError
  | NaN, _ | _, NaN => inr NaN
  | Inf _, Inf _ => inr NaN
  | Inf s, Fin m _ => inr (Inf (xorb s (m <? 0)))
  | Fin _ _, Inf _ => inr (Fin 0 0)
  | Fin m1 e1, Fin m2 e2 =>
      inr (round (shl (m1 * Z.sgn m2) (e1 - e2)) (shl (Z.abs m2) (e2 - e1)))
  end.

(** [x - y] on two floats. *)
Definition sub (x y : float) : float :=
  match x, y with
  | NaN, _ | _, NaN => NaN
  | Inf s1, Inf s2 => if Bool.eqb s1 s2 then NaN else Inf s1
  | Inf s, Fin _ _ => Inf s
  | Fin _ _, Inf s => Inf (negb s)
  | Fin m1 e1, Fin m2 e2 =>
      let e := Z.min e1 e2 in
      round (shl (m1 * 2 ^ (e1 - e) - m2 * 2 ^ (e2 - e)) e) (shl 1 (- e))
  end.

(** [math.ceil(x)]. *)
Definition ceil (x : float) : exn + Z :=
  match x with
  | Fin m e => inr (if 0 <=? e then m * 2 ^ e else - ((- m) / 2 ^ (- e)))
  | Inf _ => inl OverflowError
  | NaN => inl ValueError
  end.

End Float.

Import Float.

(** ** Python numbers, strings and formatting *)

(** A name that is bound to an [int] at one time and to a [float] at
    another, as [n] in [_fmt_bytes]. *)
Inductive num :=
  | Int (z : Z)
  | Flt (x : float).

(** [n < y] for a float [y]: an integer is compared by its exact value. *)
Definition num_ltb (n : num) (y : float) : bool :=
  match n with
  | Int z => ltb (Fin z 0) y
  | Flt x => ltb x y
  end.

Definition to_float (n : num) : exn + float :=
  match n with
  | Int z => of_int z
  | Flt x => inr x
  end.

(** [n / y] for a float [y]. *)
Definition num_div (n : num) (y : float) : exn + float :=
  match to_float n with
  | inl e => inl e
  | inr x => div x y
  end.

Definition nl : string := String "010"%char "".

(** [s * n]. *)
Definition str_repeat (s : string) (n : Z) : string :=
  String.concat "" (replicate (Z.to_nat n) s).

(** [str(n)] for an integer. *)
Definition str_int (n : Z) : string := pretty n.

Definition digit (n : Z) : ascii := Ascii.ascii_of_nat (48 + Z.to_nat (n mod 10)).

(** The last [d] decimal digits of [n], most significant first. *)
Fixpoint frac_digits (d : nat) (n : Z) : list ascii :=
  match d with
  | O => []
  | S d' => frac_digits d' (n / 10) ++ [digit n]
  end.

(** The decimal digits of [n >= 0], least significant first, in groups of
    three separated by commas ([fuel] bounds the number of digits). *)
Fixpoint grouped_rev (fuel : nat) (pos : nat) (n : Z) : list ascii :=
  match fuel with
  | O => []
  | S fuel' =>
      let rest := n / 10 in
      if rest =? 0 then [digit n]
      else if (pos =? 2)%nat then digit n :: ","%char :: grouped_rev fuel' 0 rest
      else digit n :: grouped_rev fuel' (S pos) rest
  end.

Definition grouped (n : Z) : list ascii :=
  rev (grouped_rev (S (Z.to_nat (Z.log2 n))) 0 n).

Definition string_of_chars (l : list ascii) : string :=
  fold_right String EmptyString l.

(** [format(x, ",.df")]: fixed point with [d] decimals, correctly rounded
    (ties to even on the exact value), thousands separated by commas. *)
Definition format_f (d : nat) (x : float) : string :=
  match x with
  | NaN => "nan"
  | Inf s => if s then "-inf" else "inf"
  | Fin m e =>
      let scale := 10 ^ Z.of_nat d in
      let r := rne (shl (Z.abs m * scale) e) (shl 1 (- e)) in
      (if m <? 0 then "-" else "") +:+
      string_of_chars (grouped (r / scale)) +:+
      (if (d =? 0)%nat then "" else "." +:+ string_of_chars (frac_digits d (r mod scale)))
  end.

(** [format(n, ",.df")] for an [int] or a [float]. *)
Definition format_num (d : nat) (n : num) : exn + string :=
  match to_float n with
  | inl e => inl e
  | inr x => inr (format_f d x)
  end.

Definition f1024 : float := Fin (2 ^ 52) (-42).

(** The loop shared by [_fmt_bytes] and [_fmt_rate]: the first of [units]
    under which [n] is below [1024.0], dividing by [1024.0] from one unit to
    the next, and [last] when the units are exhausted. *)
Fixpoint fmt_units (d : nat) (units : list string) (last : string) (n : num)
  : exn + string :=
  match units with
  | [] =>
      match format_num d n with
      | inl e => inl e
      | inr s => inr (s +:+ " " +:+ last)
      end
  | unit :: units' =>
      if num_ltb n f1024 then
        match format_num d n with
        | inl e => inl e
        | inr s => inr (s +:+ " " +:+ unit)
        end
      else
        match num_div n f1024 with
        | inl e => inl e
        | inr x => fmt_units d units' last (Flt x)
        end
  end.

(** Human-friendly bytes. *)
Definition _fmt_bytes (n : num) : exn + string :=
  fmt_units 3 ["B"; "KB"; "MB"; "GB"; "TB"] "PB" n.

(** Human-friendly bytes/sec. *)
Definition _fmt_rate (bps : num) : exn + string :=
  fmt_units 2 ["B/s"; "KB/s"; "MB/s"; "GB/s"; "TB/s"] "PB/s" bps.

(** ** Configuration *)

(** The module-level names read from the environment, after their
    conversion by [int]. *)
Record config := Config {
  KAFKA_BOOTSTRAP_SERVERS : string;
  KAFKA_SECURITY_PROTOCOL : string;
  KAFKA_SASL_MECHANISM : string;
  KAFKA_SASL_USERNAME : string;
  KAFKA_SASL_PASSWORD : string;
  JOB_TOPIC_NAME : string;
  JOB_MSG_BYTES : Z;
  JOB_MAX_BYTES : Z;
  JOB_LINGER_MS : Z;
  JOB_BATCH_SIZE : Z
}.

Definition MESSAGE (cfg : config) : string :=
  str_repeat "0" (JOB_MSG_BYTES cfg).

(** Values stored in the dictionary given to [Producer]. *)
Inductive value :=
  | VStr (s : string)
  | VInt (n : Z)
  | VFloat (x : float)
  | VBool (b : bool).

(** [len(s)]. *)
Definition len (s : string) : Z := Z.of_nat (String.length s).

(** The dictionary literal of [main] (lines 58-72). *)
Definition producer_settings (cfg : config) : exn + gmap string value :=
  match int_truediv (JOB_MSG_BYTES cfg * JOB_BATCH_SIZE cfg) 1024 with
  | inl e => inl e
  | inr kbytes =>
      inr (list_to_map
        [ ("bootstrap.servers", VStr (KAFKA_BOOTSTRAP_SERVERS cfg));
          ("security.protocol", VStr (KAFKA_SECURITY_PROTOCOL cfg));
          ("sasl.mechanisms", VStr (KAFKA_SASL_MECHANISM cfg));
          ("sasl.username", VStr (KAFKA_SASL_USERNAME cfg));
          ("sasl.password",
            VStr (str_repeat "******" (Z.b2z (0 <? len (KAFKA_SASL_PASSWORD cfg)))));
          ("compression.type", VStr "none");
          ("linger.ms", VInt (JOB_LINGER_MS cfg));
          ("batch.size", VInt (JOB_MSG_BYTES cfg * JOB_BATCH_SIZE cfg));
          ("queue.buffering.max.kbytes", VFloat kbytes);
          ("acks", VInt 1);
          ("enable.idempotence", VBool false);
          ("socket.keepalive.enable", VBool true) ])
  end.

(** ** The broker client *)

(** What [produce] does with a message: it takes it, or raises
    [BufferError] because the local queue is full, or raises a
    [KafkaException]. *)
Inductive produce_result :=
  | Enqueued
  | BufferError
  | Rejected (detail : string).

(** The arguments of one call of the delivery callback: [err] ([None] on
    success, else the text of the error) and what [msg.offset()] returns. *)
Record report := Report {
  err : option string;
  offset : option Z
}.

(** The client is outside the program; it is known by its interface.
    The constructor [Producer] returns a client or raises a
    [KafkaException] for settings it does not take, with the given detail.
    [poll] and [flush] return the delivery reports for which the client
    calls the callback before it returns. *)
Class Client (C : Type) := {
  Producer : gmap string value -> string + C;
  produce : C -> string -> string -> string -> produce_result * C;
  poll : C -> float -> list report * C;
  flush : C -> list report * C
}.

(** What the program does to the outside, in order: the lines it prints,
    the texts it writes with [sys.stderr.write], its calls on the client
    with what they returned or raised, and its calls on the progress bar
    of [tqdm] (the streams on which all this shows are in [stream_of]). *)
Inductive event :=
  | Stdout (line : string)
  | Stderr (text : string)
  | Produce (topic key payload : string) (r : produce_result)
  | Poll (timeout : float) (reports : list report)
  | Flush (reports : list report)
  | BarOpen (total : Z)
  | BarPostfix (sent tput : string)
  | BarUpdate (n : Z)
  | BarClose.

Module State.
(** The client, the positions in the two input streams ([uuid.uuid4] and
    [time.time]), the events so far, and the two variables of [main] that
    its loops and closures assign. *)
Record state (C : Type) := Make {
  producer : C;
  uuids : nat;
  ticks : nat;
  trace : list event;
  running : bool;
  bytes_sent : Z
}.
Arguments Make {C}.
Arguments producer {C}.
Arguments uuids {C}.
Arguments ticks {C}.
Arguments trace {C}.
Arguments running {C}.
Arguments bytes_sent {C}.
End State.
Import State.

(** The end of a computation: a value and a state, an exception that left
    [main] with the events so far, or a retry loop that outran [fuel]. *)
Inductive result (C A : Type) :=
  | Return (a : A) (s : state C)
  | Raise (e : exn) (t : list event)
  | OutOfFuel.
Arguments Return {C A}.
Arguments Raise {C A}.
Arguments OutOfFuel {C A}.

Definition M (C A : Type) : Type := state C -> result C A.

Definition ret {C A} (a : A) : M C A := fun s => Return a s.

Definition bind {C A B} (m : M C A) (k : A -> M C B) : M C B :=
  fun s =>
    match m s with
    | Return a s' => k a s'
    | Raise e t => Raise e t
    | OutOfFuel => OutOfFuel
    end.

Declare Scope prog_scope.
Delimit Scope prog_scope with prog.
Notation "'let*' x ':=' m 'in' k" := (bind m (fun x => k))
  (at level 10, x pattern, m at level 100, k at level 200) : prog_scope.
Notation "m ';;' k" := (bind m (fun _ => k))
  (at level 100, k at level 200, right associativity) : prog_scope.
Open Scope prog_scope.

Definition raise {C A} (e : exn) : M C A := fun s => Raise e (trace s).

Definition lift {C A} (x : exn + A) : M C A :=
  match x with
  | inl e => raise e
  | inr a => ret a
  end.

Definition emit {C} (e : event) : M C unit :=
  fun s => Return tt
    (Make (producer s) (uuids s) (ticks s) (trace s ++ [e]) (running s) (bytes_sent s)).

(** [range(n)] runs [Z.to_nat n] times. *)
Fixpoint repeat_ {C} (n : nat) (body : M C unit) : M C unit :=
  match n with
  | O => ret tt
  | S n' => body ;; repeat_ n' body
  end.

Fixpoint for_each {C A} (l : list A) (body : A -> M C unit) : M C unit :=
  match l with
  | [] => ret tt
  | a :: l' => body a ;; for_each l' body
  end.

(** How a [for] loop with a [break] in it ended. *)
Inductive loop_exit :=
  | Exhausted
  | Break.

Section Program.

Context {C : Type} {client : Client C}.

(** [uuid4 i] is the text of the [i]-th key drawn; [time i] is the [i]-th
    reading of the clock. *)
Variable uuid4 : nat -> string.
Variable time : nat -> float.
Variable cfg : config.

Definition get_running : M C bool := fun s => Return (running s) s.

Definition get_bytes_sent : M C Z := fun s => Return (bytes_sent s) s.

Definition add_bytes_sent (n : Z) : M C unit :=
  fun s => Return tt
    (Make (producer s) (uuids s) (ticks s) (trace s) (running s) (bytes_sent s + n)).

(** [str(uuid.uuid4())]. *)
Definition new_key : M C string :=
  fun s => Return (uuid4 (uuids s))
    (Make (producer s) (S (uuids s)) (ticks s) (trace s) (running s) (bytes_sent s)).

(** [time.time()]. *)
Definition now : M C float :=
  fun s => Return (time (ticks s))
    (Make (producer s) (uuids s) (S (ticks s)) (trace s) (running s) (bytes_sent s)).

Definition str_offset (o : option Z) : string :=
  match o with
  | Some n => str_int n
  | None => "None"
  end.

Definition on_delivery_cb (r : report) : M C unit :=
  match err r with
  | Some e =>
      emit (Stderr ("Delivery failed for offset=" +:+ str_offset (offset r)
                    +:+ " error=" +:+ e +:+ nl))
  | None => ret tt
  end.

(** [producer.produce(topic, key=key, value=payload, on_delivery=...)];
    the value is what the call did, the [try] of [send] looks at it. *)
Definition producer_produce (topic key payload : string) : M C produce_result :=
  fun s =>
    let '(r, c) := produce (producer s) topic key payload in
    Return r (Make c (uuids s) (ticks s) (trace s ++ [Produce topic key payload r])
                (running s) (bytes_sent s)).

(** [producer.poll(timeout)]: the client calls the callback for each
    report before it returns. *)
Definition producer_poll (timeout : float) : M C unit :=
  fun s =>
    let '(rs, c) := poll (producer s) timeout in
    for_each rs on_delivery_cb
      (Make c (uuids s) (ticks s) (trace s ++ [Poll timeout rs])
         (running s) (bytes_sent s)).

(** [producer.flush()]. *)
Definition producer_flush : M C unit :=
  fun s =>
    let '(rs, c) := flush (producer s) in
    for_each rs on_delivery_cb
      (Make c (uuids s) (ticks s) (trace s ++ [Flush rs]) (running s) (bytes_sent s)).

(** The literal [0.1]. *)
Definition backoff : float := round 1 10.

(** [send]: the [while True] loop runs at most [fuel] times. *)
Fixpoint send (fuel : nat) (payload topic : string) : M C unit :=
  match fuel with
  | O => fun _ => OutOfFuel
  | S fuel' =>
      let* key := new_key in
      let* r := producer_produce topic key payload in
      match r with
      | Enqueued => ret tt
      | BufferError => producer_poll backoff ;; send fuel' payload topic
      | Rejected detail => raise (KafkaException detail)
      end
  end.

(** The literal [1e-9]. *)
Definition epsilon : float := round 1 (10 ^ 9).

(** [max(x, y)] of Python: [y] when [x < y], else [x]. *)
Definition fmax (x y : float) : float := if ltb x y then y else x.

(** The body of the batch loop after its test of [running]
    (lines 103-123). *)
Definition batch (fuel : nat) (start : float) : M C unit :=
  producer_poll (Fin 0 0) ;;
  repeat_ (Z.to_nat (JOB_BATCH_SIZE cfg))
    (send fuel (MESSAGE cfg) (JOB_TOPIC_NAME cfg) ;;
     add_bytes_sent (JOB_MSG_BYTES cfg)) ;;
  producer_poll (Fin 0 0) ;;
  let* t1 := now in
  let elapsed := fmax (sub t1 start) epsilon in
  let* sent_now := get_bytes_sent in
  let* rate := lift (num_div (Int sent_now) elapsed) in
  let* sent := lift (_fmt_bytes (Int sent_now)) in
  let* tput := lift (_fmt_rate (Flt rate)) in
  emit (BarPostfix sent tput) ;;
  emit (BarUpdate 1).

(** [for _ in range(batches): if not running: break ...]. *)
Fixpoint batch_loop (fuel : nat) (start : float) (n : nat) : M C loop_exit :=
  match n with
  | O => ret Exhausted
  | S n' =>
      let* r := get_running in
      if negb r then ret Break
      else batch fuel start ;; batch_loop fuel start n'
  end.

(** [with tqdm(total=...) as t: body]: the bar is closed on the way out,
    also when [body] raises. *)
Definition with_tqdm {A} (total : Z) (body : M C A) : M C A :=
  fun s =>
    match (emit (BarOpen total) ;; body) s with
    | Return a s' =>
        Return a (Make (producer s') (uuids s') (ticks s') (trace s' ++ [BarClose])
                    (running s') (bytes_sent s'))
    | Raise e t => Raise e (t ++ [BarClose])
    | OutOfFuel => OutOfFuel
    end.

(** [math.ceil(a / b)] on two integers. *)
Definition ceil_div (a b : Z) : exn + Z :=
  match int_truediv a b with
  | inl e => inl e
  | inr x => ceil x
  end.

(** Lines 93-94: the number of messages and the number of batches. *)
Definition plan : exn + Z * Z :=
  match ceil_div (JOB_MAX_BYTES cfg) (JOB_MSG_BYTES cfg) with
  | inl e => inl e
  | inr total_messages =>
      match ceil_div total_messages (JOB_BATCH_SIZE cfg) with
      | inl e => inl e
      | inr batches => inr (total_messages, batches)
      end
  end.

(** Lines 45-55. *)
Definition banner : list event :=
  [ Stdout ("KAFKA_BOOTSTRAP_SERVERS: " +:+ KAFKA_BOOTSTRAP_SERVERS cfg);
    Stdout ("KAFKA_SECURITY_PROTOCOL: " +:+ KAFKA_SECURITY_PROTOCOL cfg);
    Stdout ("KAFKA_SASL_MECHANISM   : " +:+ KAFKA_SASL_MECHANISM cfg);
    Stdout ("KAFKA_SASL_USERNAME    : " +:+ KAFKA_SASL_USERNAME cfg);
    Stdout ("KAFKA_SASL_PASSWORD    : " +:+ KAFKA_SASL_PASSWORD cfg);
    Stdout ("JOB_TOPIC_NAME: " +:+ JOB_TOPIC_NAME cfg);
    Stdout ("JOB_MSG_BYTES : " +:+ str_int (JOB_MSG_BYTES cfg));
    Stdout ("JOB_MAX_BYTES : " +:+ str_int (JOB_MAX_BYTES cfg));
    Stdout ("JOB_BATCH_SIZE: " +:+ str_int (JOB_BATCH_SIZE cfg)) ].

(** Lines 125-128. *)
Definition finish (last_batch_rate : float) : M C unit :=
  producer_flush ;;
  let* total := get_bytes_sent in
  let* scaled := lift (_fmt_bytes (Int total)) in
  emit (Stdout ("Total bytes sent: " +:+ str_int total +:+ " (" +:+ scaled +:+ ")")) ;;
  let* last := lift (_fmt_rate (Flt last_batch_rate)) in
  emit (Stdout ("Last-batch throughput: " +:+ last)).

(** Lines 93-128, from the state that lines 45-75 leave. *)
Definition run (fuel : nat) : M C loop_exit :=
  let* (total_messages, batches) := lift plan in
  let last_batch_rate := Fin 0 0 in
  let* start := now in
  let* how := with_tqdm batches (batch_loop fuel start (Z.to_nat batches)) in
  finish last_batch_rate ;;
  ret how.

(** The state after [running = True] and [bytes_sent = 0], with the
    client [c] that the constructor returned. *)
Definition initial (c : C) : state C :=
  Make c 0 0 banner true 0.

Definition main (fuel : nat) : result C loop_exit :=
  match producer_settings cfg with
  | inl e => Raise e banner
  | inr settings =>
      match Producer settings with
      | inl detail => Raise (KafkaException detail) banner
      | inr c => run fuel (initial c)
      end
  end.

End Program.

(** ** A simulated client with a bounded queue

    [produce] takes a message while fewer than [capacity] are queued;
    [poll] with a positive timeout delivers the oldest queued message and
    with timeout zero delivers nothing; [flush] delivers them all.  The
    messages whose number is in [failing] are reported with an error.  The
    constructor takes every dictionary of settings. *)

Module Sim.

Record sim := Make {
  capacity : nat;
  failing : list nat;
  queue : list nat;
  next : nat
}.

Definition report_of (c : sim) (i : nat) : report :=
  Report (if bool_decide (i ∈ failing c) then Some "timed out" else None)
         (Some (Z.of_nat i)).

Definition sim_produce (c : sim) (topic key payload : string) : produce_result * sim :=
  if (length (queue c) <? capacity c)%nat
  then (Enqueued, Make (capacity c) (failing c) (queue c ++ [next c]) (S (next c)))
  else (BufferError, c).

Definition sim_poll (c : sim) (timeout : float) : list report * sim :=
  match timeout, queue c with
  | Fin 0 _, _ | _, [] => ([], c)
  | _, i :: q => ([report_of c i], Make (capacity c) (failing c) q (next c))
  end.

Definition sim_flush (c : sim) : list report * sim :=
  (map (report_of c) (queue c), Make (capacity c) (failing c) [] (next c)).

Definition client (cap : nat) (bad : list nat) : Client sim :=
  {| Producer := fun _ => inr (Make cap bad [] 0);
     produce := sim_produce;
     poll := sim_poll;
     flush := sim_flush |}.

Definition uuid4 (i : nat) : string := "key-" +:+ pretty i.

(** A clock that advances by a quarter of a second per reading. *)
Definition time (i : nat) : float := round (Z.of_nat i) 4.

Definition cfg (T M B : Z) : config :=
  Config "localhost:9092" "SASL_SSL" "SCRAM-SHA-256" "user" "secret" "load"
    M T 100 B.

End Sim.

(** ** Reading a trace *)

(** The calls made on the client, without their arguments. *)
Inductive call :=
  | CallProduce (r : produce_result)
  | CallPoll (timeout : float)
  | CallFlush.

Definition call_of (e : event) : option call :=
  match e with
  | Produce _ _ _ r => Some (CallProduce r)
  | Poll timeout _ => Some (CallPoll timeout)
  | Flush _ => Some CallFlush
  | _ => None
  end.

Definition calls (t : list event) : list call := omap call_of t.

Definition is_enqueued (e : event) : bool :=
  match e with Produce _ _ _ Enqueued => true | _ => false end.

Definition is_attempt (e : event) : bool :=
  match e with Produce _ _ _ _ => true | _ => false end.

Definition is_flush (e : event) : bool :=
  match e with Flush _ => true | _ => false end.

Definition is_update (e : event) : bool :=
  match e with BarUpdate _ => true | _ => false end.

Definition is_stdout (e : event) : bool :=
  match e with Stdout _ => true | _ => false end.

Definition is_stderr (e : event) : bool :=
  match e with Stderr _ => true | _ => false end.

Definition is_bar (e : event) : bool :=
  match e with
  | BarOpen _ | BarPostfix _ _ | BarUpdate _ | BarClose => true
  | _ => false
  end.

(** The two output streams of the process. *)
Inductive stream :=
  | sys_stdout
  | sys_stderr.

(** The stream on which an event shows, when it shows anywhere: [print]
    writes to [sys.stdout]; line 80 writes to [sys.stderr]; [tqdm] draws
    its bar on the file it is given and on [sys.stderr] when it is given
    none, as at line 98.  The calls on the client show on neither. *)
Definition stream_of (e : event) : option stream :=
  match e with
  | Stdout _ => Some sys_stdout
  | Stderr _ | BarOpen _ | BarPostfix _ _ | BarUpdate _ | BarClose => Some sys_stderr
  | Produce _ _ _ _ | Poll _ _ | Flush _ => None
  end.

Definition on_stderr (e : event) : bool :=
  match stream_of e with
  | Some sys_stderr => true
  | _ => false
  end.

(** Number of events of a kind. *)
Definition count (p : event -> bool) (t : list event) : nat :=
  length (filter (fun e => p e = true) t).

(** The accepted messages of each finished batch: the segments of the trace
    that end with an update of the bar. *)
Fixpoint batch_sizes_from (acc : nat) (t : list event) : list nat :=
  match t with
  | [] => []
  | BarUpdate _ :: t' => acc :: batch_sizes_from 0 t'
  | e :: t' => batch_sizes_from (if is_enqueued e then S acc else acc) t'
  end.

Definition batch_sizes (t : list event) : list nat := batch_sizes_from 0 t.

(** What the callbacks write for a list of reports. *)
Definition callback_line (r : report) : list event :=
  match err r with
  | Some e => [Stderr ("Delivery failed for offset=" +:+
                       match offset r with Some n => str_int n | None => "None" end
                       +:+ " error=" +:+ e +:+ nl)]
  | None => []
  end.

Definition callback_events (rs : list report) : list event :=
  concat (map callback_line rs).


(** [log s t] is [s] with the events [t] added. *)
Definition log {C} (s : state C) (t : list event) : state C :=
  Make (producer s) (uuids s) (ticks s) (trace s ++ t) (running s) (bytes_sent s).

(** ** What a client does to one message *)

Section Backpressure.

Context {C : Type} {client : Client C}.
Variable uuid4 : nat -> string.

(** The client in state [c] raises [BufferError] on the next [k] attempts
    of [send] for this message and takes it on the attempt after them;
    [i] is the number of keys drawn so far. *)
Fixpoint refuses (k : nat) (payload topic : string) (c : C) (i : nat) : Prop :=
  match k with
  | O => (produce c topic (uuid4 i) payload).1 = Enqueued
  | S k' =>
      (produce c topic (uuid4 i) payload).1 = BufferError /\
      refuses k' payload topic
        (poll (produce c topic (uuid4 i) payload).2 (round 1 10)).2 (S i)
  end.

(** The events of such a [send] and the client it leaves. *)
Fixpoint send_trace (k : nat) (payload topic : string) (c : C) (i : nat)
  : list event :=
  match k with
  | O => [Produce topic (uuid4 i) payload Enqueued]
  | S k' =>
      let c1 := (produce c topic (uuid4 i) payload).2 in
      Produce topic (uuid4 i) payload BufferError
      :: Poll (round 1 10) (poll c1 (round 1 10)).1
      :: callback_events (poll c1 (round 1 10)).1
      ++ send_trace k' payload topic (poll c1 (round 1 10)).2 (S i)
  end.

Fixpoint send_client (k : nat) (payload topic : string) (c : C) (i : nat) : C :=
  match k with
  | O => (produce c topic (uuid4 i) payload).2
  | S k' =>
      let c1 := (produce c topic (uuid4 i) payload).2 in
      send_client k' payload topic (poll c1 (round 1 10)).2 (S i)
  end.

End Backpressure.

(** The reports handed to the callback by the polls and flushes of a trace. *)
Definition reports_of (e : event) : list report :=
  match e with
  | Poll _ rs | Flush rs => rs
  | _ => []
  end.

Definition reports (t : list event) : list report := concat (map reports_of t).

(** The events of a trace that are of a kind. *)
Definition only (p : event -> bool) (t : list event) : list event :=
  filter (fun e => p e = true) t.

(** The arguments of the [set_postfix] calls of a trace, in order. *)
Fixpoint postfixes (t : list event) : list (string * string) :=
  match t with
  | [] => []
  | BarPostfix sent tput :: t' => (sent, tput) :: postfixes t'
  | _ :: t' => postfixes t'
  end.

(** A stretch of trace in which nothing is flushed, the bar does not
    advance, nothing is printed and no progress is reported. *)
Definition quiet (t : list event) : Prop :=
  count is_flush t = 0%nat /\ count is_update t = 0%nat /\ only is_stdout t = [] /\
  postfixes t = [].

(** [cfg] with another password. *)
Definition with_password (cfg : config) (password : string) : config :=
  Config (KAFKA_BOOTSTRAP_SERVERS cfg) (KAFKA_SECURITY_PROTOCOL cfg)
    (KAFKA_SASL_MECHANISM cfg) (KAFKA_SASL_USERNAME cfg) password
    (JOB_TOPIC_NAME cfg) (JOB_MSG_BYTES cfg) (JOB_MAX_BYTES cfg)
    (JOB_LINGER_MS cfg) (JOB_BATCH_SIZE cfg).

(** The exact ceiling of [a / b] for [0 < b]. *)
Definition ceiling (a b : Z) : Z := - ((- a) / b).

(** ** Reading floats *)

(** [2 ^ k] for a shift by [k]: [shl x k = x * pw k]. *)
Definition pw (k : Z) : Z := 2 ^ Z.max 0 k.

(** The floats that [round] produces, which are the floats of Python: zero,
    the normal numbers, with a mantissa of [prec] bits, the subnormal ones
    at the least exponent, the infinities and NaN. *)
Definition canonical (x : float) : Prop :=
  match x with
  | Fin m e =>
      (m = 0 /\ e = 0) \/
      (m <> 0 /\ emin <= e <= emax /\ Z.abs m < 2 ^ prec /\
       (2 ^ (prec - 1) <= Z.abs m \/ e = emin))
  | _ => True
  end.

Definition nonneg (x : float) : Prop :=
  match x with
  | Fin m _ => 0 <= m
  | Inf s => s = false
  | NaN => False
  end.

Definition positive (x : float) : Prop :=
  match x with
  | Fin m _ => 0 < m
  | Inf s => s = false
  | NaN => False
  end.

Definition finite (x : float) : Prop :=
  match x with
  | Fin _ _ => True
  | _ => False
  end.

(** The exact quotient of [x] by [1024 ^ i]. *)
Definition scaled (x : float) (i : nat) : float :=
  match x with
  | Fin m e => Fin m (e - 10 * Z.of_nat i)
  | _ => x
  end.

(** What [_fmt_bytes] compares with [1024.0] at the unit of index [i]: the
    integer itself at the first unit, a float after the first division. *)
Definition scaled_num (n : Z) (x : float) (i : nat) : num :=
  match i with
  | O => Int n
  | S _ => Flt (scaled x i)
  end.

(** [s] with another client state. *)
Definition with_producer {C} (s : state C) (c : C) : state C :=
  Make c (uuids s) (ticks s) (trace s) (running s) (bytes_sent s).

(** ** What the formatters print *)

(** [i] is the index of the unit that the loop of [_fmt_bytes] stops at
    for [x]: the first of [units] under which [x], divided by [1024] once
    per unit passed, is below [1024.0], and the index after the last of
    them (that of the fallback unit) when there is none. *)
Definition selects (units : list string) (x : float) (i : nat) : Prop :=
  (i <= length units)%nat /\
  ((i < length units)%nat -> ltb (scaled x i) f1024 = true) /\
  (forall j : nat, (j < i)%nat -> ltb (scaled x j) f1024 = false).

(** [s] is [x] under the unit that is selected for it: the scaled value
    with [d] decimals, a space and the unit. *)
Definition rendered (d : nat) (units : list string) (last : string)
    (x : float) (s : string) : Prop :=
  exists i : nat,
    selects units x i /\
    s = format_f d (scaled x i) +:+ " " +:+ nth i (units ++ [last]) "".

Definition is_digit (c : ascii) : bool :=
  (48 <=? nat_of_ascii c)%nat && (nat_of_ascii c <=? 57)%nat.

(** [l] is the digits of an integer read from the right, in groups of
    three separated by commas, the last group (the leftmost) of one to
    three digits; [pos] digits of the current group have been read. *)
Fixpoint grouped_from_right (pos : nat) (l : list ascii) : bool :=
  match l with
  | [] => false
  | d :: l' =>
      is_digit d &&
      match l' with
      | [] => true
      | c :: l'' =>
          if Ascii.eqb c ","%char
          then (pos =? 2)%nat && grouped_from_right 0 l''
          else (pos <? 2)%nat && grouped_from_right (S pos) l'
      end
  end.

(** [s] is an integer with its thousands separated by commas, after a
    minus sign or none. *)
Definition integer_part (s : string) : Prop :=
  exists (sign : string) (body : list ascii),
    s = sign +:+ string_of_chars body /\
    (sign = "" \/ sign = "-") /\
    grouped_from_right 0 (rev body) = true.

(** [s] reads as an integer part, a point, exactly [d] decimal digits, a
    space and one of [units]. *)
Definition fixed_point (d : nat) (units : list string) (s : string) : Prop :=
  exists (whole : string) (frac : list ascii) (unit : string),
    s = whole +:+ "." +:+ string_of_chars frac +:+ " " +:+ unit /\
    integer_part whole /\
    length frac = d /\
    Forall (fun c => is_digit c = true) frac /\
    unit ∈ units.

(** ** What a run reports, calls and leaves behind *)

(** The bytes that one batch adds to the counter. *)
Definition batch_bytes (cfg : config) : Z :=
  JOB_MSG_BYTES cfg * Z.of_nat (Z.to_nat (JOB_BATCH_SIZE cfg)).

(** [p] is what a batch reports that ends with the counter at [n] and
    reads the clock at [t1], in a run that started at [start]: the counter,
    and the counter over the time elapsed, which is at least [epsilon]. *)
Definition progress (start : float) (n : Z) (t1 : float) (p : string * string) : Prop :=
  exists rate : float,
    num_div (Int n) (fmax (sub t1 start) epsilon) = inr rate /\
    _fmt_bytes (Int n) = inr p.1 /\
    _fmt_rate (Flt rate) = inr p.2.

(** Two floats are the same float (this is not [==] of Python). *)
Definition float_eqb (x y : float) : bool :=
  match x, y with
  | Fin m1 e1, Fin m2 e2 => (m1 =? m2) && (e1 =? e2)
  | Inf a, Inf b => Bool.eqb a b
  | NaN, NaN => true
  | _, _ => false
  end.

Definition is_refused (e : event) : bool :=
  match e with Produce _ _ _ BufferError => true | _ => false end.

Definition is_poll (e : event) : bool :=
  match e with Poll _ _ => true | _ => false end.

Definition is_poll_with (timeout : float) (e : event) : bool :=
  match e with Poll x _ => float_eqb x timeout | _ => false end.

Definition attempt_of (e : event) : option (string * string * string) :=
  match e with
  | Produce topic key payload _ => Some (topic, key, payload)
  | _ => None
  end.

(** Topic, key and payload of the calls of [produce] of a trace, in order. *)
Definition attempts (t : list event) : list (string * string * string) :=
  omap attempt_of t.

(** In the stretch [t], which starts when [i] keys have been drawn: every
    call of [produce] is for [topic] and [payload] under the next key;
    there are as many refusals as polls with the back-off; a call of
    [produce] is taken or refused; a poll has timeout zero or the
    back-off. *)
Definition orderly (uuid4 : nat -> string) (topic payload : string) (i : nat)
    (t : list event) : Prop :=
  attempts t = map (fun j => (topic, uuid4 j, payload)) (seq i (count is_attempt t)) /\
  count is_refused t = count (is_poll_with backoff) t /\
  count is_attempt t = (count is_enqueued t + count is_refused t)%nat /\
  count is_poll t =
    (count (is_poll_with (Fin 0 0)) t + count (is_poll_with backoff) t)%nat.

(** An exception of the arithmetic of Python, as opposed to one of the
    client. *)
Definition arithmetic (e : exn) : Prop :=
  match e with
  | KafkaException _ => False
  | _ => True
  end.

(** [t] is [t0], then events among which nothing is flushed and nothing is
    printed, then the call of [produce] that raised [detail]. *)
Definition rejected (topic payload detail : string) (t0 t : list event) : Prop :=
  exists (t' : list event) (key : string),
    t = t0 ++ t' ++ [Produce topic key payload (Rejected detail)] /\
    count is_flush t' = 0%nat /\ only is_stdout t' = [].

(** [t] is [t0] and then events among which nothing is printed. *)
Definition unprinted (t0 t : list event) : Prop :=
  exists t' : list event, t = t0 ++ t' /\ only is_stdout t' = [].

(** How a computation that raised [e] left the trace [t], from [t0]. *)
Definition aborted (topic payload : string) (e : exn) (t0 t : list event) : Prop :=
  match e with
  | KafkaException detail => rejected topic payload detail t0 t
  | _ => unprinted t0 t
  end.

(** ** Clients for the instances *)

(** A client that takes [limit] messages and raises a [KafkaException] for
    every message after them; it reports nothing.  Its constructor raises a
    [KafkaException] for a ["batch.size"] below one. *)
Module Faulty.

Definition faulty_Producer (settings : gmap string value) : string + nat :=
  match settings !! "batch.size" with
  | Some (VInt n) =>
      if n <? 1 then inl "Invalid value for configuration property batch.size"
      else inr 0%nat
  | _ => inr 0%nat
  end.

Definition faulty_produce (limit : nat) (c : nat) (topic key payload : string)
  : produce_result * nat :=
  if (c <? limit)%nat then (Enqueued, S c) else (Rejected "MSG_SIZE_TOO_LARGE", c).

Definition client (limit : nat) : Client nat :=
  {| Producer := faulty_Producer;
     produce := faulty_produce limit;
     poll := fun c _ => ([], c);
     flush := fun c => ([], c) |}.

End Faulty.

(** The states of the simulated client of capacity [cap]. *)
Definition sim_bounded (cap : nat) (c : Sim.sim) : Prop :=
  Sim.capacity c = cap /\ (length (Sim.queue c) <= cap)%nat.

(** The lines on the error stream of [t] are those of the callback for the
    reports that the client handed over in [t], in that order. *)
Definition logged (t : list event) : Prop :=
  only is_stderr t = callback_events (reports t).

(** The client after the calls on it that [t] records, from [c]. *)
Fixpoint replay {C : Type} {client : Client C} (c : C) (t : list event) : C :=
  match t with
  | [] => c
  | Produce topic key payload _ :: t' => replay (produce c topic key payload).2 t'
  | Poll timeout _ :: t' => replay (poll c timeout).2 t'
  | Flush _ :: t' => replay (flush c).2 t'
  | _ :: t' => replay c t'
  end.

(** * Properties *)

(** ** Floating point *)


Lemma pw_pos k : 0 < pw k.
Proof. unfold pw. apply Z.pow_pos_nonneg; lia. Qed.

Lemma shl_pw x k : shl x k = x * pw k.
Proof.
  unfold shl, pw. destruct (Z.leb_spec 0 k).
  - by rewrite Z.max_r.
  - rewrite Z.max_l by lia. simpl. lia.
Qed.

Lemma pw_nonneg k : 0 <= k -> pw k = 2 ^ k.
Proof. intros. unfold pw. by rewrite Z.max_r. Qed.

Lemma pw_nonpos k : k <= 0 -> pw k = 1.
Proof. intros. unfold pw. by rewrite Z.max_l. Qed.

Lemma pw_shift k j : 0 <= j -> pw (k - j) * pw (- k) * 2 ^ j = pw k * pw (j - k).
Proof.
  intros Hj. destruct (Z.le_gt_cases k 0) as [Hk|Hk].
  - rewrite (pw_nonpos k), (pw_nonpos (k - j)), !pw_nonneg by lia.
    replace (j - k) with (- k + j) by lia. rewrite Z.pow_add_r by lia. lia.
  - destruct (Z.le_gt_cases j k) as [Hjk|Hjk].
    + rewrite (pw_nonpos (- k)), (pw_nonpos (j - k)), !pw_nonneg by lia.
      replace k with (k - j + j) at 2 by lia. rewrite Z.pow_add_r by lia. lia.
    + rewrite (pw_nonpos (- k)), (pw_nonpos (k - j)), !pw_nonneg by lia.
      replace j with (k + (j - k)) at 1 by lia. rewrite Z.pow_add_r by lia. lia.
Qed.

(** rne *)
Lemma rne_bounds n d : 0 < d -> n / d <= rne n d <= n / d + 1.
Proof.
  intros Hd. unfold rne.
  destruct (2 * (n mod d) ?= d); [destruct (Z.even _)|..]; lia.
Qed.

Lemma rne_ge n d a : 0 < d -> a * d <= n -> a <= rne n d.
Proof.
  intros Hd Ha. pose proof (rne_bounds n d Hd).
  assert (a <= n / d) by (apply Z.div_le_lower_bound; lia). lia.
Qed.

Lemma rne_le n d a : 0 < d -> n <= a * d -> rne n d <= a.
Proof.
  intros Hd Ha. unfold rne.
  pose proof (Z.div_mod n d ltac:(lia)) as E.
  pose proof (Z.mod_pos_bound n d Hd) as B.
  assert (n / d <= a) by (apply Z.div_le_upper_bound; lia).
  destruct (Z.compare_spec (2 * (n mod d)) d); [destruct (Z.even _)|..]; nia.
Qed.

Lemma rne_exact a d : 0 < d -> rne (a * d) d = a.
Proof.
  intros Hd. unfold rne. rewrite Z.mod_mul, Z.div_mul, Z.mul_0_r by lia.
  destruct (Z.compare_spec 0 d); lia.
Qed.

Lemma rne_gt_half n d a : 0 < d -> d * (2 * a + 1) < 2 * n -> a + 1 <= rne n d.
Proof.
  intros Hd Ha. unfold rne.
  pose proof (Z.div_mod n d ltac:(lia)) as E.
  pose proof (Z.mod_pos_bound n d Hd) as B.
  assert (a <= n / d) by (apply Z.div_le_lower_bound; nia).
  destruct (Z.compare_spec (2 * (n mod d)) d); [destruct (Z.even _)|..]; nia.
Qed.

(** ilog2 *)
Lemma ilog2_spec n d :
  0 < n -> 0 < d ->
  shl d (ilog2 n d) <= shl n (- ilog2 n d) < 2 * shl d (ilog2 n d).
Proof.
  intros Hn Hd. unfold ilog2.
  pose proof (Z.log2_spec n Hn) as Ln. pose proof (Z.log2_spec d Hd) as Ld.
  pose proof (Z.log2_nonneg n). pose proof (Z.log2_nonneg d).
  rewrite !Z.pow_succ_r in * by lia.
  set (a := Z.log2 n) in *. set (b := Z.log2 d) in *.
  destruct (Z.leb_spec (shl d (a - b)) (shl n (- (a - b)))) as [T|T];
    rewrite !shl_pw in *.
  - split; [done|].
    destruct (Z.le_gt_cases 0 (a - b)).
    + rewrite (pw_nonpos (- (a - b))), pw_nonneg in * by lia.
      assert (2 ^ a = 2 ^ b * 2 ^ (a - b))
        by (rewrite <- Z.pow_add_r by lia; f_equal; lia).
      nia.
    + rewrite (pw_nonpos (a - b)), pw_nonneg in * by lia.
      assert (2 ^ b = 2 ^ a * 2 ^ (- (a - b)))
        by (rewrite <- Z.pow_add_r by lia; f_equal; lia).
      nia.
  - destruct (Z.le_gt_cases 1 (a - b)).
    + rewrite (pw_nonpos (- (a - b))), (pw_nonneg (a - b)) in T by lia.
      rewrite (pw_nonpos (- (a - b - 1))), (pw_nonneg (a - b - 1)) by lia.
      assert (2 ^ a = 2 ^ b * 2 ^ (a - b))
        by (rewrite <- Z.pow_add_r by lia; f_equal; lia).
      assert (2 ^ (a - b) = 2 * 2 ^ (a - b - 1))
        by (rewrite <- Z.pow_succ_r by lia; f_equal; lia).
      nia.
    + rewrite (pw_nonpos (a - b)), (pw_nonneg (- (a - b))) in T by lia.
      rewrite (pw_nonpos (a - b - 1)), (pw_nonneg (- (a - b - 1))) by lia.
      assert (2 ^ b = 2 ^ a * 2 ^ (- (a - b)))
        by (rewrite <- Z.pow_add_r by lia; f_equal; lia).
      assert (2 ^ (- (a - b - 1)) = 2 * 2 ^ (- (a - b)))
        by (rewrite <- Z.pow_succ_r by lia; f_equal; lia).
      nia.
Qed.

Lemma scale_down_le n d k j :
  0 <= j -> shl d k <= shl n (- k) ->
  2 ^ j * shl d (k - j) <= shl n (- (k - j)).
Proof.
  intros Hj. rewrite !shl_pw. replace (- (k - j)) with (j - k) by lia.
  pose proof (pw_shift k j Hj) as I.
  pose proof (pw_pos k). pose proof (pw_pos (- k)).
  pose proof (pw_pos (k - j)). pose proof (pw_pos (j - k)).
  intros T. apply (Z.mul_le_mono_pos_r _ _ (pw (- k))); [done|].
  replace (2 ^ j * (d * pw (k - j)) * pw (- k)) with (d * pw k * pw (j - k))
    by (rewrite <- Z.mul_assoc, <- I; ring).
  replace (n * pw (j - k) * pw (- k)) with (n * pw (- k) * pw (j - k)) by ring.
  apply Z.mul_le_mono_nonneg_r; lia.
Qed.

Lemma scale_down_lt n d k j c :
  0 <= j -> shl n (- k) < c * shl d k ->
  shl n (- (k - j)) < c * 2 ^ j * shl d (k - j).
Proof.
  intros Hj. rewrite !shl_pw. replace (- (k - j)) with (j - k) by lia.
  pose proof (pw_shift k j Hj) as I.
  pose proof (pw_pos k). pose proof (pw_pos (- k)).
  pose proof (pw_pos (k - j)). pose proof (pw_pos (j - k)).
  intros T. apply (Z.mul_lt_mono_pos_r (pw (- k))); [done|].
  replace (c * 2 ^ j * (d * pw (k - j)) * pw (- k))
    with (c * d * (pw k * pw (j - k))) by (rewrite <- I; ring).
  replace (n * pw (j - k) * pw (- k)) with (n * pw (- k) * pw (j - k)) by ring.
  replace (c * d * (pw k * pw (j - k))) with (c * (d * pw k) * pw (j - k)) by ring.
  apply Z.mul_lt_mono_pos_r; lia.
Qed.

Lemma scale_up_lt n d k j c :
  0 <= j -> shl n (- k) < c * shl d k ->
  shl n (- (k + j)) * 2 ^ j < c * shl d (k + j).
Proof.
  intros Hj. rewrite !shl_pw.
  pose proof (pw_shift (k + j) j Hj) as I.
  replace (k + j - j) with k in I by lia.
  replace (j - (k + j)) with (- k) in I by lia.
  pose proof (pw_pos k). pose proof (pw_pos (- k)).
  pose proof (pw_pos (k + j)). pose proof (pw_pos (- (k + j))).
  intros T. apply (Z.mul_lt_mono_pos_r (pw k)); [done|].
  replace (n * pw (- (k + j)) * 2 ^ j * pw k) with (n * (pw (k + j) * pw (- k)))
    by (rewrite <- I; ring).
  replace (n * (pw (k + j) * pw (- k))) with (n * pw (- k) * pw (k + j)) by ring.
  replace (c * (d * pw (k + j)) * pw k) with (c * (d * pw k) * pw (k + j)) by ring.
  apply Z.mul_lt_mono_pos_r; lia.
Qed.

Lemma round_pos_mantissa n d :
  0 < n -> 0 < d ->
  let e := Z.max (ilog2 n d - (prec - 1)) emin in
  let m := rne (shl n (- e)) (shl d e) in
  0 <= m <= 2 ^ prec /\ (2 ^ (prec - 1) <= m \/ e = emin).
Proof.
  intros Hn Hd e m. pose proof (ilog2_spec n d Hn Hd) as [L U].
  set (k := ilog2 n d) in *. unfold prec in *. simpl in e.
  assert (Dpos : 0 < shl d e) by (rewrite shl_pw; pose proof (pw_pos e); nia).
  assert (Npos : 0 <= shl n (- e)) by (rewrite shl_pw; pose proof (pw_pos (- e)); nia).
  destruct (Z.le_gt_cases emin (k - 52)) as [Hk|Hk].
  - assert (e = k - 52) as He by (unfold e; lia).
    pose proof (scale_down_le n d k 52 ltac:(lia) L) as L'.
    pose proof (scale_down_lt n d k 52 2 ltac:(lia) U) as U'.
    rewrite <- He in L', U'. fold e.
    split; [split|left].
    + apply rne_ge; lia.
    + apply rne_le; [done|]. change (2 ^ 53) with (2 * 2 ^ 52). lia.
    + apply rne_ge; [done|]. lia.
  - assert (e = emin) as He by (unfold e; lia).
    split; [split|by right].
    + apply rne_ge; lia.
    + apply rne_le; [done|].
      destruct (Z.le_gt_cases e k) as [Hek|Hek].
      * pose proof (scale_down_lt n d k (k - e) 2 ltac:(lia) U) as U'.
        replace (k - (k - e)) with e in U' by lia.
        assert (2 * 2 ^ (k - e) <= 2 ^ 53).
        { rewrite <- Z.pow_succ_r by lia. apply Z.pow_le_mono_r; lia. }
        nia.
      * pose proof (scale_up_lt n d k (e - k) 2 ltac:(lia) U) as U'.
        replace (k + (e - k)) with e in U' by lia.
        assert (0 < 2 ^ (e - k)) by (apply Z.pow_pos_nonneg; lia).
        assert (2 <= 2 ^ 53) by done.
        nia.
Qed.

Lemma round_pos_canonical n d :
  0 < n -> 0 < d -> canonical (round_pos n d) /\ nonneg (round_pos n d).
Proof.
  intros Hn Hd. pose proof (round_pos_mantissa n d Hn Hd) as [[M0 M1] M2].
  unfold round_pos. simpl in M0, M1, M2.
  set (e := Z.max (ilog2 n d - (prec - 1)) emin) in *.
  set (m := rne (shl n (- e)) (shl d e)) in *.
  assert (emin <= e) by (unfold e; lia).
  destruct (Z.eqb_spec m 0) as [E0|E0]; [simpl; lia|].
  destruct (Z.eqb_spec m (2 ^ prec)) as [E1|E1].
  - destruct (Z.ltb_spec emax (e + 1)); [done|].
    simpl. unfold prec, emin, emax in *. split; [right|lia].
    split_and!; lia.
  - destruct (Z.ltb_spec emax e); [done|].
    simpl. unfold prec in *. split; [right|lia].
    split_and!; lia.
Qed.

Lemma shl_pos x k : 0 < x -> 0 < shl x k.
Proof. intros. rewrite shl_pw. pose proof (pw_pos k). nia. Qed.

Lemma ilog2_unique n d m e :
  0 < n -> 0 < d -> 2 ^ 52 <= m < 2 ^ 53 ->
  shl n (- e) = m * shl d e -> ilog2 n d = e + 52.
Proof.
  intros Hn Hd Hm E. pose proof (ilog2_spec n d Hn Hd) as [L U].
  set (k := ilog2 n d) in *. pose proof (shl_pos d e Hd) as Dpos.
  destruct (Z.lt_trichotomy k (e + 52)) as [Hk|[Hk|Hk]]; [exfalso|done|exfalso].
  - destruct (Z.le_gt_cases e k) as [Hek|Hek].
    + pose proof (scale_down_lt n d k (k - e) 2 ltac:(lia) U) as U'.
      replace (k - (k - e)) with e in U' by lia.
      assert (2 * 2 ^ (k - e) <= 2 ^ 52).
      { rewrite <- Z.pow_succ_r by lia. apply Z.pow_le_mono_r; lia. }
      nia.
    + pose proof (scale_up_lt n d k (e - k) 2 ltac:(lia) U) as U'.
      replace (k + (e - k)) with e in U' by lia.
      assert (0 < 2 ^ (e - k)) by (apply Z.pow_pos_nonneg; lia).
      assert (2 <= 2 ^ 52) by done. nia.
  - pose proof (scale_down_le n d k (k - e) ltac:(lia) L) as L'.
    replace (k - (k - e)) with e in L' by lia.
    assert (2 ^ 53 <= 2 ^ (k - e)) by (apply Z.pow_le_mono_r; lia).
    nia.
Qed.

Lemma round_pos_exact n d m e :
  0 < n -> 0 < d -> 2 ^ 52 <= m < 2 ^ 53 -> emin <= e <= emax ->
  shl n (- e) = m * shl d e -> round_pos n d = Fin m e.
Proof.
  intros Hn Hd Hm He E. unfold round_pos.
  rewrite (ilog2_unique n d m e) by done. unfold prec. cbv zeta.
  replace (e + 52 - (53 - 1)) with e by lia. rewrite Z.max_l by lia.
  rewrite E, rne_exact by (by apply shl_pos).
  destruct (Z.eqb_spec m 0); [lia|].
  destruct (Z.eqb_spec m (2 ^ 53)); [lia|].
  destruct (Z.ltb_spec emax e); [lia|]. done.
Qed.

Lemma ltb_f1024_false m e :
  canonical (Fin m e) -> 0 <= m -> ltb (Fin m e) f1024 = false ->
  2 ^ 52 <= m < 2 ^ 53 /\ -42 <= e <= emax.
Proof.
  unfold ltb, f1024, cmp_dyadic. intros Hc Hm Hl.
  destruct (Z.compare_spec (m * 2 ^ (e - Z.min e (-42)))
              (2 ^ 52 * 2 ^ (-42 - Z.min e (-42)))) as [Hcmp|Hcmp|Hcmp]; [|done|].
  all: destruct Hc as [[-> ->]|(Hm0 & He & Hm1 & Hn)]; [simpl in Hcmp; lia|].
  all: unfold prec, emin, emax in *; rewrite Z.abs_eq in * by lia.
  all: destruct (Z.le_gt_cases (-42) e) as [Hge|Hlt]; [lia|exfalso].
  all: rewrite Z.min_l, Z.sub_diag in Hcmp by lia.
  all: assert (2 ^ 1 <= 2 ^ (-42 - e)) by (apply Z.pow_le_mono_r; lia).
  all: simpl (2 ^ 1) in *; simpl (2 ^ 0) in *; simpl (53 - 1) in *; nia.
Qed.

Lemma div_f1024 m e :
  canonical (Fin m e) -> 0 <= m -> ltb (Fin m e) f1024 = false ->
  div (Fin m e) f1024 = inr (Fin m (e - 10)) /\ canonical (Fin m (e - 10)).
Proof.
  intros Hc Hm Hl. destruct (ltb_f1024_false m e Hc Hm Hl) as [Hm' He].
  unfold emax, emin in *. split.
  - unfold div, f1024. change (2 ^ 52) with 4503599627370496.
    cbv beta iota. change 4503599627370496 with (2 ^ 52).
    f_equal. unfold round.
    assert (Z.sgn (2 ^ 52) = 1) as -> by done.
    assert (Z.abs (2 ^ 52) = 2 ^ 52) as -> by done.
    rewrite Z.mul_1_r.
    assert (0 < shl m (e - -42)) as Hn by (apply shl_pos; lia).
    destruct (Z.compare_spec (shl m (e - -42)) 0); [lia|lia|].
    apply round_pos_exact; [done|by apply shl_pos|lia|unfold emin, emax; lia|].
    rewrite !shl_pw. rewrite (pw_nonneg (e - -42)) by lia.
    rewrite (pw_nonpos (-42 - e)) by lia.
    destruct (Z.le_gt_cases 10 e).
    + rewrite (pw_nonpos (- (e - 10))), (pw_nonneg (e - 10)) by lia.
      replace (e - -42) with (52 + (e - 10)) by lia.
      rewrite Z.pow_add_r by lia. ring.
    + rewrite (pw_nonneg (- (e - 10))), (pw_nonpos (e - 10)) by lia.
      replace (m * 2 ^ (e - -42) * 2 ^ (- (e - 10))) with (m * 2 ^ 52); [ring|].
      rewrite <- Z.mul_assoc, <- Z.pow_add_r by lia. do 2 f_equal. lia.
  - right. unfold prec, emin, emax. rewrite Z.abs_eq by lia.
    split_and!; lia.
Qed.

Lemma ceiling_spec a b : 0 < b -> (ceiling a b - 1) * b < a <= ceiling a b * b.
Proof.
  intros Hb. unfold ceiling.
  pose proof (Z.div_mod (- a) b ltac:(lia)).
  pose proof (Z.mod_pos_bound (- a) b Hb). nia.
Qed.

Lemma ceiling_unique m S c : 0 < S -> (c - 1) * S < m <= c * S -> ceiling m S = c.
Proof.
  intros HS Hc. pose proof (ceiling_spec m S HS). nia.
Qed.

Lemma round_pos_ceil a b :
  0 < a < 2 ^ 53 -> 0 < b < 2 ^ 53 ->
  exists m e, round_pos a b = Fin m e /\ ceil (Fin m e) = inr (ceiling a b).
Proof.
  intros Ha Hb.
  pose proof (ilog2_spec a b ltac:(lia) ltac:(lia)) as [L U].
  pose proof (round_pos_mantissa a b ltac:(lia) ltac:(lia)) as M.
  unfold round_pos. cbv zeta in *. unfold prec in *. change (53 - 1) with 52 in *.
  set (k := ilog2 a b) in *.
  assert (Hk1 : k <= 52).
  { destruct (Z.le_gt_cases k 52); [done|exfalso]. rewrite !shl_pw in L.
    rewrite (pw_nonpos (- k)), (pw_nonneg k) in L by lia.
    assert (2 ^ 53 <= 2 ^ k) by (apply Z.pow_le_mono_r; lia). nia. }
  assert (Hk2 : -53 <= k).
  { destruct (Z.le_gt_cases (-53) k); [done|exfalso]. rewrite !shl_pw in U.
    rewrite (pw_nonpos k), (pw_nonneg (- k)) in U by lia.
    assert (2 ^ 54 <= 2 ^ (- k)) by (apply Z.pow_le_mono_r; lia).
    assert (2 * 2 ^ 53 = 2 ^ 54) by done. nia. }
  pose proof (scale_down_le a b k 52 ltac:(lia) L) as L'.
  pose proof (scale_down_lt a b k 52 2 ltac:(lia) U) as U'.
  rewrite Z.max_l in * by (unfold emin; lia).
  set (s := 52 - k). replace (k - 52) with (- s) in * by (unfold s; lia).
  replace (- - s) with s in * by lia.
  assert (Hs : 0 <= s) by (unfold s; lia).
  rewrite !shl_pw in *. rewrite (pw_nonpos (- s)), (pw_nonneg s) in * by lia.
  rewrite Z.mul_1_r in *.
  set (S := 2 ^ s) in *. assert (HS : 0 < S) by (apply Z.pow_pos_nonneg; lia).
  set (m := rne (a * S) b) in *.
  pose proof (ceiling_spec a b ltac:(lia)) as C. set (c := ceiling a b) in *.
  assert (Hm1 : m <= c * S) by (apply rne_le; nia).
  assert (Hm2 : (c - 1) * S + 1 <= m) by (apply rne_gt_half; nia).
  assert (Hm3 : 2 ^ 52 <= m) by (apply rne_ge; lia).
  assert (Hc : c < 2 ^ 53) by nia.
  destruct (Z.eqb_spec m 0) as [E0|E0]; [lia|].
  destruct (Z.eqb_spec m (2 ^ 53)) as [E1|E1].
  - assert (1 <= s).
    { destruct (Z.le_gt_cases 1 s); [done|exfalso].
      assert (s = 0) as Es by lia. unfold S in *. rewrite Es in *. simpl in *. lia. }
    destruct (Z.ltb_spec emax (- s + 1)); [unfold emax in *; lia|].
    eexists _, _. split; [reflexivity|]. unfold ceil. f_equal.
    assert (S = 2 * 2 ^ (s - 1)) as ES.
    { unfold S. rewrite <- Z.pow_succ_r by lia. f_equal. lia. }
    assert (0 < 2 ^ (s - 1)) by (apply Z.pow_pos_nonneg; lia).
    assert (2 * 2 ^ 52 = 2 ^ 53) by done.
    destruct (Z.leb_spec 0 (- s + 1)).
    + assert (s = 1) as Es by lia. rewrite Es in *. simpl in *. lia.
    + replace (- (- s + 1)) with (s - 1) by lia.
      apply ceiling_unique; [done|]. nia.
  - destruct (Z.ltb_spec emax (- s)); [unfold emax in *; lia|].
    eexists _, _. split; [reflexivity|]. unfold ceil. f_equal.
    destruct (Z.leb_spec 0 (- s)).
    + assert (s = 0) as Es by lia. unfold S in *. rewrite Es in *. simpl in *. lia.
    + replace (- - s) with s by lia. apply ceiling_unique; [done|]. fold S. lia.
Qed.

Lemma ceil_div_exact a b :
  0 < a < 2 ^ 53 -> 0 < b < 2 ^ 53 -> ceil_div a b = inr (ceiling a b).
Proof.
  intros Ha Hb. unfold ceil_div, int_truediv.
  destruct (Z.eqb_spec b 0); [lia|].
  rewrite Z.sgn_pos, Z.abs_eq, Z.mul_1_r by lia. unfold round.
  destruct (Z.compare_spec a 0); [lia|lia|].
  destruct (round_pos_ceil a b Ha Hb) as (m & e & -> & Hc). done.
Qed.

(** canonical results *)
Lemma canonical_opp x : canonical x -> canonical (opp x).
Proof.
  destruct x as [m e| |]; simpl; [|done..].
  intros [[-> ->]|H]; [by left|right]. rewrite Z.abs_opp. split; [lia|]. tauto.
Qed.

Lemma round_canonical n d : 0 < d -> canonical (round n d).
Proof.
  intros Hd. unfold round. destruct (Z.compare_spec n 0).
  - by left.
  - apply canonical_opp, round_pos_canonical; lia.
  - apply round_pos_canonical; lia.
Qed.

Lemma round_nonneg n d : 0 <= n -> 0 < d -> nonneg (round n d).
Proof.
  intros Hn Hd. unfold round. destruct (Z.compare_spec n 0).
  - simpl. lia.
  - lia.
  - apply round_pos_canonical; lia.
Qed.

Lemma of_int_canonical n x : of_int n = inr x -> canonical x.
Proof.
  unfold of_int. pose proof (round_canonical n 1 ltac:(lia)) as H.
  destruct (round n 1); intros [= <-]; done.
Qed.

Lemma of_int_nonneg n x : 0 <= n -> of_int n = inr x -> nonneg x.
Proof.
  unfold of_int. intros Hn. pose proof (round_nonneg n 1 Hn ltac:(lia)) as H.
  destruct (round n 1); intros [= <-]; done.
Qed.

Lemma of_int_finite n x : of_int n = inr x -> exists m e, x = Fin m e.
Proof.
  unfold of_int. pose proof (round_canonical n 1 ltac:(lia)) as H.
  unfold round in *. destruct (Z.compare_spec n 0).
  - intros [= <-]. eauto.
  - destruct (round_pos (- n) 1) as [m e|s|] eqn:E; simpl; intros [= <-]; eauto.
    exfalso. pose proof (round_pos_canonical (- n) 1 ltac:(lia) ltac:(lia)) as [_ N].
    by rewrite E in N.
  - destruct (round_pos n 1) as [m e|s|] eqn:E; simpl; intros [= <-]; eauto.
    exfalso. pose proof (round_pos_canonical n 1 ltac:(lia) ltac:(lia)) as [_ N].
    by rewrite E in N.
Qed.

Lemma ltb_f1024_large m e :
  2 ^ 52 <= m -> -42 <= e -> ltb (Fin m e) f1024 = false.
Proof.
  intros Hm He. unfold ltb, f1024, cmp_dyadic.
  rewrite Z.min_r by lia. replace (-42 - -42) with 0 by lia.
  assert (0 < 2 ^ (e - -42)) by (apply Z.pow_pos_nonneg; lia).
  destruct (Z.compare_spec (m * 2 ^ (e - -42)) (2 ^ 52 * 2 ^ 0)); [done| |done].
  simpl (2 ^ 0) in *. nia.
Qed.

Lemma of_int_large n x :
  1024 <= n -> of_int n = inr x ->
  exists m e, x = Fin m e /\ canonical x /\ 2 ^ 52 <= m /\ -42 <= e.
Proof.
  intros Hn Hx. pose proof (of_int_canonical n x Hx) as Hc.
  revert Hx Hc. unfold of_int, round.
  destruct (Z.compare_spec n 0); [lia|lia|].
  pose proof (ilog2_spec n 1 ltac:(lia) ltac:(lia)) as [L U].
  pose proof (round_pos_mantissa n 1 ltac:(lia) ltac:(lia)) as M.
  unfold round_pos. cbv zeta in *. unfold prec in *. change (53 - 1) with 52 in *.
  set (k := ilog2 n 1) in *.
  assert (Hk : 10 <= k).
  { destruct (Z.le_gt_cases 10 k); [done|exfalso]. rewrite !shl_pw in U.
    destruct (Z.le_gt_cases 0 k).
    - rewrite (pw_nonpos (- k)), (pw_nonneg k) in U by lia.
      assert (2 ^ k <= 2 ^ 9) by (apply Z.pow_le_mono_r; lia).
      assert (2 ^ 9 = 512) by done. lia.
    - rewrite (pw_nonpos k), (pw_nonneg (- k)) in U by lia.
      assert (0 < 2 ^ (- k)) by (apply Z.pow_pos_nonneg; lia). nia. }
  rewrite Z.max_l in * by (unfold emin; lia).
  set (m := rne _ _) in *. unfold emin in M.
  destruct (Z.eqb_spec m 0); [lia|].
  destruct (Z.eqb_spec m (2 ^ 53)).
  - destruct (Z.ltb_spec emax (k - 52 + 1)); [done|].
    intros [= <-] Hc. eexists _, _. split; [reflexivity|]. split; [done|].
    split; [done|lia].
  - destruct (Z.ltb_spec emax (k - 52)); [done|].
    intros [= <-] Hc. eexists _, _. split; [reflexivity|]. split; [done|].
    split; lia.
Qed.

Lemma num_ltb_int_false n :
  num_ltb (Int n) f1024 = false -> 1024 <= n.
Proof.
  unfold num_ltb, ltb, f1024, cmp_dyadic. rewrite Z.min_r by lia.
  replace (-42 - -42) with 0 by lia. replace (0 - -42) with 42 by lia.
  destruct (Z.compare_spec (n * 2 ^ 42) (2 ^ 52 * 2 ^ 0)); [|done|].
  all: intros _; assert (2 ^ 52 * 2 ^ 0 = 1024 * 2 ^ 42) by done; lia.
Qed.

Lemma scaled_0 x : scaled x 0 = x.
Proof. destruct x; [|done..]. simpl. f_equal. lia. Qed.

Lemma scaled_S x i : scaled (scaled x 1) i = scaled x (S i).
Proof. destruct x; [|done..]. simpl. f_equal. lia. Qed.

Lemma div_f1024_scaled x :
  canonical x -> nonneg x -> ltb x f1024 = false ->
  div x f1024 = inr (scaled x 1) /\ canonical (scaled x 1) /\ nonneg (scaled x 1).
Proof.
  intros Hc Hn Hl. destruct x as [m e|s|]; [| |done].
  - destruct (div_f1024 m e Hc Hn Hl) as [D C]. simpl.
    replace (e - 10 * 1) with (e - 10) by lia. done.
  - simpl in Hn. subst s. done.
Qed.

Lemma fmt_units_float (d : nat) (units : list string) (last : string) (x : float) :
  canonical x -> nonneg x ->
  exists i : nat,
    (i <= length units)%nat /\
    fmt_units d units last (Flt x) =
      inr (format_f d (scaled x i) +:+ " " +:+ nth i (units ++ [last]) "") /\
    ((i < length units)%nat -> ltb (scaled x i) f1024 = true) /\
    (forall j : nat, (j < i)%nat -> ltb (scaled x j) f1024 = false).
Proof.
  revert x. induction units as [|u units IH]; intros x Hc Hn.
  - exists 0%nat. rewrite scaled_0. simpl. split_and!; [lia|done|lia|lia].
  - cbn [fmt_units num_ltb num_div to_float format_num].
    destruct (ltb x f1024) eqn:Hl.
    + exists 0%nat. rewrite scaled_0. simpl. split_and!; [lia|done|done|lia].
    + destruct (div_f1024_scaled x Hc Hn Hl) as (D & C1 & N1).
      rewrite D.
      destruct (IH (scaled x 1) C1 N1) as (i & Hi & F & B & A).
      exists (S i). split_and!.
      * simpl. lia.
      * rewrite F, scaled_S. reflexivity.
      * intros Hlt. rewrite <- scaled_S. apply B. simpl in Hlt. lia.
      * intros [|j] Hj; [by rewrite scaled_0|]. rewrite <- scaled_S. apply A. lia.
Qed.

Lemma fmt_units_int (d : nat) (u : string) (units : list string) (last : string)
    (n : Z) (x : float) :
  0 <= n -> of_int n = inr x ->
  exists i : nat,
    (i <= S (length units))%nat /\
    fmt_units d (u :: units) last (Int n) =
      inr (format_f d (scaled x i) +:+ " " +:+ nth i (u :: units ++ [last]) "") /\
    ((i < S (length units))%nat -> num_ltb (scaled_num n x i) f1024 = true) /\
    (forall j : nat, (j < i)%nat -> num_ltb (scaled_num n x j) f1024 = false).
Proof.
  intros Hn Hx. cbn [fmt_units]. unfold format_num, num_div. cbn [to_float].
  rewrite Hx. destruct (num_ltb (Int n) f1024) eqn:Hl.
  - exists 0%nat. rewrite scaled_0.
    simpl. split_and!; [lia|done|done|lia].
  - apply num_ltb_int_false in Hl as Hn'.
    destruct (of_int_large n x Hn' Hx) as (m & e & -> & Hc & Hm & He).
    pose proof (ltb_f1024_large m e Hm He) as Hlt.
    assert (nonneg (Fin m e)) as Hnn by (simpl; lia).
    destruct (div_f1024_scaled (Fin m e) Hc Hnn Hlt) as (D & C1 & N1).
    rewrite D.
    destruct (fmt_units_float d units last _ C1 N1) as (i & Hi & F & B & A).
    exists (S i). split_and!.
    + lia.
    + rewrite F, scaled_S. reflexivity.
    + intros Hi'. cbn [scaled_num num_ltb]. rewrite <- scaled_S. apply B. lia.
    + intros [|j] Hj; [done|]. cbn [scaled_num num_ltb]. rewrite <- scaled_S.
      apply A. lia.
Qed.

(** decimals *)
Lemma frac_digits_length d n : length (frac_digits d n) = d.
Proof.
  revert n. induction d as [|d IH]; intros n; [done|].
  simpl. rewrite length_app, IH. simpl. lia.
Qed.

Lemma append_assoc (a b c : string) : (a +:+ b) +:+ c = a +:+ (b +:+ c).
Proof.
  induction a as [|x a IH]; [done|].
  change (String x ((a +:+ b) +:+ c) = String x (a +:+ (b +:+ c))).
  by rewrite IH.
Qed.

Lemma format_f_decimals (d : nat) (m e : Z) :
  exists whole frac,
    format_f (S d) (Fin m e) = whole +:+ "." +:+ string_of_chars frac /\
    length frac = S d /\
    Forall (fun c => exists k, c = digit k) frac.
Proof.
  set (r := rne (shl (Z.abs m * 10 ^ Z.of_nat (S d)) e) (shl 1 (- e))).
  exists ((if m <? 0 then "-" else "")
          +:+ string_of_chars (grouped (r / 10 ^ Z.of_nat (S d)))),
    (frac_digits (S d) (r mod 10 ^ Z.of_nat (S d))).
  split; [|split].
  - unfold format_f. fold r. cbn [Nat.eqb]. by rewrite append_assoc.
  - apply frac_digits_length.
  - generalize (r mod 10 ^ Z.of_nat (S d)). generalize (S d). clear.
    intros d. induction d as [|d IH]; intros n; simpl.
    + constructor.
    + apply Forall_app. split; [apply IH|]. repeat constructor. eauto.
Qed.

(** epsilon guards the division *)
Lemma div_total x y : (forall e, y <> Fin 0 e) -> exists z, div x y = inr z.
Proof.
  intros Hy. destruct y as [m e|s|].
  - destruct m as [|p|p]; [by destruct (Hy e)|..]; destruct x; simpl; eauto.
  - destruct x; simpl; eauto.
  - destruct x; simpl; eauto.
Qed.

Lemma epsilon_value : epsilon = Fin 4835703278458517 (-82).
Proof. by vm_compute. Qed.

Lemma fmax_epsilon_nonzero y e : fmax y epsilon <> Fin 0 e.
Proof.
  unfold fmax. rewrite epsilon_value. destruct (ltb y _) eqn:Hl; [done|].
  intros ->. revert Hl. unfold ltb, cmp_dyadic. rewrite Z.mul_0_l.
  assert (0 < 2 ^ (-82 - Z.min e (-82))) by (apply Z.pow_pos_nonneg; lia).
  destruct (Z.compare_spec 0 (4835703278458517 * 2 ^ (-82 - Z.min e (-82))));
    [lia|done|lia].
Qed.

Lemma rate_total n x y :
  of_int n = inr x -> exists rate, num_div (Int n) (fmax y epsilon) = inr rate.
Proof.
  intros Hx. unfold num_div. simpl. rewrite Hx.
  apply div_total. intros e. apply fmax_epsilon_nonzero.
Qed.

Lemma round_pos_not_nan n d : round_pos n d <> NaN.
Proof.
  unfold round_pos. cbv zeta.
  repeat match goal with |- context [if ?b then _ else _] => destruct b end; done.
Qed.

Lemma round_not_nan n d : round n d <> NaN.
Proof.
  unfold round. destruct (n ?= 0); [done| |apply round_pos_not_nan].
  pose proof (round_pos_not_nan (- n) d). by destruct (round_pos (- n) d).
Qed.

Lemma sub_canonical x y : canonical x -> canonical y -> canonical (sub x y).
Proof.
  destruct x as [m1 e1|s1|], y as [m2 e2|s2|]; simpl; try done.
  - intros _ _. apply round_canonical, shl_pos. lia.
  - by destruct (Bool.eqb s1 s2).
Qed.

Lemma sub_not_nan x y : finite x -> finite y -> sub x y <> NaN.
Proof.
  destruct x as [m1 e1|s1|], y as [m2 e2|s2|]; simpl; try done.
  intros _ _. apply round_not_nan.
Qed.

Lemma epsilon_canonical : canonical epsilon.
Proof.
  rewrite epsilon_value. right. unfold prec, emin, emax.
  change (Z.abs 4835703278458517) with 4835703278458517.
  split_and!; lia.
Qed.

Lemma fmax_epsilon_positive y :
  y <> NaN -> canonical y ->
  canonical (fmax y epsilon) /\ positive (fmax y epsilon).
Proof.
  intros Hy Hc. unfold fmax. destruct (ltb y epsilon) eqn:Hl.
  - split; [apply epsilon_canonical|]. by rewrite epsilon_value.
  - split; [done|]. revert Hl. rewrite epsilon_value.
    destruct y as [m e|[]|]; [|done..]. simpl. unfold cmp_dyadic.
    assert (0 < 2 ^ (-82 - Z.min e (-82))) by (apply Z.pow_pos_nonneg; lia).
    assert (0 < 2 ^ (e - Z.min e (-82))) by (apply Z.pow_pos_nonneg; lia).
    destruct (Z.compare_spec (m * 2 ^ (e - Z.min e (-82)))
                (4835703278458517 * 2 ^ (-82 - Z.min e (-82)))); [|done|]; intros _; nia.
Qed.

Lemma div_nonneg x y :
  canonical x -> nonneg x -> finite x -> positive y ->
  exists r, div x y = inr r /\ canonical r /\ nonneg r.
Proof.
  destruct x as [m1 e1| |]; [|done..]. intros Hc Hn _ Hy. simpl in Hn.
  destruct y as [m2 e2|s|]; [| |done].
  - simpl in Hy. destruct m2 as [|p|p]; [lia| |lia]. simpl div.
    eexists. split; [reflexivity|]. rewrite Z.mul_1_r. split.
    + apply round_canonical, shl_pos. lia.
    + apply round_nonneg; [|apply shl_pos; lia].
      rewrite shl_pw. pose proof (pw_pos (e1 - e2)). nia.
  - simpl in Hy. subst s. simpl. eexists. split; [reflexivity|].
    split; [by left|simpl; lia].
Qed.

Lemma of_int_finite' n x : of_int n = inr x -> finite x.
Proof. intros H. by destruct (of_int_finite n x H) as (m & e & ->). Qed.

Lemma rate_nonneg n x t1 start :
  0 <= n -> of_int n = inr x ->
  finite t1 -> canonical t1 -> finite start -> canonical start ->
  exists rate,
    num_div (Int n) (fmax (sub t1 start) epsilon) = inr rate /\
    div x (fmax (sub t1 start) epsilon) = inr rate /\
    canonical rate /\ nonneg rate.
Proof.
  intros Hn Hx F1 C1 F2 C2.
  destruct (fmax_epsilon_positive (sub t1 start)) as [Cm Pm];
    [by apply sub_not_nan | by apply sub_canonical |].
  destruct (div_nonneg x (fmax (sub t1 start) epsilon)) as (r & D & Cr & Nr);
    [by eapply of_int_canonical | by eapply of_int_nonneg
    | by eapply of_int_finite' | done |].
  exists r. unfold num_div. simpl to_float. rewrite Hx. done.
Qed.


(** ** Traces *)

Lemma count_app p t1 t2 : count p (t1 ++ t2) = (count p t1 + count p t2)%nat.
Proof. unfold count. by rewrite filter_app, length_app. Qed.

Lemma count_cons p e t :
  count p (e :: t) = ((if p e then 1 else 0) + count p t)%nat.
Proof.
  unfold count. destruct (p e) eqn:E.
  - by rewrite filter_cons_True.
  - rewrite filter_cons_False; [done | by rewrite E].
Qed.

Lemma count_nil p : count p [] = 0%nat.
Proof. done. Qed.

Lemma only_app p t1 t2 : only p (t1 ++ t2) = only p t1 ++ only p t2.
Proof. apply filter_app. Qed.

Lemma only_cons p e t :
  only p (e :: t) = if p e then e :: only p t else only p t.
Proof.
  unfold only. destruct (p e) eqn:E.
  - by rewrite filter_cons_True.
  - rewrite filter_cons_False; [done | by rewrite E].
Qed.

Lemma reports_cons e t : reports (e :: t) = reports_of e ++ reports t.
Proof. done. Qed.

Lemma callback_events_app rs1 rs2 :
  callback_events (rs1 ++ rs2) = callback_events rs1 ++ callback_events rs2.
Proof. unfold callback_events. by rewrite map_app, concat_app. Qed.

Lemma reports_app t1 t2 : reports (t1 ++ t2) = reports t1 ++ reports t2.
Proof. unfold reports. by rewrite map_app, concat_app. Qed.



Lemma count_callback_events p rs :
  (forall text, p (Stderr text) = false) ->
  count p (callback_events rs) = 0%nat.
Proof.
  intros Hp. induction rs as [|r rs IH]; [done|].
  unfold callback_events in *. simpl. rewrite count_app, IH.
  unfold callback_line. destruct (err r); [|done].
  by rewrite count_cons, Hp.
Qed.

Lemma only_stderr_callback_events rs :
  only is_stderr (callback_events rs) = callback_events rs.
Proof.
  induction rs as [|r rs IH]; [done|].
  unfold callback_events in *. simpl. rewrite only_app, IH.
  unfold callback_line. by destruct (err r).
Qed.

Lemma reports_callback_events rs : reports (callback_events rs) = [].
Proof.
  induction rs as [|r rs IH]; [done|].
  unfold callback_events in *. simpl. rewrite reports_app, IH.
  unfold callback_line. by destruct (err r).
Qed.

Lemma quiet_nil : quiet [].
Proof. done. Qed.

Lemma postfixes_app t1 t2 : postfixes (t1 ++ t2) = postfixes t1 ++ postfixes t2.
Proof.
  induction t1 as [|e t1 IH]; [done|]. destruct e; simpl; by rewrite ?IH.
Qed.

Lemma postfixes_callback_events rs : postfixes (callback_events rs) = [].
Proof.
  induction rs as [|r rs IH]; [done|].
  unfold callback_events in *. simpl. rewrite postfixes_app, IH.
  unfold callback_line. by destruct (err r).
Qed.

Lemma quiet_app t1 t2 : quiet t1 -> quiet t2 -> quiet (t1 ++ t2).
Proof.
  intros (F1 & U1 & O1 & P1) (F2 & U2 & O2 & P2). unfold quiet.
  rewrite !count_app, only_app, postfixes_app, F1, F2, U1, U2, O1, O2, P1, P2. done.
Qed.

Lemma quiet_callback_events rs : quiet (callback_events rs).
Proof.
  unfold quiet. rewrite !count_callback_events, postfixes_callback_events by done.
  split_and!; [done..| |done].
  induction rs as [|r rs IH]; [done|].
  unfold callback_events in *. simpl. rewrite only_app, IH.
  unfold callback_line. by destruct (err r).
Qed.

Lemma batch_sizes_from_app acc t rest :
  count is_update t = 0%nat ->
  batch_sizes_from acc (t ++ rest) =
  batch_sizes_from (acc + count is_enqueued t) rest.
Proof.
  revert acc. induction t as [|e t IH]; intros acc Hu; simpl.
  - f_equal. rewrite count_nil. lia.
  - rewrite count_cons in Hu. rewrite count_cons.
    destruct e; simpl in *; try discriminate;
      rewrite IH by lia; f_equal; try lia.
    destruct r; simpl; lia.
Qed.

Lemma batch_sizes_from_no_update acc t :
  count is_update t = 0%nat -> batch_sizes_from acc t = [].
Proof.
  revert acc. induction t as [|e t IH]; intros acc Hu; [done|].
  rewrite count_cons in Hu.
  destruct e; simpl in *; try discriminate; apply IH; lia.
Qed.

Lemma batch_sizes_from_tail acc t rest :
  count is_update rest = 0%nat ->
  batch_sizes_from acc (t ++ rest) = batch_sizes_from acc t.
Proof.
  intros Hr. revert acc. induction t as [|e t IH]; intros acc; simpl.
  - by apply batch_sizes_from_no_update.
  - destruct e; simpl; by rewrite IH.
Qed.

Lemma batch_sizes_from_snoc acc t e :
  is_update e = false ->
  batch_sizes_from acc (t ++ [e]) = batch_sizes_from acc t.
Proof.
  intros He. revert acc. induction t as [|e' t IH]; intros acc; simpl.
  - by destruct e.
  - destruct e'; simpl; by rewrite IH.
Qed.

Lemma log_log {C} (s : state C) t1 t2 : log (log s t1) t2 = log s (t1 ++ t2).
Proof. unfold log. simpl. by rewrite <- app_assoc. Qed.

Lemma log_nil {C} (s : state C) : log s [] = s.
Proof. destruct s. unfold log. simpl. by rewrite app_nil_r. Qed.

(** ** The monad *)

Lemma bind_Return {C A B} (m : M C A) (k : A -> M C B) s b s' :
  bind m k s = Return b s' ->
  exists a s1, m s = Return a s1 /\ k a s1 = Return b s'.
Proof.
  unfold bind. destruct (m s) as [a s1| |]; [|done..].
  intros Hk. by exists a, s1.
Qed.

Lemma lift_Return {C A} (x : exn + A) (s : state C) a s' :
  lift x s = Return a s' -> x = inr a /\ s' = s.
Proof. destruct x; simpl; unfold raise, ret; intros [=]; by subst. Qed.

Section Facts.

Context {C : Type} {client : Client C}.
Variable uuid4 : nat -> string.
Variable time : nat -> float.
Variable cfg : config.

(** *** The delivery callback and the calls that run it *)

Lemma on_delivery_cb_log (r : report) (s : state C) :
  on_delivery_cb r s = Return tt (log s (callback_line r)).
Proof.
  unfold on_delivery_cb, callback_line, str_offset.
  destruct (err r); [done|]. by rewrite log_nil.
Qed.

Lemma for_each_callbacks (rs : list report) (s : state C) :
  for_each rs on_delivery_cb s = Return tt (log s (callback_events rs)).
Proof.
  revert s. induction rs as [|r rs IH]; intros s.
  - simpl. unfold ret. by rewrite log_nil.
  - simpl. unfold bind. rewrite on_delivery_cb_log, IH, log_log. done.
Qed.

Lemma producer_poll_log (timeout : float) (s : state C) :
  producer_poll timeout s =
  Return tt (log (with_producer s (poll (producer s) timeout).2)
               (Poll timeout (poll (producer s) timeout).1
                :: callback_events (poll (producer s) timeout).1)).
Proof.
  unfold producer_poll. destruct (poll (producer s) timeout) as [rs c].
  rewrite for_each_callbacks. unfold log. simpl. by rewrite <- app_assoc.
Qed.

Lemma producer_flush_log (s : state C) :
  producer_flush s =
  Return tt (log (with_producer s (flush (producer s)).2)
               (Flush (flush (producer s)).1
                :: callback_events (flush (producer s)).1)).
Proof.
  unfold producer_flush. destruct (flush (producer s)) as [rs c].
  rewrite for_each_callbacks. unfold log. simpl. by rewrite <- app_assoc.
Qed.

(** *** [send] *)

Lemma send_refused (k fuel : nat) (payload topic : string) (s : state C) :
  refuses uuid4 k payload topic (producer s) (uuids s) ->
  (k < fuel)%nat ->
  send uuid4 fuel payload topic s =
  Return tt (Make (send_client uuid4 k payload topic (producer s) (uuids s))
               (uuids s + S k)%nat (ticks s)
               (trace s ++ send_trace uuid4 k payload topic (producer s) (uuids s))
               (running s) (bytes_sent s)).
Proof.
  revert fuel s. induction k as [|k IH]; intros fuel s Hk Hfuel;
    (destruct fuel as [|fuel]; [lia|]); simpl in Hk |- *;
    unfold bind, new_key, producer_produce; simpl;
    destruct (produce (producer s) topic (uuid4 (uuids s)) payload) as [r c];
    simpl in Hk |- *.
  - subst r. unfold ret. do 2 f_equal. lia.
  - destruct Hk as [-> Hk]. unfold backoff.
    rewrite producer_poll_log. simpl.
    rewrite (IH fuel) by (simpl; done || lia). simpl.
    f_equal. f_equal; [lia|]. by rewrite <- !app_assoc.
Qed.

Lemma send_Return (fuel : nat) (payload topic : string) (s s' : state C) :
  send uuid4 fuel payload topic s = Return tt s' ->
  exists k, (k < fuel)%nat /\ refuses uuid4 k payload topic (producer s) (uuids s).
Proof.
  revert s. induction fuel as [|fuel IH]; intros s; [done|].
  simpl. unfold bind, new_key, producer_produce. simpl.
  destruct (produce (producer s) topic (uuid4 (uuids s)) payload) as [r c] eqn:E.
  destruct r; simpl.
  - intros _. exists 0%nat. split; [lia|]. simpl. by rewrite E.
  - unfold backoff. rewrite producer_poll_log. simpl. intros Hs.
    apply IH in Hs as (k & Hk & Hr). simpl in Hr.
    exists (S k). split; [lia|]. simpl. by rewrite E.
  - done.
Qed.


Lemma count_enqueued_send_trace k payload topic (c : C) i :
  count is_enqueued (send_trace uuid4 k payload topic c i) = 1%nat.
Proof.
  revert c i. induction k as [|k IH]; intros c i; [done|].
  simpl. rewrite !count_cons, count_app, count_callback_events, IH by done.
  done.
Qed.

Lemma count_attempt_send_trace k payload topic (c : C) i :
  count is_attempt (send_trace uuid4 k payload topic c i) = S k.
Proof.
  revert c i. induction k as [|k IH]; intros c i; [done|].
  simpl. rewrite !count_cons, count_app, count_callback_events, IH by done.
  done.
Qed.

Lemma quiet_send_trace k payload topic (c : C) i :
  quiet (send_trace uuid4 k payload topic c i).
Proof.
  revert c i. induction k as [|k IH]; intros c i; [done|].
  simpl. apply (quiet_app [_; _]); [done|].
  apply quiet_app; [apply quiet_callback_events | apply IH].
Qed.

Lemma stderr_send_trace k payload topic (c : C) i :
  only is_stderr (send_trace uuid4 k payload topic c i) =
  callback_events (reports (send_trace uuid4 k payload topic c i)).
Proof.
  revert c i. induction k as [|k IH]; intros c i; [done|].
  simpl. rewrite !only_cons, !reports_cons. simpl.
  rewrite only_app, only_stderr_callback_events, IH.
  rewrite reports_app, reports_callback_events. simpl.
  by rewrite callback_events_app.
Qed.


(** A [send] that returns leaves one accepted message behind it and
    touches neither the flag nor the counter. *)
Lemma send_effect (fuel : nat) (payload topic : string) (s s' : state C) :
  send uuid4 fuel payload topic s = Return tt s' ->
  running s' = running s /\ ticks s' = ticks s /\ bytes_sent s' = bytes_sent s /\
  exists t, trace s' = trace s ++ t /\ count is_enqueued t = 1%nat /\ quiet t.
Proof.
  intros Hs. destruct (send_Return _ _ _ _ _ Hs) as (k & Hk & Hr).
  rewrite (send_refused k fuel) in Hs by done. injection Hs as <-. simpl.
  split_and!; [done..|]. eexists. split; [done|].
  split; [apply count_enqueued_send_trace | apply quiet_send_trace].
Qed.

(** *** The inner loop *)

Lemma sends_effect (fuel n : nat) (payload topic : string) (m : Z) (s s' : state C) :
  repeat_ n (send uuid4 fuel payload topic ;; add_bytes_sent m) s = Return tt s' ->
  running s' = running s /\ ticks s' = ticks s /\
  bytes_sent s' = bytes_sent s + m * Z.of_nat n /\
  exists t, trace s' = trace s ++ t /\ count is_enqueued t = n /\ quiet t.
Proof.
  revert s. induction n as [|n IH]; intros s; simpl.
  - intros [= <-]. split_and!; [done..|lia|]. exists []. by rewrite app_nil_r.
  - intros H. apply bind_Return in H as ([] & s1 & H1 & H).
    apply bind_Return in H1 as ([] & s0 & H0 & H1).
    apply send_effect in H0 as (R0 & T0 & B0 & t0 & E0 & N0 & Q0).
    injection H1 as <-. simpl in H.
    apply IH in H as (R & T & B & t & E & N & Q). simpl in *.
    split_and!; [congruence..|lia|].
    exists (t0 ++ t). rewrite E, E0, count_app, N0, N, <- app_assoc.
    split_and!; [done..|]. by apply quiet_app.
Qed.

(** *** One batch and the loop over the batches *)

Lemma batch_effect (fuel : nat) (start : float) (s s' : state C) :
  batch uuid4 time cfg fuel start s = Return tt s' ->
  running s' = running s /\ ticks s' = S (ticks s) /\
  bytes_sent s' =
    bytes_sent s + JOB_MSG_BYTES cfg * Z.of_nat (Z.to_nat (JOB_BATCH_SIZE cfg)) /\
  exists t rate sent tput,
    trace s' = trace s ++ t ++ [BarPostfix sent tput; BarUpdate 1] /\
    count is_enqueued t = Z.to_nat (JOB_BATCH_SIZE cfg) /\ quiet t /\
    num_div (Int (bytes_sent s')) (fmax (sub (time (ticks s)) start) epsilon)
      = inr rate /\
    _fmt_bytes (Int (bytes_sent s')) = inr sent /\
    _fmt_rate (Flt rate) = inr tput.
Proof.
  unfold batch. intros H.
  apply bind_Return in H as ([] & s1 & H1 & H).
  rewrite producer_poll_log in H1. injection H1 as <-.
  apply bind_Return in H as ([] & s2 & H2 & H).
  apply sends_effect in H2 as (R2 & T2 & B2 & t2 & E2 & N2 & Q2).
  apply bind_Return in H as ([] & s3 & H3 & H).
  rewrite producer_poll_log in H3. injection H3 as <-.
  apply bind_Return in H as (t1 & s4 & H4 & H). injection H4 as <- <-.
  apply bind_Return in H as (sent_now & s5 & H5 & H). injection H5 as <- <-.
  apply bind_Return in H as (rate & s6 & H6 & H).
  apply lift_Return in H6 as [H6 ->].
  apply bind_Return in H as (sent & s7 & H7 & H).
  apply lift_Return in H7 as [H7 ->].
  apply bind_Return in H as (tput & s8 & H8 & H).
  apply lift_Return in H8 as [H8 ->].
  apply bind_Return in H as ([] & s9 & H9 & H). injection H9 as <-.
  injection H as <-. simpl in *.
  split_and!; [done | by rewrite T2 | done |].
  exists (Poll (Fin 0 0) (poll (producer s) (Fin 0 0)).1
            :: callback_events (poll (producer s) (Fin 0 0)).1
            ++ t2
            ++ Poll (Fin 0 0) (poll (producer s2) (Fin 0 0)).1
            :: callback_events (poll (producer s2) (Fin 0 0)).1),
    rate, sent, tput.
  split_and!.
  - rewrite E2. simpl. by rewrite <- !app_assoc.
  - rewrite count_cons, !count_app, count_cons, !count_callback_events, N2 by done.
    simpl. lia.
  - apply (quiet_app [_]); [done|]. apply quiet_app; [apply quiet_callback_events|].
    apply quiet_app; [done|]. apply (quiet_app [_]); [done|].
    apply quiet_callback_events.
  - by rewrite T2 in H6.
  - done.
  - done.
Qed.

Lemma batch_loop_effect (fuel : nat) (start : float) (n : nat)
    (s s' : state C) (how : loop_exit) :
  batch_loop uuid4 time cfg fuel start n s = Return how s' ->
  running s' = running s /\
  exists t,
    trace s' = trace s ++ t /\
    count is_flush t = 0%nat /\ only is_stdout t = [] /\
    bytes_sent s' =
      bytes_sent s + JOB_MSG_BYTES cfg * Z.of_nat (count is_enqueued t) /\
    if running s
    then how = Exhausted /\ count is_update t = n /\
         count is_enqueued t = (n * Z.to_nat (JOB_BATCH_SIZE cfg))%nat /\
         batch_sizes t = replicate n (Z.to_nat (JOB_BATCH_SIZE cfg))
    else t = [] /\ how = match n with O => Exhausted | S _ => Break end.
Proof.
  revert s. induction n as [|n IH]; intros s; simpl.
  - intros [= <- <-]. split; [done|]. exists [].
    rewrite app_nil_r, !count_nil.
    split_and!; [done..|lia|]. by destruct (running s).
  - unfold bind at 1, get_running. destruct (running s) eqn:R; simpl.
    + intros H. apply bind_Return in H as ([] & s1 & H1 & H).
      apply batch_effect in H1
        as (R1 & T1 & B1 & t1 & rate & sent & tput & E1 & N1 & Q1 & _).
      apply IH in H as (R2 & t & E & F & O & B & L).
      rewrite R1, R in L. destruct L as (-> & U & N & S).
      split; [congruence|].
      exists ((t1 ++ [BarPostfix sent tput; BarUpdate 1]) ++ t).
      destruct Q1 as (F1 & U1 & O1 & _).
      rewrite E, E1, !count_app, !only_app, F1, U1, O1, F, O, U, N, N1.
      rewrite !count_cons, !count_nil, !only_cons, <- !app_assoc. simpl.
      split_and!; [done | done | done | lia | done | lia | lia |].
      unfold batch_sizes. rewrite batch_sizes_from_app by done.
      simpl. rewrite N1. f_equal. apply S.
    + intros [= <- <-]. split; [done|]. exists []. rewrite app_nil_r, !count_nil.
      split_and!; try done. lia.
Qed.

(** *** The end of the run *)

Lemma finish_effect (last_batch_rate : float) (s s' : state C) :
  finish last_batch_rate s = Return tt s' ->
  running s' = running s /\ bytes_sent s' = bytes_sent s /\
  exists scaled last,
    _fmt_bytes (Int (bytes_sent s)) = inr scaled /\
    _fmt_rate (Flt last_batch_rate) = inr last /\
    trace s' =
      trace s
      ++ Flush (flush (producer s)).1 :: callback_events (flush (producer s)).1
      ++ [ Stdout ("Total bytes sent: " +:+ str_int (bytes_sent s)
                   +:+ " (" +:+ scaled +:+ ")");
           Stdout ("Last-batch throughput: " +:+ last) ].
Proof.
  unfold finish. intros H.
  apply bind_Return in H as ([] & s1 & H1 & H).
  rewrite producer_flush_log in H1. injection H1 as <-.
  apply bind_Return in H as (total & s2 & H2 & H). injection H2 as <- <-.
  apply bind_Return in H as (scaled & s3 & H3 & H).
  apply lift_Return in H3 as [H3 ->].
  apply bind_Return in H as ([] & s4 & H4 & H). injection H4 as <-.
  apply bind_Return in H as (last & s5 & H5 & H).
  apply lift_Return in H5 as [H5 ->].
  injection H as <-. simpl in *.
  split_and!; [done..|]. exists scaled, last. split_and!; [done..|].
  by rewrite <- !app_assoc.
Qed.

Lemma with_tqdm_Return {A} (total : Z) (body : M C A) (s s' : state C) (a : A) :
  with_tqdm total body s = Return a s' ->
  exists s1, body (log s [BarOpen total]) = Return a s1 /\ s' = log s1 [BarClose].
Proof.
  unfold with_tqdm, bind, emit. fold (log s [BarOpen total]).
  destruct (body _) as [a1 s1| |]; [|done..].
  intros [= <- <-]. by exists s1.
Qed.

(** *** The whole run *)

Lemma run_effect (fuel : nat) (s s' : state C) (how : loop_exit) :
  run uuid4 time cfg fuel s = Return how s' ->
  exists total_messages batches t rs scaled last,
    plan cfg = inr (total_messages, batches) /\
    running s' = running s /\
    trace s' =
      trace s ++ t
      ++ Flush rs :: callback_events rs
      ++ [ Stdout ("Total bytes sent: " +:+ str_int (bytes_sent s')
                   +:+ " (" +:+ scaled +:+ ")");
           Stdout ("Last-batch throughput: " +:+ last) ] /\
    _fmt_bytes (Int (bytes_sent s')) = inr scaled /\
    count is_flush t = 0%nat /\ only is_stdout t = [] /\
    bytes_sent s' =
      bytes_sent s + JOB_MSG_BYTES cfg * Z.of_nat (count is_enqueued t) /\
    if running s
    then how = Exhausted /\ count is_update t = Z.to_nat batches /\
         count is_enqueued t
           = (Z.to_nat batches * Z.to_nat (JOB_BATCH_SIZE cfg))%nat /\
         batch_sizes t
           = replicate (Z.to_nat batches) (Z.to_nat (JOB_BATCH_SIZE cfg))
    else count is_enqueued t = 0%nat /\ count is_update t = 0%nat /\
         how = match Z.to_nat batches with O => Exhausted | S _ => Break end.
Proof.
  unfold run. intros H.
  apply bind_Return in H as ([total_messages batches] & s1 & H1 & H).
  apply lift_Return in H1 as [H1 ->].
  apply bind_Return in H as (start & s2 & H2 & H). injection H2 as <- <-.
  apply bind_Return in H as (how' & s3 & H3 & H).
  apply with_tqdm_Return in H3 as (s4 & H3 & ->).
  apply batch_loop_effect in H3 as (R3 & t & E3 & F3 & O3 & B3 & L3).
  apply bind_Return in H as ([] & s5 & H5 & H). injection H as <- <-.
  apply finish_effect in H5 as (R5 & B5 & scaled & last & S5 & _ & E5).
  simpl in *.
  exists total_messages, batches, (BarOpen batches :: t ++ [BarClose]),
    (flush (producer s4)).1, scaled, last.
  rewrite E5, E3, B5, !count_cons, !count_app, !count_cons, !count_nil,
    only_cons, only_app, F3, O3.
  simpl. rewrite <- !app_assoc. simpl.
  split_and!; [done | congruence | done | done | done | done | lia |].
  destruct (running s).
  - destruct L3 as (-> & U & N & S). split_and!; [done | lia | lia |].
    unfold batch_sizes in *. simpl. by rewrite batch_sizes_from_snoc.
  - destruct L3 as (-> & ->). by rewrite !count_nil.
Qed.

End Facts.

(** ** The client through a run *)

Section Replay.

Context {C : Type} {client : Client C}.
Variable uuid4 : nat -> string.
Variable time : nat -> float.
Variable cfg : config.

Lemma replay_app (c : C) t1 t2 : replay c (t1 ++ t2) = replay (replay c t1) t2.
Proof.
  revert c. induction t1 as [|e t1 IH]; intros c; [done|].
  destruct e; simpl; apply IH.
Qed.

Lemma replay_callback_events (c : C) rs : replay c (callback_events rs) = c.
Proof.
  induction rs as [|r rs IH]; [done|].
  unfold callback_events in *. simpl. rewrite replay_app.
  unfold callback_line. destruct (err r); simpl; exact IH.
Qed.

Lemma replay_poll (c : C) timeout :
  replay c (Poll timeout (poll c timeout).1 :: callback_events (poll c timeout).1)
  = (poll c timeout).2.
Proof. simpl. apply replay_callback_events. Qed.

Lemma replay_send_trace k payload topic (c : C) i :
  replay c (send_trace uuid4 k payload topic c i)
  = send_client uuid4 k payload topic c i.
Proof.
  revert c i. induction k as [|k IH]; intros c i; [done|].
  simpl. rewrite replay_app, replay_callback_events. apply IH.
Qed.

Lemma send_replay (fuel : nat) (payload topic : string) (s s' : state C) :
  send uuid4 fuel payload topic s = Return tt s' ->
  exists t, trace s' = trace s ++ t /\ producer s' = replay (producer s) t.
Proof.
  intros Hs. destruct (send_Return _ _ _ _ _ _ Hs) as (k & Hk & Hr).
  rewrite (send_refused _ k fuel) in Hs by done. injection Hs as <-. simpl.
  eexists. split; [done|]. by rewrite replay_send_trace.
Qed.

Lemma sends_replay (fuel n : nat) (payload topic : string) (m : Z) (s s' : state C) :
  repeat_ n (send uuid4 fuel payload topic ;; add_bytes_sent m) s = Return tt s' ->
  exists t, trace s' = trace s ++ t /\ producer s' = replay (producer s) t.
Proof.
  revert s. induction n as [|n IH]; intros s; simpl.
  - intros [= <-]. exists []. by rewrite app_nil_r.
  - intros H. apply bind_Return in H as ([] & s1 & H1 & H).
    apply bind_Return in H1 as ([] & s0 & H0 & H1).
    apply send_replay in H0 as (t0 & E0 & P0).
    injection H1 as <-. simpl in H.
    apply IH in H as (t & E & P). simpl in *.
    exists (t0 ++ t). rewrite E, E0, <- app_assoc. split; [done|].
    by rewrite replay_app, <- P0.
Qed.

Lemma batch_replay (fuel : nat) (start : float) (s s' : state C) :
  batch uuid4 time cfg fuel start s = Return tt s' ->
  exists t, trace s' = trace s ++ t /\ producer s' = replay (producer s) t.
Proof.
  unfold batch. intros H.
  apply bind_Return in H as ([] & s1 & H1 & H).
  rewrite producer_poll_log in H1. injection H1 as <-.
  apply bind_Return in H as ([] & s2 & H2 & H).
  apply sends_replay in H2 as (t2 & E2 & P2).
  apply bind_Return in H as ([] & s3 & H3 & H).
  rewrite producer_poll_log in H3. injection H3 as <-.
  apply bind_Return in H as (t1 & s4 & H4 & H). injection H4 as <- <-.
  apply bind_Return in H as (sent_now & s5 & H5 & H). injection H5 as <- <-.
  apply bind_Return in H as (rate & s6 & H6 & H).
  apply lift_Return in H6 as [H6 ->].
  apply bind_Return in H as (sent & s7 & H7 & H).
  apply lift_Return in H7 as [H7 ->].
  apply bind_Return in H as (tput & s8 & H8 & H).
  apply lift_Return in H8 as [H8 ->].
  apply bind_Return in H as ([] & s9 & H9 & H). injection H9 as <-.
  injection H as <-. simpl in *.
  exists ((Poll (Fin 0 0) (poll (producer s) (Fin 0 0)).1
             :: callback_events (poll (producer s) (Fin 0 0)).1)
            ++ t2
            ++ (Poll (Fin 0 0) (poll (producer s2) (Fin 0 0)).1
                  :: callback_events (poll (producer s2) (Fin 0 0)).1)
            ++ [BarPostfix sent tput; BarUpdate 1]).
  split.
  - rewrite E2. simpl. by rewrite <- !app_assoc.
  - rewrite replay_app, replay_poll, replay_app, <- P2, replay_app, replay_poll.
    done.
Qed.

Lemma batch_loop_replay (fuel : nat) (start : float) (n : nat)
    (s s' : state C) (how : loop_exit) :
  batch_loop uuid4 time cfg fuel start n s = Return how s' ->
  exists t, trace s' = trace s ++ t /\ producer s' = replay (producer s) t.
Proof.
  revert s. induction n as [|n IH]; intros s; simpl.
  - intros [= <- <-]. exists []. by rewrite app_nil_r.
  - unfold bind at 1, get_running. destruct (running s); simpl.
    + intros H. apply bind_Return in H as ([] & s1 & H1 & H).
      apply batch_replay in H1 as (t1 & E1 & P1).
      apply IH in H as (t & E & P).
      exists (t1 ++ t). rewrite E, E1, <- app_assoc. split; [done|].
      by rewrite replay_app, <- P1.
    + intros [= <- <-]. exists []. by rewrite app_nil_r.
Qed.

(** The flush of a run that ends is the client's, on the client as the
    calls of the loop left it, and the client is left as its flush left
    it. *)
Lemma run_flush (fuel : nat) (s s' : state C) (how : loop_exit) :
  run uuid4 time cfg fuel s = Return how s' ->
  exists t scaled last,
    trace s' =
      trace s ++ t
      ++ Flush (flush (replay (producer s) t)).1
      :: callback_events (flush (replay (producer s) t)).1
      ++ [ Stdout ("Total bytes sent: " +:+ str_int (bytes_sent s')
                   +:+ " (" +:+ scaled +:+ ")");
           Stdout ("Last-batch throughput: " +:+ last) ] /\
    producer s' = (flush (replay (producer s) t)).2 /\
    _fmt_bytes (Int (bytes_sent s')) = inr scaled /\
    count is_flush t = 0%nat /\ only is_stdout t = [] /\
    bytes_sent s' =
      bytes_sent s + JOB_MSG_BYTES cfg * Z.of_nat (count is_enqueued t) /\
    (how = Break -> running s = false /\ count is_enqueued t = 0%nat).
Proof.
  unfold run. intros H.
  apply bind_Return in H as ([total_messages batches] & s1 & H1 & H).
  apply lift_Return in H1 as [H1 ->].
  apply bind_Return in H as (start & s2 & H2 & H). injection H2 as <- <-.
  apply bind_Return in H as (how' & s3 & H3 & H).
  apply with_tqdm_Return in H3 as (s4 & H3 & ->).
  pose proof (batch_loop_effect _ _ _ _ _ _ _ _ _ H3) as (R3 & t' & E3' & F3 & O3 & B3 & L3).
  apply batch_loop_replay in H3 as (t & E3 & P3).
  assert (t' = t) as -> by (rewrite E3 in E3'; by apply app_inv_head in E3').
  apply bind_Return in H as ([] & s5 & H5 & H). injection H as <- <-.
  unfold finish in H5.
  apply bind_Return in H5 as ([] & s6 & H6 & H5).
  rewrite producer_flush_log in H6. injection H6 as <-.
  apply bind_Return in H5 as (total & s7 & H7 & H5). injection H7 as <- <-.
  apply bind_Return in H5 as (scaled & s8 & H8 & H5).
  apply lift_Return in H8 as [H8 ->].
  apply bind_Return in H5 as ([] & s9 & H9 & H5). injection H9 as <-.
  apply bind_Return in H5 as (last & s10 & H10 & H5).
  apply lift_Return in H10 as [H10 ->].
  injection H5 as <-. simpl in *.
  exists ([BarOpen batches] ++ t ++ [BarClose]), scaled, last.
  assert (R : replay (producer s) ([BarOpen batches] ++ t ++ [BarClose]) = producer s4).
  { simpl. by rewrite replay_app, <- P3. }
  rewrite R, !count_app, !only_app, F3, O3, !count_cons, !count_nil, !only_cons.
  simpl. split_and!; [|done|done|done|done|lia|].
  - rewrite E3. simpl. by rewrite <- !app_assoc.
  - intros ->. destruct (running s); [by destruct L3|].
    destruct L3 as [-> _]. by rewrite count_nil.
Qed.

End Replay.

(** ** The configuration given to the client *)

Lemma str_repeat_mask (password : string) :
  str_repeat "******" (Z.b2z (0 <? len password)) =
  if decide (password = "") then "" else "******".
Proof.
  unfold len. destruct password as [|a password]; [done|].
  rewrite decide_False by done. simpl String.length.
  replace (0 <? Z.of_nat (S (String.length password))) with true
    by (symmetry; apply Z.ltb_lt; lia).
  done.
Qed.

Lemma producer_settings_password (cfg : config) (settings : gmap string value) :
  producer_settings cfg = inr settings ->
  settings !! "sasl.password" =
  Some (VStr (if decide (KAFKA_SASL_PASSWORD cfg = "") then "" else "******")).
Proof.
  unfold producer_settings.
  destruct (int_truediv _ _) as [e|kbytes]; [done|]. intros [= <-].
  rewrite str_repeat_mask. done.
Qed.

Lemma producer_settings_with_password (cfg : config) (password : string) :
  (password = "" <-> KAFKA_SASL_PASSWORD cfg = "") ->
  producer_settings (with_password cfg password) = producer_settings cfg.
Proof.
  intros Hp. unfold producer_settings. simpl.
  destruct (int_truediv _ _) as [e|kbytes]; [done|].
  rewrite !str_repeat_mask.
  destruct (decide (password = "")) as [E|E], (decide (KAFKA_SASL_PASSWORD cfg = ""))
    as [E'|E']; tauto || done.
Qed.

(** C9: the dictionary from which [main] constructs the client holds, under
    "sasl.password", the literal "******" when the configured password is
    not empty and the empty string when it is empty.  Hence the entry is the
    password itself only if the password is empty or is that literal, and
    the dictionary is the same for every other password that is empty
    exactly when the configured one is: the password reaches the client only
    through its being empty or not.  The constructor is given this
    dictionary; the run goes on with the client it returns, and ends with
    its exception when it raises one. *)
Theorem client_settings_mask_password (cfg : config) (settings : gmap string value) :
  producer_settings cfg = inr settings ->
  settings !! "sasl.password" =
    Some (VStr (if decide (KAFKA_SASL_PASSWORD cfg = "") then "" else "******")) /\
  (settings !! "sasl.password" = Some (VStr (KAFKA_SASL_PASSWORD cfg)) ->
   KAFKA_SASL_PASSWORD cfg = "" \/ KAFKA_SASL_PASSWORD cfg = "******") /\
  (forall password : string,
     (password = "" <-> KAFKA_SASL_PASSWORD cfg = "") ->
     producer_settings (with_password cfg password) = inr settings) /\
  (forall (C : Type) (client : Client C) uuid4 time fuel,
     main uuid4 time cfg fuel =
     match Producer settings with
     | inl detail => Raise (KafkaException detail) (banner cfg)
     | inr c => run uuid4 time cfg fuel (State.Make c 0 0 (banner cfg) true 0)
     end).
Proof.
  intros Hs. pose proof (producer_settings_password _ _ Hs) as Hp.
  split_and!.
  - done.
  - rewrite Hp. intros [= E]. destruct (decide _); [by left | by right].
  - intros password Hpw. by rewrite producer_settings_with_password.
  - intros. unfold main, initial. by rewrite Hs.
Qed.

(** ** The delivery callback *)

(** C6, as amended: a delivery callback that reports an error writes one
    line to [sys.stderr], with the offset of the message and the error, and
    does nothing else: it calls the client for nothing (the message is not
    sent again), returns normally (the run goes on) and leaves the client,
    the flag and the byte counter as they are.  [sys.stderr] is not the
    stream of the banner and of the totals, which are printed on
    [sys.stdout]; it is the stream on which the progress bar is drawn.  A
    callback that reports a success changes nothing at all. *)
Theorem delivery_callback_writes_to_stderr
    {C : Type} {client : Client C} (r : report) (s : state C) :
  on_delivery_cb r s =
    Return tt
      match err r with
      | Some e =>
          log s [Stderr ("Delivery failed for offset=" +:+
                         match offset r with Some n => str_int n | None => "None" end
                         +:+ " error=" +:+ e +:+ nl)]
      | None => s
      end /\
  calls (callback_line r) = [] /\
  Forall (fun e => stream_of e = Some sys_stderr) (callback_line r) /\
  (forall line : string, stream_of (Stdout line) = Some sys_stdout) /\
  (forall b : event, is_bar b = true -> stream_of b = Some sys_stderr) /\
  forall s', on_delivery_cb r s = Return tt s' ->
    producer s' = producer s /\ bytes_sent s' = bytes_sent s /\
    running s' = running s /\ trace s' = trace s ++ callback_line r.
Proof.
  split_and!.
  - rewrite on_delivery_cb_log. unfold callback_line.
    destruct (err r); [done|]. by rewrite log_nil.
  - unfold callback_line. by destruct (err r).
  - unfold callback_line. destruct (err r); repeat constructor.
  - done.
  - by intros [].
  - intros s'. rewrite on_delivery_cb_log. by intros [= <-].
Qed.

(** ** The retry on back-pressure *)


(** ** The run as a whole *)

Section Run.

Context {C : Type} {client : Client C}.
Variable uuid4 : nat -> string.
Variable time : nat -> float.
Variable cfg : config.

(** What [main] adds to what [run] does: the settings and the banner. *)
Lemma main_Return (fuel : nat) (how : loop_exit) (s' : state C) :
  main uuid4 time cfg fuel = Return how s' ->
  exists settings,
    producer_settings cfg = inr settings /\
    exists c,
      Producer settings = inr c /\
      run uuid4 time cfg fuel (initial cfg c) = Return how s'.
Proof.
  unfold main. destruct (producer_settings cfg) as [e|settings]; [done|].
  destruct (Producer settings) as [detail|c] eqn:E; [done|].
  intros H. exists settings. split; [done|]. by exists c.
Qed.

Lemma count_banner p : (forall line, p (Stdout line) = false) -> count p (banner cfg) = 0%nat.
Proof. intros Hp. unfold banner. by rewrite !count_cons, !Hp. Qed.

(** A run that ends has accepted as many messages as there are batches
    times the batch size, and counted each of them once. *)
Lemma main_bytes_sent (fuel : nat) (how : loop_exit) (s' : state C) :
  main uuid4 time cfg fuel = Return how s' ->
  exists total_messages batches,
    plan cfg = inr (total_messages, batches) /\
    count is_enqueued (trace s')
      = (Z.to_nat batches * Z.to_nat (JOB_BATCH_SIZE cfg))%nat /\
    bytes_sent s' =
      JOB_MSG_BYTES cfg
      * Z.of_nat (Z.to_nat batches * Z.to_nat (JOB_BATCH_SIZE cfg)) /\
    batch_sizes (trace s')
      = replicate (Z.to_nat batches) (Z.to_nat (JOB_BATCH_SIZE cfg)).
Proof.
  intros H. apply main_Return in H as (settings & _ & c0 & _ & H).
  apply run_effect in H
    as (total & batches & t & rs & scaled & last & P & R & E & _ & F & O & B & L).
  simpl in L. destruct L as (_ & U & N & S).
  exists total, batches. split; [done|].
  rewrite E. simpl trace.
  rewrite !count_app, count_banner, count_cons, count_app,
    count_callback_events, N by done.
  split_and!.
  - simpl. rewrite !count_cons, count_nil. simpl. lia.
  - rewrite B, N. simpl. lia.
  - unfold batch_sizes in *.
    rewrite batch_sizes_from_app by (by apply count_banner).
    rewrite count_banner by done. simpl.
    rewrite batch_sizes_from_tail; [done|].
    rewrite count_cons, count_app, count_callback_events by done.
    by rewrite !count_cons, count_nil.
Qed.

End Run.

(** C5: whichever way the batch loop ends, with the batches exhausted or by
    the [break] taken when the flag is false, a run that reaches its end
    flushes the client exactly once, after the loop and before anything is
    printed.  The flush is the client's own: it is called on the client as
    the calls of the loop left it, the callbacks run for the reports that
    it returns, and the run ends with the client as the flush left it.
    Only then is the total printed, which is the value of the counter: the
    initial value plus the message size for each message the client
    accepted, so nothing for a loop that was left at once. *)
Theorem flush_once_before_total
    {C : Type} {client : Client C} (uuid4 : nat -> string) (time : nat -> float)
    (cfg : config) (fuel : nat) (s s' : state C) (how : loop_exit) :
  run uuid4 time cfg fuel s = Return how s' ->
  exists t scaled last,
    trace s' =
      trace s ++ t
      ++ Flush (flush (replay (producer s) t)).1
      :: callback_events (flush (replay (producer s) t)).1
      ++ [ Stdout ("Total bytes sent: " +:+ str_int (bytes_sent s')
                   +:+ " (" +:+ scaled +:+ ")");
           Stdout ("Last-batch throughput: " +:+ last) ] /\
    producer s' = (flush (replay (producer s) t)).2 /\
    _fmt_bytes (Int (bytes_sent s')) = inr scaled /\
    count is_flush t = 0%nat /\
    only is_stdout t = [] /\
    count is_flush
      (t ++ Flush (flush (replay (producer s) t)).1
       :: callback_events (flush (replay (producer s) t)).1
       ++ [ Stdout ("Total bytes sent: " +:+ str_int (bytes_sent s')
                    +:+ " (" +:+ scaled +:+ ")");
            Stdout ("Last-batch throughput: " +:+ last) ]) = 1%nat /\
    bytes_sent s' =
      bytes_sent s + JOB_MSG_BYTES cfg * Z.of_nat (count is_enqueued t) /\
    (how = Break -> running s = false /\ count is_enqueued t = 0%nat).
Proof.
  intros H. apply run_flush in H as (t & scaled & last & E & P & S & F & O & B & L).
  exists t, scaled, last. split_and!; try done.
  rewrite count_app, count_cons, count_app, count_callback_events, F by done.
  by rewrite !count_cons, count_nil.
Qed.

(** C7: the byte counter starts at zero and never goes down when the
    message size is not negative.  The delivery callback, [poll], [flush]
    and a whole [send] with its retries leave it as it is; the one
    assignment to it adds the message size, and the inner loop makes it
    right after each [send] that returned, that is once per message handed
    to the client; so after a batch, after the loop and at the end of the
    run it is the starting value plus the message size for each accepted
    message. *)
Theorem bytes_sent_monotone
    {C : Type} {client : Client C} (uuid4 : nat -> string) (time : nat -> float)
    (cfg : config) :
  0 <= JOB_MSG_BYTES cfg ->
  (forall c : C, bytes_sent (initial cfg c) = 0) /\
  (forall r (s s' : state C),
     on_delivery_cb r s = Return tt s' -> bytes_sent s' = bytes_sent s) /\
  (forall timeout (s s' : state C),
     producer_poll timeout s = Return tt s' -> bytes_sent s' = bytes_sent s) /\
  (forall (s s' : state C),
     producer_flush s = Return tt s' -> bytes_sent s' = bytes_sent s) /\
  (forall fuel payload topic (s s' : state C),
     send uuid4 fuel payload topic s = Return tt s' ->
     bytes_sent s' = bytes_sent s) /\
  (forall fuel payload topic (s s' : state C),
     (send uuid4 fuel payload topic ;; add_bytes_sent (JOB_MSG_BYTES cfg)) s
       = Return tt s' ->
     bytes_sent s' = bytes_sent s + JOB_MSG_BYTES cfg /\
     exists t, trace s' = trace s ++ t /\ count is_enqueued t = 1%nat) /\
  (forall fuel start (s s' : state C),
     batch uuid4 time cfg fuel start s = Return tt s' ->
     bytes_sent s <= bytes_sent s') /\
  (forall fuel start n how (s s' : state C),
     batch_loop uuid4 time cfg fuel start n s = Return how s' ->
     bytes_sent s <= bytes_sent s') /\
  (forall fuel how (s s' : state C),
     run uuid4 time cfg fuel s = Return how s' ->
     bytes_sent s <= bytes_sent s' /\
     exists t, prefix (trace s ++ t) (trace s') /\
       bytes_sent s' =
         bytes_sent s + JOB_MSG_BYTES cfg * Z.of_nat (count is_enqueued t) /\
       count is_enqueued t = count is_enqueued (drop (length (trace s)) (trace s'))).
Proof.
  intros HM. split_and!.
  - done.
  - intros r s s'. rewrite on_delivery_cb_log. by intros [= <-].
  - intros timeout s s'. rewrite producer_poll_log. by intros [= <-].
  - intros s s'. rewrite producer_flush_log. by intros [= <-].
  - intros fuel payload topic s s' H. by apply send_effect in H as (_ & _ & B & _).
  - intros fuel payload topic s s' H.
    apply bind_Return in H as ([] & s1 & H1 & H). injection H as <-.
    apply send_effect in H1 as (_ & _ & B & t & E & N & _). simpl.
    split; [lia|]. by exists t.
  - intros fuel start s s' H. apply batch_effect in H as (_ & _ & B & _). lia.
  - intros fuel start n how s s' H.
    apply batch_loop_effect in H as (_ & t & _ & _ & _ & B & _). lia.
  - intros fuel how s s' H. apply run_effect in H
      as (total & batches & t & rs & scaled & last & P & R & E & _ & F & O & B & L).
    split; [lia|]. exists t. split_and!.
    + rewrite E, app_assoc. by apply prefix_app_r.
    + done.
    + rewrite E, drop_app_length, count_app, count_cons, count_app,
        count_callback_events by done.
      rewrite !count_cons, count_nil. simpl. lia.
Qed.

(** C10: [main] sets the flag to true once and nothing assigns it again:
    [run], from any state, ends with the flag it started with.  So a [main]
    that returns has not taken the [break]: its loop ran out of [range] after
    exactly [batches] iterations, one update of the bar each, with the flag
    still true. *)
Theorem stop_flag_never_cleared
    {C : Type} {client : Client C} (uuid4 : nat -> string) (time : nat -> float)
    (cfg : config) (fuel : nat) (how : loop_exit) (s' : state C) :
  main uuid4 time cfg fuel = Return how s' ->
  how = Exhausted /\
  running s' = true /\
  (exists total_messages batches,
     plan cfg = inr (total_messages, batches) /\
     count is_update (trace s') = Z.to_nat batches) /\
  (forall fuel0 how0 (s0 s1 : state C),
     run uuid4 time cfg fuel0 s0 = Return how0 s1 -> running s1 = running s0).
Proof.
  intros H. apply main_Return in H as (settings & _ & c0 & _ & H).
  apply run_effect in H
    as (total & batches & t & rs & scaled & last & P & R & E & _ & F & O & B & L).
  simpl in L. destruct L as (-> & U & N & S). split_and!; [done..| |].
  - exists total, batches. split; [done|]. rewrite E. simpl trace.
    rewrite !count_app, count_banner, count_cons, count_app,
      count_callback_events, U by done.
    rewrite !count_cons, count_nil. simpl. lia.
  - intros fuel0 how0 s0 s1 H0. apply run_effect in H0
      as (? & ? & ? & ? & ? & ? & _ & R0 & _). done.
Qed.

(** ** The plan and what the loops make of it *)

(** C3: for the example of the specification, 1000 bytes in messages of 300
    by batches of 3, the plan is 4 messages in 2 batches.  But the quotient
    is a float: for 2^53 + 1 bytes in messages of one byte it is rounded to
    2^53, and the plan is one message short of the ceiling. *)
Theorem plan_rounds_large_targets :
  plan (Sim.cfg 1000 300 3) = inr (4, 2) /\
  plan (Sim.cfg (2 ^ 53 + 1) 1 1) = inr (2 ^ 53, 2 ^ 53) /\
  ceiling (2 ^ 53 + 1) 1 = 2 ^ 53 + 1 /\
  int_truediv (2 ^ 53 + 1) 1 = inr (Fin (2 ^ 52) 1).
Proof. by vm_compute. Qed.

(** C1: 1000 bytes in messages of 300 by batches of 3 are 4 messages, that
    is 1200 bytes; the run ends with a counter of 1800, since both batches
    send three messages. *)
Theorem full_run_counts_whole_batches :
  exists s,
    main (client := Sim.client 2 []) Sim.uuid4 Sim.time (Sim.cfg 1000 300 3) 4
      = Return Exhausted s /\
    plan (Sim.cfg 1000 300 3) = inr (4, 2) /\
    bytes_sent s = 1800 /\
    4 * 300 = 1200.
Proof. eexists. split; [by vm_compute|]. by vm_compute. Qed.

(** C2: in that run the second and last batch sends three messages, though
    one message is left of the four planned after the first batch, and six
    messages are sent in all. *)
Theorem last_batch_is_a_whole_batch :
  exists s,
    main (client := Sim.client 2 []) Sim.uuid4 Sim.time (Sim.cfg 1000 300 3) 4
      = Return Exhausted s /\
    plan (Sim.cfg 1000 300 3) = inr (4, 2) /\
    batch_sizes (trace s) = [3; 3]%nat /\
    4 - (2 - 1) * 3 = 1 /\
    count is_enqueued (trace s) = 6%nat.
Proof. eexists. split; [by vm_compute|]. by vm_compute. Qed.

(** ** Instances *)


Lemma flush_once_before_total_witness :
  match run (client := Sim.client 2 []) Sim.uuid4 Sim.time (Sim.cfg 10 3 3) 4
          (initial (Sim.cfg 10 3 3) (Sim.Make 2 [] [] 0)) with
  | Return how s' =>
      how = Exhausted /\
      count is_enqueued (trace s') = 6%nat /\
      length (reports (only is_flush (trace s'))) = 2%nat /\
      Sim.queue (producer s') = [] /\
      exists t scaled last,
        trace s' =
          banner (Sim.cfg 10 3 3) ++ t
          ++ Flush (Sim.sim_flush (@replay _ (Sim.client 2 []) (Sim.Make 2 [] [] 0) t)).1
          :: callback_events
               (Sim.sim_flush (@replay _ (Sim.client 2 []) (Sim.Make 2 [] [] 0) t)).1
          ++ [ Stdout ("Total bytes sent: " +:+ str_int (bytes_sent s')
                       +:+ " (" +:+ scaled +:+ ")");
               Stdout ("Last-batch throughput: " +:+ last) ] /\
        producer s' =
          (Sim.sim_flush (@replay _ (Sim.client 2 []) (Sim.Make 2 [] [] 0) t)).2 /\
        count is_flush t = 0%nat
  | _ => False
  end.
Proof.
  destruct (run _ _ _ _ _) as [how s'| |] eqn:E.
  - destruct (flush_once_before_total (client := Sim.client 2 [])
                Sim.uuid4 Sim.time (Sim.cfg 10 3 3) 4 _ s' how E)
      as (t & scaled & last & Et & P & _ & F & _).
    split_and!.
    5: { exists t, scaled, last. split_and!.
         - exact Et.
         - exact P.
         - exact F. }
    all: clear Et P F.
    all: vm_compute in E.
    all: injection E as <- <-.
    all: vm_compute.
    all: reflexivity.
  - vm_compute in E. discriminate.
  - vm_compute in E. discriminate.
Defined.

Lemma bytes_sent_monotone_witness :
  0 <= JOB_MSG_BYTES (Sim.cfg 10 3 3) /\
  forall fuel how (s s' : state Sim.sim),
    run (client := Sim.client 2 []) Sim.uuid4 Sim.time (Sim.cfg 10 3 3) fuel s
      = Return how s' ->
    bytes_sent s <= bytes_sent s'.
Proof.
  assert (H : 0 <= JOB_MSG_BYTES (Sim.cfg 10 3 3)) by (simpl; lia).
  split; [exact H|]. intros fuel how s s' Hr.
  pose proof (bytes_sent_monotone (client := Sim.client 2 [])
                Sim.uuid4 Sim.time (Sim.cfg 10 3 3) H) as T.
  destruct T as (_ & _ & _ & _ & _ & _ & _ & _ & T).
  by destruct (T fuel how s s' Hr).
Defined.

Lemma client_settings_mask_password_witness :
  match producer_settings (Sim.cfg 10 3 3) with
  | inr settings => settings !! "sasl.password" = Some (VStr "******")
  | inl _ => False
  end.
Proof.
  destruct (producer_settings (Sim.cfg 10 3 3)) as [e|settings] eqn:E.
  - unfold producer_settings in E.
    destruct (int_truediv _ _) as [e'|kbytes] eqn:D; [|discriminate E].
    vm_compute in D. discriminate D.
  - destruct (client_settings_mask_password (Sim.cfg 10 3 3) settings E) as [H _].
    exact H.
Defined.

Lemma stop_flag_never_cleared_witness :
  match main (client := Sim.client 2 [3%nat]) Sim.uuid4 Sim.time (Sim.cfg 10 3 3) 4 with
  | Return how s' =>
      how = Exhausted /\ running s' = true /\ count is_update (trace s') = 2%nat
  | _ => False
  end.
Proof.
  destruct (main _ _ _ _) as [how s'| |] eqn:E.
  - destruct (stop_flag_never_cleared (client := Sim.client 2 [3%nat])
                Sim.uuid4 Sim.time (Sim.cfg 10 3 3) 4 how s' E)
      as (H1 & H2 & (total & batches & P & U) & _).
    split_and!; [done..|]. rewrite U.
    vm_compute in P. by injection P as _ <-.
  - vm_compute in E. discriminate.
  - vm_compute in E. discriminate.
Defined.

(** An error line of the callback and the events of the progress bar in
    one run, with the report of message 3 in error: they show on the same
    stream, so the error channel is not distinct from the progress
    output. *)
Lemma delivery_error_on_the_stream_of_the_bar :
  match main (client := Sim.client 2 [3%nat]) Sim.uuid4 Sim.time (Sim.cfg 10 3 3) 4 with
  | Return _ s' =>
      only is_stderr (trace s') <> [] /\
      only is_bar (trace s') <> [] /\
      Forall (fun e => stream_of e = Some sys_stderr)
        (only is_stderr (trace s') ++ only is_bar (trace s'))
  | _ => False
  end.
Proof. vm_compute. split_and!; [done|done|repeat constructor]. Qed.

Lemma delivery_callback_writes_to_stderr_witness :
  exists s' : state nat,
    on_delivery_cb (Report (Some "timed out") (Some 3)) (State.Make 0%nat 0 0 [] true 7)
      = Return tt s' /\
    producer s' = 0%nat /\ bytes_sent s' = 7 /\ running s' = true /\
    trace s' = [Stderr ("Delivery failed for offset=3 error=timed out" +:+ nl)].
Proof.
  destruct (delivery_callback_writes_to_stderr (client := Faulty.client 0)
              (Report (Some "timed out") (Some 3)) (State.Make 0%nat 0 0 [] true 7))
    as (H1 & _ & _ & _ & _ & H).
  eexists. split; [exact H1|]. exact (H _ H1).
Defined.

(** * Further properties *)

(** ** The formatters *)

Lemma of_int_small_check :
  forallb (fun k => match of_int (Z.of_nat k) with
                    | inr x => ltb x f1024
                    | inl _ => false
                    end) (seq 0 1024) = true.
Proof. by vm_compute. Qed.

Lemma of_int_small n x :
  0 <= n < 1024 -> of_int n = inr x -> ltb x f1024 = true.
Proof.
  intros Hn Hx. pose proof of_int_small_check as H.
  rewrite forallb_forall in H. specialize (H (Z.to_nat n)).
  rewrite Z2Nat.id, Hx in H by lia. apply H. apply in_seq. lia.
Qed.

Lemma num_ltb_int_true n :
  num_ltb (Int n) f1024 = true -> n < 1024.
Proof.
  unfold num_ltb, ltb, f1024, cmp_dyadic. rewrite Z.min_r by lia.
  replace (-42 - -42) with 0 by lia. replace (0 - -42) with 42 by lia.
  destruct (Z.compare_spec (n * 2 ^ 42) (2 ^ 52 * 2 ^ 0)); [done| |done].
  intros _; assert (2 ^ 52 * 2 ^ 0 = 1024 * 2 ^ 42) by done; lia.
Qed.

Lemma num_ltb_of_int n x :
  0 <= n -> of_int n = inr x -> num_ltb (Int n) f1024 = ltb x f1024.
Proof.
  intros Hn Hx. destruct (num_ltb (Int n) f1024) eqn:E.
  - symmetry. apply (of_int_small n); [|done].
    apply num_ltb_int_true in E. lia.
  - apply num_ltb_int_false in E.
    destruct (of_int_large n x E Hx) as (m & e & -> & _ & Hm & He).
    symmetry. by apply ltb_f1024_large.
Qed.

Lemma fmt_units_rendered_float d units last x :
  canonical x -> nonneg x ->
  exists s, fmt_units d units last (Flt x) = inr s /\ rendered d units last x s.
Proof.
  intros Hc Hn. destruct (fmt_units_float d units last x Hc Hn) as (i & Hi & F & B & A).
  eexists. split; [exact F|]. exists i. done.
Qed.

Lemma fmt_units_rendered_int d u units last n x :
  0 <= n -> of_int n = inr x ->
  exists s, fmt_units d (u :: units) last (Int n) = inr s /\
            rendered d (u :: units) last x s.
Proof.
  intros Hn Hx.
  destruct (fmt_units_int d u units last n x Hn Hx) as (i & Hi & F & B & A).
  eexists. split; [exact F|]. exists i. split; [|done].
  split_and!.
  - simpl. lia.
  - intros Hlt. specialize (B Hlt). destruct i as [|i]; [|done].
    simpl in B. rewrite scaled_0. by rewrite <- (num_ltb_of_int n x).
  - intros j Hj. specialize (A j Hj). destruct j as [|j]; [|done].
    simpl in A. rewrite scaled_0. by rewrite <- (num_ltb_of_int n x).
Qed.

Lemma of_int_total n : 0 <= n < 2 ^ 1023 -> exists x, of_int n = inr x.
Proof.
  intros Hn. unfold of_int, round.
  destruct (Z.compare_spec n 0); [by eexists|lia|].
  pose proof (ilog2_spec n 1 ltac:(lia) ltac:(lia)) as [L _].
  unfold round_pos. cbv zeta. unfold prec, emin, emax. change (53 - 1) with 52.
  set (k := ilog2 n 1) in *.
  assert (Hk : k <= 1022).
  { destruct (Z.le_gt_cases k 1022); [done|exfalso].
    rewrite !shl_pw, pw_nonneg, (pw_nonpos (- k)) in L by lia.
    assert (2 ^ 1023 <= 2 ^ k) by (apply Z.pow_le_mono_r; lia). lia. }
  set (m := rne _ _).
  destruct (m =? 0); [by eexists|].
  destruct (m =? 2 ^ 53).
  - destruct (Z.ltb_spec 971 (Z.max (k - 52) (-1074) + 1)); [lia|by eexists].
  - destruct (Z.ltb_spec 971 (Z.max (k - 52) (-1074))); [lia|by eexists].
Qed.

Lemma of_int_overflow n : 2 ^ 1024 <= n -> of_int n = inl OverflowError.
Proof.
  intros Hn. assert (0 < 2 ^ 1024) by done.
  unfold of_int, round.
  destruct (Z.compare_spec n 0); [lia|lia|].
  pose proof (ilog2_spec n 1 ltac:(lia) ltac:(lia)) as [_ U].
  pose proof (round_pos_mantissa n 1 ltac:(lia) ltac:(lia)) as M.
  unfold round_pos. cbv zeta in *. unfold prec, emin, emax in *.
  change (53 - 1) with 52 in *.
  set (k := ilog2 n 1) in *.
  assert (Hk : 1024 <= k).
  { destruct (Z.le_gt_cases 1024 k); [done|exfalso]. rewrite !shl_pw in U.
    destruct (Z.le_gt_cases 0 k).
    - rewrite (pw_nonpos (- k)), (pw_nonneg k) in U by lia.
      assert (2 ^ k <= 2 ^ 1023) by (apply Z.pow_le_mono_r; lia).
      assert (2 ^ 1024 = 2 * 2 ^ 1023) by done. lia.
    - rewrite (pw_nonpos k), (pw_nonneg (- k)) in U by lia.
      assert (0 < 2 ^ (- k)) by (apply Z.pow_pos_nonneg; lia). nia. }
  rewrite Z.max_l in * by lia.
  set (m := rne _ _) in *.
  assert (0 < 2 ^ 52) by done.
  destruct (Z.eqb_spec m 0); [lia|].
  destruct (Z.eqb_spec m (2 ^ 53)).
  - destruct (Z.ltb_spec 971 (k - 52 + 1)); [done|lia].
  - destruct (Z.ltb_spec 971 (k - 52)); [done|lia].
Qed.

Lemma ltb_zero_false x :
  ltb x (Fin 0 0) = false -> nonneg x \/ x = NaN.
Proof.
  destruct x as [m e|[]|]; simpl; [|done|by left|by right].
  unfold cmp_dyadic. rewrite Z.mul_0_l.
  assert (0 < 2 ^ (e - Z.min e 0)) by (apply Z.pow_pos_nonneg; lia).
  destruct (Z.compare_spec (m * 2 ^ (e - Z.min e 0)) 0); [| done |]; intros _; left; nia.
Qed.

Lemma ltb_zero_f1024 x : ltb x (Fin 0 0) = true -> ltb x f1024 = true.
Proof.
  destruct x as [m e|[]|]; simpl; [|done..].
  unfold cmp_dyadic. rewrite Z.mul_0_l.
  assert (0 < 2 ^ (e - Z.min e 0)) by (apply Z.pow_pos_nonneg; lia).
  assert (0 < 2 ^ (e - Z.min e (-42))) by (apply Z.pow_pos_nonneg; lia).
  assert (0 < 2 ^ (-42 - Z.min e (-42))) by (apply Z.pow_pos_nonneg; lia).
  assert (0 < 2 ^ 52) by done.
  destruct (Z.compare_spec (m * 2 ^ (e - Z.min e 0)) 0); [done| |done]. intros _.
  destruct (Z.compare_spec (m * 2 ^ (e - Z.min e (-42)))
              (2 ^ 52 * 2 ^ (-42 - Z.min e (-42)))); [nia|done|nia].
Qed.

Lemma fmt_units_nan d units last :
  fmt_units d units last (Flt NaN) = inr (format_f d NaN +:+ " " +:+ last).
Proof. induction units as [|u units IH]; [done|]. simpl. exact IH. Qed.

Lemma selects_nan units : selects units NaN (length units).
Proof. split_and!; [lia|lia|done]. Qed.

Lemma nth_last {A} (l : list A) (a d : A) : nth (length l) (l ++ [a]) d = a.
Proof. induction l as [|x l IH]; [done|]. exact IH. Qed.

Lemma fmt_units_rendered d units last (n : num) (x : float) :
  to_float n = inr x -> canonical x -> num_ltb n (Fin 0 0) = false ->
  exists s, fmt_units d units last n = inr s /\ rendered d units last x s.
Proof.
  intros Hx Hc H0. destruct n as [z|y]; cbn [to_float num_ltb] in Hx, H0.
  - apply ltb_zero_false in H0 as [Hz|[=]]. simpl in Hz.
    destruct units as [|u units].
    + simpl. unfold format_num. simpl. rewrite Hx. eexists. split; [done|].
      exists 0%nat. rewrite scaled_0. split; [|done]. split_and!; simpl; [lia|lia|lia].
    + by apply fmt_units_rendered_int.
  - injection Hx as ->. apply ltb_zero_false in H0 as [Hn| ->].
    + by apply fmt_units_rendered_float.
    + rewrite fmt_units_nan. eexists. split; [done|].
      exists (length units). split; [apply selects_nan|]. by rewrite nth_last.
Qed.

Lemma fmt_units_negative d u units last (n : num) (x : float) :
  to_float n = inr x -> num_ltb n (Fin 0 0) = true ->
  fmt_units d (u :: units) last n = inr (format_f d x +:+ " " +:+ u).
Proof.
  intros Hx H0. cbn [fmt_units]. unfold format_num. rewrite Hx.
  assert (num_ltb n f1024 = true) as ->; [|done].
  destruct n as [z|y]; cbn [num_ltb] in *; by apply ltb_zero_f1024.
Qed.

Lemma digit_range n : exists k, (k < 10)%nat /\ digit n = ascii_of_nat (48 + k).
Proof.
  exists (Z.to_nat (n mod 10)). split; [|done].
  pose proof (Z.mod_pos_bound n 10 ltac:(lia)). lia.
Qed.

Lemma is_digit_digit n : is_digit (digit n) = true.
Proof.
  destruct (digit_range n) as (k & Hk & ->).
  do 10 (destruct k as [|k]; [reflexivity|]). lia.
Qed.

Lemma digit_not_comma n : Ascii.eqb (digit n) ","%char = false.
Proof.
  destruct (digit_range n) as (k & Hk & ->).
  do 10 (destruct k as [|k]; [reflexivity|]). lia.
Qed.

Lemma grouped_rev_S f pos q :
  grouped_rev (S f) pos q =
  if q / 10 =? 0 then [digit q]
  else if (pos =? 2)%nat then digit q :: ","%char :: grouped_rev f 0 (q / 10)
       else digit q :: grouped_rev f (S pos) (q / 10).
Proof. reflexivity. Qed.

Lemma grouped_from_right_one pos d : grouped_from_right pos [d] = is_digit d && true.
Proof. reflexivity. Qed.

Lemma grouped_from_right_cons pos d c l :
  grouped_from_right pos (d :: c :: l) =
  is_digit d &&
  (if Ascii.eqb c ","%char
   then (pos =? 2)%nat && grouped_from_right 0 l
   else (pos <? 2)%nat && grouped_from_right (S pos) (c :: l)).
Proof. reflexivity. Qed.

Lemma grouped_rev_head f pos q :
  exists tail, grouped_rev (S f) pos q = digit q :: tail.
Proof.
  rewrite grouped_rev_S. destruct (q / 10 =? 0); [by eexists|].
  destruct (pos =? 2)%nat; by eexists.
Qed.

Lemma grouped_rev_ok f pos q :
  (pos <= 2)%nat -> 0 <= q < 10 ^ Z.of_nat (S f) ->
  grouped_from_right pos (grouped_rev (S f) pos q) = true.
Proof.
  revert pos q. induction f as [|f IH]; intros pos q Hp Hq.
  - rewrite grouped_rev_S.
    assert (q / 10 = 0) as -> by (apply Z.div_small; change (10 ^ Z.of_nat 1) with 10 in Hq; lia).
    change (0 =? 0) with true. cbv iota.
    by rewrite grouped_from_right_one, is_digit_digit.
  - rewrite grouped_rev_S. destruct (Z.eqb_spec (q / 10) 0) as [E|E].
    + by rewrite grouped_from_right_one, is_digit_digit.
    + assert (0 <= q / 10 < 10 ^ Z.of_nat (S f)) as Hr.
      { split; [apply Z.div_pos; lia|].
        apply Z.div_lt_upper_bound; [lia|].
        replace (Z.of_nat (S (S f))) with (Z.succ (Z.of_nat (S f))) in Hq by lia.
        rewrite Z.pow_succ_r in Hq by lia. lia. }
      destruct (Nat.eqb_spec pos 2) as [->|Hn].
      * rewrite grouped_from_right_cons, is_digit_digit.
        change (Ascii.eqb ","%char ","%char) with true. cbv iota.
        change (2 =? 2)%nat with true. cbn [andb]. apply IH; [lia|done].
      * destruct (grouped_rev_head f (S pos) (q / 10)) as [tail Et].
        rewrite Et, grouped_from_right_cons, is_digit_digit, digit_not_comma, <- Et.
        assert ((pos <? 2)%nat = true) as -> by (apply Nat.ltb_lt; lia).
        cbn [andb]. apply IH; [lia|done].
Qed.

Lemma log2_fuel q : 0 <= q -> q < 10 ^ Z.of_nat (S (Z.to_nat (Z.log2 q))).
Proof.
  intros Hq. pose proof (Z.log2_nonneg q).
  replace (Z.of_nat (S (Z.to_nat (Z.log2 q)))) with (Z.succ (Z.log2 q)) by lia.
  destruct (Z.eq_dec q 0) as [->|].
  - done.
  - pose proof (Z.log2_spec q ltac:(lia)) as [_ U].
    assert (2 ^ Z.succ (Z.log2 q) <= 10 ^ Z.succ (Z.log2 q))
      by (apply Z.pow_le_mono_l; lia).
    lia.
Qed.

Lemma grouped_ok q : 0 <= q -> grouped_from_right 0 (rev (grouped q)) = true.
Proof.
  intros Hq. unfold grouped. rewrite rev_involutive.
  apply grouped_rev_ok; [lia|]. split; [done|]. by apply log2_fuel.
Qed.

Lemma rne_nonneg n d : 0 <= n -> 0 < d -> 0 <= rne n d.
Proof.
  intros Hn Hd. pose proof (rne_bounds n d Hd) as [L _].
  pose proof (Z.div_pos n d Hn Hd). lia.
Qed.

Lemma format_f_integer_part (d : nat) (m e : Z) :
  exists whole frac,
    format_f (S d) (Fin m e) = whole +:+ "." +:+ string_of_chars frac /\
    integer_part whole /\
    length frac = S d /\
    Forall (fun c => is_digit c = true) frac.
Proof.
  set (r := rne (shl (Z.abs m * 10 ^ Z.of_nat (S d)) e) (shl 1 (- e))).
  exists ((if m <? 0 then "-" else "")
          +:+ string_of_chars (grouped (r / 10 ^ Z.of_nat (S d)))),
    (frac_digits (S d) (r mod 10 ^ Z.of_nat (S d))).
  assert (0 < 10 ^ Z.of_nat (S d)) by (apply Z.pow_pos_nonneg; lia).
  assert (0 <= r).
  { apply rne_nonneg; [|apply shl_pos; lia].
    rewrite shl_pw. pose proof (pw_pos e). nia. }
  split_and!.
  - unfold format_f. fold r. cbn [Nat.eqb]. by rewrite append_assoc.
  - eexists _, _. split; [reflexivity|]. split.
    + destruct (m <? 0); [by right|by left].
    + apply grouped_ok. by apply Z.div_pos.
  - apply frac_digits_length.
  - generalize (r mod 10 ^ Z.of_nat (S d)). generalize (S d). clear.
    intros d. induction d as [|d IH]; intros n; simpl.
    + constructor.
    + apply Forall_app. split; [apply IH|]. repeat constructor.
      apply is_digit_digit.
Qed.

Lemma append_assoc4 (a b c d : string) :
  (a +:+ b +:+ c) +:+ d = a +:+ b +:+ c +:+ d.
Proof. by rewrite !append_assoc. Qed.

Lemma nth_elem_of (l : list string) (i : nat) (d : string) :
  (i < length l)%nat -> nth i l d ∈ l.
Proof.
  revert i. induction l as [|x l IH]; intros [|i] Hi; simpl in *; try lia.
  - left.
  - right. apply IH. lia.
Qed.

Lemma fmt_units_fixed_point d units last (n : num) (m e : Z) (s : string) :
  to_float n = inr (Fin m e) -> canonical (Fin m e) ->
  fmt_units (S d) units last n = inr s ->
  fixed_point (S d) (units ++ [last]) s.
Proof.
  intros Hx Hc Hs.
  assert (exists i, (i <= length units)%nat /\
            s = format_f (S d) (scaled (Fin m e) i) +:+ " "
                +:+ nth i (units ++ [last]) "") as (i & Hi & ->).
  { destruct (num_ltb n (Fin 0 0)) eqn:H0.
    - destruct units as [|u units].
      + exists 0%nat. rewrite scaled_0. simpl in Hs. unfold format_num in Hs.
        rewrite Hx in Hs. injection Hs as <-. split; [simpl; lia|done].
      + rewrite (fmt_units_negative _ _ _ _ _ _ Hx H0) in Hs. injection Hs as <-.
        exists 0%nat. rewrite scaled_0. split; [simpl; lia|done].
    - destruct (fmt_units_rendered (S d) units last n _ Hx Hc H0)
        as (s' & Hs' & i & (Hi & _) & ->).
      rewrite Hs in Hs'. injection Hs' as ->. by exists i. }
  cbn [scaled].
  destruct (format_f_integer_part d m (e - 10 * Z.of_nat i))
    as (whole & frac & -> & W & L & D).
  exists whole, frac, (nth i (units ++ [last]) "").
  split_and!; [by rewrite append_assoc4|done|done|done|].
  apply nth_elem_of. rewrite length_app. simpl. lia.
Qed.

(** the plan *)
Lemma ceil_div_zero b : ceil_div 0 b = if b =? 0 then inl ZeroDivisionError else inr 0.
Proof. unfold ceil_div, int_truediv. by destruct (b =? 0). Qed.

Lemma ceil_div_by_zero a : ceil_div a 0 = inl ZeroDivisionError.
Proof. done. Qed.

Lemma ceiling_bounds a b : 0 < a -> 0 < b -> 0 < ceiling a b <= a.
Proof. intros Ha Hb. pose proof (ceiling_spec a b Hb). nia. Qed.

Lemma plan_exact (cfg : config) :
  0 < JOB_MAX_BYTES cfg < 2 ^ 53 -> 0 < JOB_MSG_BYTES cfg < 2 ^ 53 ->
  0 < JOB_BATCH_SIZE cfg < 2 ^ 53 ->
  plan cfg =
    inr (ceiling (JOB_MAX_BYTES cfg) (JOB_MSG_BYTES cfg),
         ceiling (ceiling (JOB_MAX_BYTES cfg) (JOB_MSG_BYTES cfg)) (JOB_BATCH_SIZE cfg)).
Proof.
  intros HT HM HB. unfold plan. rewrite ceil_div_exact by done.
  pose proof (ceiling_bounds (JOB_MAX_BYTES cfg) (JOB_MSG_BYTES cfg)
                ltac:(lia) ltac:(lia)).
  by rewrite ceil_div_exact by lia.
Qed.

(** ** The progress reports *)

Section Reports.

Context {C : Type} {client : Client C}.
Variable uuid4 : nat -> string.
Variable time : nat -> float.
Variable cfg : config.

Lemma batch_loop_postfixes (fuel : nat) (start : float) (n : nat)
    (s s' : state C) (how : loop_exit) :
  batch_loop uuid4 time cfg fuel start n s = Return how s' ->
  running s = true ->
  exists ps,
    postfixes (trace s') = postfixes (trace s) ++ ps /\
    length ps = n /\
    forall (i : nat) p, ps !! i = Some p ->
      progress start (bytes_sent s + batch_bytes cfg * (Z.of_nat i + 1)) (time (ticks s + i)) p.
Proof.
  revert s. induction n as [|n IH]; intros s; simpl.
  - intros [= <- <-] _. exists []. by rewrite app_nil_r.
  - unfold bind at 1, get_running. intros H R. rewrite R in H. simpl in H.
    apply bind_Return in H as ([] & s1 & H1 & H).
    apply batch_effect in H1
      as (R1 & T1 & B1 & t1 & rate & sent & tput & E1 & N1 & Q1 & D1 & F1 & G1).
    apply IH in H as (ps & E & L & P); [|congruence].
    exists ((sent, tput) :: ps). split_and!.
    + destruct Q1 as (_ & _ & _ & Q1).
      rewrite E, E1, !postfixes_app, Q1. simpl. by rewrite <- app_assoc.
    + simpl. by rewrite L.
    + intros [|i] p; simpl.
      * intros [= <-]. exists rate. rewrite Nat.add_0_r.
        replace (bytes_sent s + batch_bytes cfg * (Z.of_nat 0 + 1)) with (bytes_sent s1)
          by (rewrite B1; unfold batch_bytes; lia).
        by split_and!.
      * intros Hp. apply P in Hp. rewrite T1, B1 in Hp.
        replace (bytes_sent s + batch_bytes cfg * (Z.of_nat (S i) + 1))
          with (bytes_sent s + JOB_MSG_BYTES cfg * Z.of_nat (Z.to_nat (JOB_BATCH_SIZE cfg))
                + batch_bytes cfg * (Z.of_nat i + 1)) by (unfold batch_bytes; lia).
        by replace (ticks s + S i)%nat with (S (ticks s) + i)%nat by lia.
Qed.

Lemma run_postfixes (fuel : nat) (s s' : state C) (how : loop_exit) :
  run uuid4 time cfg fuel s = Return how s' ->
  running s = true ->
  exists total_messages batches ps,
    plan cfg = inr (total_messages, batches) /\
    postfixes (trace s') = postfixes (trace s) ++ ps /\
    length ps = Z.to_nat batches /\
    forall (i : nat) p, ps !! i = Some p ->
      progress (time (ticks s)) (bytes_sent s + batch_bytes cfg * (Z.of_nat i + 1))
        (time (S (ticks s) + i)) p.
Proof.
  unfold run. intros H R.
  apply bind_Return in H as ([total_messages batches] & s1 & H1 & H).
  apply lift_Return in H1 as [H1 ->].
  apply bind_Return in H as (start & s2 & H2 & H). injection H2 as <- <-.
  apply bind_Return in H as (how' & s3 & H3 & H).
  apply with_tqdm_Return in H3 as (s4 & H3 & ->).
  apply batch_loop_postfixes in H3 as (ps & E3 & L3 & P3); [|done].
  apply bind_Return in H as ([] & s5 & H5 & H). injection H as <- <-.
  apply finish_effect in H5 as (_ & _ & scaled & last & _ & _ & E5).
  simpl in *.
  exists total_messages, batches, ps. split_and!; [done| |done|done].
  rewrite E5, !postfixes_app, E3, postfixes_app. simpl.
  rewrite postfixes_app, postfixes_callback_events. simpl.
  by rewrite !app_nil_r.
Qed.

Lemma fmt_rate_zero : _fmt_rate (Flt (Fin 0 0)) = inr "0.00 B/s".
Proof. by vm_compute. Qed.

Lemma run_last_line (fuel : nat) (s s' : state C) (how : loop_exit) :
  run uuid4 time cfg fuel s = Return how s' ->
  last (trace s') = Some (Stdout "Last-batch throughput: 0.00 B/s").
Proof.
  unfold run. intros H.
  apply bind_Return in H as ([total_messages batches] & s1 & H1 & H).
  apply lift_Return in H1 as [H1 ->].
  apply bind_Return in H as (start & s2 & H2 & H). injection H2 as <- <-.
  apply bind_Return in H as (how' & s3 & H3 & H).
  apply bind_Return in H as ([] & s5 & H5 & H). injection H as <- <-.
  apply finish_effect in H5 as (_ & _ & scaled & last & _ & L & E5).
  rewrite fmt_rate_zero in L. injection L as <-.
  rewrite E5, last_app, last_cons, last_app. done.
Qed.

End Reports.

(** ** The calls made on the client *)

Lemma attempts_app t1 t2 : attempts (t1 ++ t2) = attempts t1 ++ attempts t2.
Proof. apply omap_app. Qed.

Lemma attempts_callback_events rs : attempts (callback_events rs) = [].
Proof.
  induction rs as [|r rs IH]; [done|].
  unfold callback_events in *. simpl. rewrite attempts_app, IH.
  unfold callback_line. by destruct (err r).
Qed.

Section Orderly.

Variable uuid4 : nat -> string.
Variables topic payload : string.

Lemma orderly_nil i : orderly uuid4 topic payload i [].
Proof. done. Qed.

Lemma orderly_app i t1 t2 :
  orderly uuid4 topic payload i t1 ->
  orderly uuid4 topic payload (i + count is_attempt t1) t2 ->
  orderly uuid4 topic payload i (t1 ++ t2).
Proof.
  intros (A1 & P1 & N1 & Q1) (A2 & P2 & N2 & Q2). unfold orderly.
  rewrite attempts_app, !count_app, A1, A2, seq_app, map_app.
  split_and!; [done|lia|lia|lia].
Qed.

Lemma orderly_inert i t :
  count is_attempt t = 0%nat -> count is_poll t = 0%nat ->
  count (is_poll_with backoff) t = 0%nat ->
  count (is_poll_with (Fin 0 0)) t = 0%nat ->
  count is_enqueued t = 0%nat -> count is_refused t = 0%nat -> attempts t = [] ->
  orderly uuid4 topic payload i t.
Proof. intros A Q P Z E R T. unfold orderly. rewrite A, Q, P, Z, E, R, T. done. Qed.

Lemma orderly_idle_poll i rs : orderly uuid4 topic payload i [Poll (Fin 0 0) rs].
Proof. by vm_compute. Qed.

Lemma orderly_bar i sent tput n :
  orderly uuid4 topic payload i [BarPostfix sent tput; BarUpdate n].
Proof. done. Qed.

Lemma orderly_callback_events i rs :
  orderly uuid4 topic payload i (callback_events rs).
Proof.
  apply orderly_inert; rewrite ?count_callback_events, ?attempts_callback_events; done.
Qed.

End Orderly.

Section Shape.

Context {C : Type} {client : Client C}.
Variable uuid4 : nat -> string.
Variable time : nat -> float.
Variable cfg : config.

Lemma orderly_send_trace k payload topic (c : C) i :
  orderly uuid4 topic payload i (send_trace uuid4 k payload topic c i) /\
  count (is_poll_with (Fin 0 0)) (send_trace uuid4 k payload topic c i) = 0%nat /\
  count is_poll (send_trace uuid4 k payload topic c i) = k.
Proof.
  revert c i. induction k as [|k IH]; intros c i; [done|].
  destruct (IH (poll (produce c topic (uuid4 i) payload).2 (round 1 10)).2 (S i))
    as (O & Z & P).
  simpl. split_and!.
  - apply (orderly_app _ _ _ _ [_; _]); [done|].
    apply orderly_app; [apply orderly_callback_events|].
    rewrite count_callback_events by done.
    replace (i + count is_attempt [Produce topic (uuid4 i) payload BufferError;
                                   Poll (round 1 10) (poll (produce c topic (uuid4 i) payload).2 (round 1 10)).1] + 0)%nat
      with (S i) by (rewrite !count_cons, count_nil; simpl; lia).
    exact O.
  - rewrite !count_cons, count_app, count_callback_events, Z by done. done.
  - rewrite !count_cons, count_app, count_callback_events, P by done. done.
Qed.

Lemma send_shape (fuel : nat) (payload topic : string) (s s' : state C) :
  send uuid4 fuel payload topic s = Return tt s' ->
  exists t,
    trace s' = trace s ++ t /\
    uuids s' = (uuids s + count is_attempt t)%nat /\
    orderly uuid4 topic payload (uuids s) t /\
    count (is_poll_with (Fin 0 0)) t = 0%nat.
Proof.
  intros Hs. destruct (send_Return _ _ _ _ _ _ Hs) as (k & Hk & Hr).
  rewrite (send_refused _ k fuel) in Hs by done. injection Hs as <-. simpl.
  eexists. split; [done|].
  destruct (orderly_send_trace k payload topic (producer s) (uuids s)) as (O & Z & _).
  rewrite count_attempt_send_trace. done.
Qed.

Lemma sends_shape (fuel n : nat) (payload topic : string) (m : Z) (s s' : state C) :
  repeat_ n (send uuid4 fuel payload topic ;; add_bytes_sent m) s = Return tt s' ->
  exists t,
    trace s' = trace s ++ t /\
    uuids s' = (uuids s + count is_attempt t)%nat /\
    orderly uuid4 topic payload (uuids s) t /\
    count (is_poll_with (Fin 0 0)) t = 0%nat.
Proof.
  revert s. induction n as [|n IH]; intros s; simpl.
  - intros [= <-]. exists []. rewrite app_nil_r, count_nil. split_and!; [done|lia|done|done].
  - intros H. apply bind_Return in H as ([] & s1 & H1 & H).
    apply bind_Return in H1 as ([] & s0 & H0 & H1).
    apply send_shape in H0 as (t0 & E0 & U0 & O0 & Z0).
    injection H1 as <-. simpl in H.
    apply IH in H as (t & E & U & O & Z). simpl in *.
    exists (t0 ++ t). rewrite E, E0, !count_app, Z0, Z, <- app_assoc.
    split_and!; [done|lia| |done].
    apply orderly_app; [done|]. by rewrite <- U0.
Qed.

Lemma batch_shape (fuel : nat) (start : float) (s s' : state C) :
  batch uuid4 time cfg fuel start s = Return tt s' ->
  exists t,
    trace s' = trace s ++ t /\
    uuids s' = (uuids s + count is_attempt t)%nat /\
    orderly uuid4 (JOB_TOPIC_NAME cfg) (MESSAGE cfg) (uuids s) t /\
    count (is_poll_with (Fin 0 0)) t = 2%nat.
Proof.
  unfold batch. intros H.
  apply bind_Return in H as ([] & s1 & H1 & H).
  rewrite producer_poll_log in H1. injection H1 as <-.
  apply bind_Return in H as ([] & s2 & H2 & H).
  apply sends_shape in H2 as (t2 & E2 & U2 & O2 & Z2).
  apply bind_Return in H as ([] & s3 & H3 & H).
  rewrite producer_poll_log in H3. injection H3 as <-.
  apply bind_Return in H as (t1 & s4 & H4 & H). injection H4 as <- <-.
  apply bind_Return in H as (sent_now & s5 & H5 & H). injection H5 as <- <-.
  apply bind_Return in H as (rate & s6 & H6 & H).
  apply lift_Return in H6 as [H6 ->].
  apply bind_Return in H as (sent & s7 & H7 & H).
  apply lift_Return in H7 as [H7 ->].
  apply bind_Return in H as (tput & s8 & H8 & H).
  apply lift_Return in H8 as [H8 ->].
  apply bind_Return in H as ([] & s9 & H9 & H). injection H9 as <-.
  injection H as <-. simpl in *.
  exists ([Poll (Fin 0 0) (poll (producer s) (Fin 0 0)).1]
            ++ callback_events (poll (producer s) (Fin 0 0)).1
            ++ t2
            ++ [Poll (Fin 0 0) (poll (producer s2) (Fin 0 0)).1]
            ++ callback_events (poll (producer s2) (Fin 0 0)).1
            ++ [BarPostfix sent tput; BarUpdate 1]).
  split_and!.
  - rewrite E2. simpl. by rewrite <- !app_assoc.
  - rewrite U2, !count_app, !count_callback_events by done. simpl.
    rewrite !count_cons, !count_nil. simpl. lia.
  - apply (orderly_app _ _ _ _ [_]); [apply orderly_idle_poll|].
    apply orderly_app; [apply orderly_callback_events|].
    rewrite count_callback_events, !count_cons, count_nil by done. simpl.
    rewrite !Nat.add_0_r.
    apply orderly_app; [done|].
    apply (orderly_app _ _ _ _ [_]); [apply orderly_idle_poll|].
    apply orderly_app; [apply orderly_callback_events|].
    apply orderly_bar.
  - rewrite !count_app, !count_callback_events, Z2 by done.
    rewrite !count_cons, !count_nil. done.
Qed.

Lemma batch_loop_shape (fuel : nat) (start : float) (n : nat)
    (s s' : state C) (how : loop_exit) :
  batch_loop uuid4 time cfg fuel start n s = Return how s' ->
  running s = true ->
  exists t,
    trace s' = trace s ++ t /\
    uuids s' = (uuids s + count is_attempt t)%nat /\
    orderly uuid4 (JOB_TOPIC_NAME cfg) (MESSAGE cfg) (uuids s) t /\
    count (is_poll_with (Fin 0 0)) t = (2 * n)%nat.
Proof.
  revert s. induction n as [|n IH]; intros s; simpl.
  - intros [= <- <-] _. exists []. rewrite app_nil_r, !count_nil.
    split_and!; [done|lia|done|done].
  - unfold bind at 1, get_running. intros H R. rewrite R in H. simpl in H.
    apply bind_Return in H as ([] & s1 & H1 & H).
    pose proof (batch_effect _ _ _ _ _ _ _ H1) as (R1 & _).
    apply batch_shape in H1 as (t1 & E1 & U1 & O1 & Z1).
    apply IH in H as (t & E & U & O & Z); [|congruence].
    exists (t1 ++ t). rewrite E, E1, !count_app, Z1, Z, <- app_assoc.
    split_and!; [done|lia| |lia].
    apply orderly_app; [done|]. by rewrite <- U1.
Qed.

Lemma run_shape (fuel : nat) (s s' : state C) (how : loop_exit) :
  run uuid4 time cfg fuel s = Return how s' ->
  running s = true ->
  exists total_messages batches t,
    plan cfg = inr (total_messages, batches) /\
    trace s' = trace s ++ t /\
    uuids s' = (uuids s + count is_attempt t)%nat /\
    orderly uuid4 (JOB_TOPIC_NAME cfg) (MESSAGE cfg) (uuids s) t /\
    count (is_poll_with (Fin 0 0)) t = (2 * Z.to_nat batches)%nat.
Proof.
  unfold run. intros H R.
  apply bind_Return in H as ([total_messages batches] & s1 & H1 & H).
  apply lift_Return in H1 as [H1 ->].
  apply bind_Return in H as (start & s2 & H2 & H). injection H2 as <- <-.
  apply bind_Return in H as (how' & s3 & H3 & H).
  apply with_tqdm_Return in H3 as (s4 & H3 & ->).
  apply batch_loop_shape in H3 as (t & E3 & U3 & O3 & Z3); [|done].
  apply bind_Return in H as ([] & s5 & H5 & H). injection H as <- <-.
  unfold finish in H5.
  apply bind_Return in H5 as ([] & s6 & H6 & H5).
  rewrite producer_flush_log in H6. injection H6 as <-.
  apply bind_Return in H5 as (total & s7 & H7 & H5). injection H7 as <- <-.
  apply bind_Return in H5 as (scaled & s8 & H8 & H5).
  apply lift_Return in H8 as [H8 ->].
  apply bind_Return in H5 as ([] & s9 & H9 & H5). injection H9 as <-.
  apply bind_Return in H5 as (last & s10 & H10 & H5).
  apply lift_Return in H10 as [H10 ->].
  injection H5 as <-. simpl in *.
  exists total_messages, batches.
  eexists ([BarOpen batches] ++ t ++ [BarClose]
            ++ [Flush (flush (producer s4)).1]
            ++ callback_events (flush (producer s4)).1 ++ [_; _]).
  split_and!.
  - done.
  - rewrite E3. simpl. by rewrite <- !app_assoc.
  - rewrite U3, !count_app, !count_callback_events by done.
    rewrite !count_cons, !count_nil. simpl. lia.
  - apply (orderly_app _ _ _ _ [_]); [done|].
    rewrite count_cons, count_nil. simpl. rewrite Nat.add_0_r.
    apply orderly_app; [done|].
    apply (orderly_app _ _ _ _ [_]); [done|].
    apply (orderly_app _ _ _ _ [_]); [done|].
    apply orderly_app; [apply orderly_callback_events|]. done.
  - rewrite !count_app, !count_callback_events, Z3 by done.
    rewrite !count_cons, !count_nil. simpl. lia.
Qed.

End Shape.

(** ** Runs that raise *)

Lemma bind_Raise {C A B} (m : M C A) (k : A -> M C B) s e t :
  bind m k s = Raise e t ->
  m s = Raise e t \/ exists a s1, m s = Return a s1 /\ k a s1 = Raise e t.
Proof.
  unfold bind. destruct (m s) as [a s1|e' t'|]; [|intros [= <- <-]; by left|done].
  intros Hk. right. by exists a, s1.
Qed.

Lemma lift_Raise {C A} (x : exn + A) (s : state C) e t :
  lift x s = Raise e t -> x = inl e /\ t = trace s.
Proof. destruct x; simpl; unfold raise, ret; intros [=]; by subst. Qed.

Lemma of_int_arithmetic n e : of_int n = inl e -> arithmetic e.
Proof. unfold of_int. destruct (round n 1); intros [= <-]; done. Qed.

Lemma div_arithmetic x y e : div x y = inl e -> arithmetic e.
Proof.
  destruct x as [m1 e1|s1|], y as [m2 e2|s2|]; simpl; try done;
    destruct m2; intros [= <-]; done.
Qed.

Lemma num_div_arithmetic n y e : num_div n y = inl e -> arithmetic e.
Proof.
  unfold num_div. destruct n as [z|x]; simpl.
  - destruct (of_int z) as [e'|x] eqn:E.
    + intros [= <-]. by eapply of_int_arithmetic.
    + apply div_arithmetic.
  - apply div_arithmetic.
Qed.

Lemma format_num_arithmetic d n e : format_num d n = inl e -> arithmetic e.
Proof.
  unfold format_num. destruct n as [z|x]; simpl; [|done].
  destruct (of_int z) as [e'|x] eqn:E; [|done].
  intros [= <-]. by eapply of_int_arithmetic.
Qed.

Lemma fmt_units_arithmetic d units last n e :
  fmt_units d units last n = inl e -> arithmetic e.
Proof.
  revert n. induction units as [|u units IH]; intros n; simpl.
  - destruct (format_num d n) eqn:E; [|done]. intros [= <-].
    by eapply format_num_arithmetic.
  - destruct (num_ltb n f1024).
    + destruct (format_num d n) eqn:E; [|done]. intros [= <-].
      by eapply format_num_arithmetic.
    + destruct (num_div n f1024) eqn:E.
      * intros [= <-]. by eapply num_div_arithmetic.
      * apply IH.
Qed.

Lemma int_truediv_arithmetic a b e : int_truediv a b = inl e -> arithmetic e.
Proof.
  unfold int_truediv. destruct (b =? 0); [by intros [= <-]|].
  destruct (round _ _); intros [= <-]; done.
Qed.

Lemma ceil_div_arithmetic a b e : ceil_div a b = inl e -> arithmetic e.
Proof.
  unfold ceil_div. destruct (int_truediv a b) as [e'|x] eqn:E.
  - intros [= <-]. by eapply int_truediv_arithmetic.
  - destruct x; simpl; intros [= <-]; done.
Qed.

Lemma plan_arithmetic cfg e : plan cfg = inl e -> arithmetic e.
Proof.
  unfold plan. destruct (ceil_div _ _) as [e'|total] eqn:E.
  - intros [= <-]. by eapply ceil_div_arithmetic.
  - destruct (ceil_div total _) as [e'|batches] eqn:E'; [|done].
    intros [= <-]. by eapply ceil_div_arithmetic.
Qed.

Lemma rejected_more topic payload detail t0 t1 t :
  count is_flush t1 = 0%nat -> only is_stdout t1 = [] ->
  rejected topic payload detail (t0 ++ t1) t ->
  rejected topic payload detail t0 t.
Proof.
  intros F O (t' & key & -> & F' & O'). exists (t1 ++ t'), key.
  rewrite count_app, only_app, F, F', O, O', <- !app_assoc. done.
Qed.

Lemma aborted_arithmetic topic payload e t0 t :
  arithmetic e -> unprinted t0 t -> aborted topic payload e t0 t.
Proof. by destruct e. Qed.

Lemma aborted_here topic payload e t0 :
  arithmetic e -> aborted topic payload e t0 t0.
Proof.
  intros He. apply aborted_arithmetic; [done|]. exists []. by rewrite app_nil_r.
Qed.

Lemma aborted_more topic payload e t0 t1 t :
  count is_flush t1 = 0%nat -> only is_stdout t1 = [] ->
  aborted topic payload e (t0 ++ t1) t ->
  aborted topic payload e t0 t.
Proof.
  intros F O. destruct e; simpl; try by apply rejected_more.
  all: intros (t' & -> & O'); exists (t1 ++ t');
    by rewrite only_app, O, O', <- !app_assoc.
Qed.

Section Failure.

Context {C : Type} {client : Client C}.
Variable uuid4 : nat -> string.
Variable time : nat -> float.
Variable cfg : config.

Lemma send_Raise (fuel : nat) (payload topic : string) (s : state C) e t :
  send uuid4 fuel payload topic s = Raise e t ->
  exists detail, e = KafkaException detail /\
                 rejected topic payload detail (trace s) t.
Proof.
  revert s. induction fuel as [|fuel IH]; intros s; [done|].
  simpl. unfold bind, new_key, producer_produce. simpl.
  destruct (produce (producer s) topic (uuid4 (uuids s)) payload) as [r c] eqn:E.
  destruct r as [| |detail]; simpl.
  - done.
  - unfold backoff. rewrite producer_poll_log. simpl. intros Hs.
    apply IH in Hs as (detail & -> & R). exists detail. split; [done|].
    simpl in R. rewrite <- app_assoc in R.
    eapply rejected_more; [| |exact R].
    + simpl. rewrite !count_cons, count_callback_events by done. done.
    + simpl. rewrite !only_cons. simpl. apply quiet_callback_events.
  - unfold raise. simpl. intros [= <- <-]. exists detail. split; [done|].
    exists [], (uuid4 (uuids s)). done.
Qed.

Lemma sends_Raise (fuel n : nat) (payload topic : string) (m : Z) (s : state C) e t :
  repeat_ n (send uuid4 fuel payload topic ;; add_bytes_sent m) s = Raise e t ->
  exists detail, e = KafkaException detail /\
                 rejected topic payload detail (trace s) t.
Proof.
  revert s. induction n as [|n IH]; intros s; simpl; [done|].
  intros H. apply bind_Raise in H as [H|([] & s1 & H1 & H)].
  - apply bind_Raise in H as [H|([] & s1 & H1 & H)]; [|done].
    by apply send_Raise in H.
  - apply bind_Return in H1 as ([] & s0 & H0 & H1).
    apply send_effect in H0 as (_ & _ & _ & t0 & E0 & _ & F0 & _ & O0 & _).
    injection H1 as <-.
    apply IH in H as (detail & -> & R). exists detail. split; [done|].
    simpl in R. rewrite E0 in R. by eapply rejected_more.
Qed.

Lemma producer_poll_Raise timeout (s : state C) e t :
  producer_poll timeout s = Raise e t -> False.
Proof. by rewrite producer_poll_log. Qed.

Lemma batch_Raise (fuel : nat) (start : float) (s : state C) e t :
  batch uuid4 time cfg fuel start s = Raise e t ->
  aborted (JOB_TOPIC_NAME cfg) (MESSAGE cfg) e (trace s) t.
Proof.
  unfold batch. intros H.
  apply bind_Raise in H as [H|([] & s1 & H1 & H)];
    [by apply producer_poll_Raise in H|].
  rewrite producer_poll_log in H1. injection H1 as <-.
  assert (P : forall (c : C) x rs,
             count is_flush (Poll x rs :: callback_events rs) = 0%nat /\
             only is_stdout (Poll x rs :: callback_events rs) = []).
  { intros c x rs. rewrite count_cons, only_cons, count_callback_events by done.
    split; [done|]. apply quiet_callback_events. }
  eapply aborted_more; [apply (P (producer s))..|].
  apply bind_Raise in H as [H|([] & s2 & H2 & H)].
  { apply sends_Raise in H as (detail & -> & R). exact R. }
  apply sends_effect in H2 as (_ & _ & _ & t2 & E2 & _ & F2 & _ & O2 & _).
  simpl in E2. eapply (aborted_more _ _ _ _ t2); [done|done|]. rewrite <- E2.
  apply bind_Raise in H as [H|([] & s3 & H3 & H)];
    [by apply producer_poll_Raise in H|].
  rewrite producer_poll_log in H3. injection H3 as <-.
  eapply aborted_more; [apply (P (producer s))..|].
  apply bind_Raise in H as [H|(t1 & s4 & H4 & H)]; [done|]. injection H4 as <- <-.
  apply bind_Raise in H as [H|(sent_now & s5 & H5 & H)]; [done|].
  injection H5 as <- <-.
  apply bind_Raise in H as [H|(rate & s6 & H6 & H)].
  { apply lift_Raise in H as [H ->]. simpl.
    apply aborted_here. by eapply num_div_arithmetic. }
  apply lift_Return in H6 as [H6 ->].
  apply bind_Raise in H as [H|(sent & s7 & H7 & H)].
  { apply lift_Raise in H as [H ->]. simpl.
    apply aborted_here. by eapply fmt_units_arithmetic. }
  apply lift_Return in H7 as [H7 ->].
  apply bind_Raise in H as [H|(tput & s8 & H8 & H)].
  { apply lift_Raise in H as [H ->]. simpl.
    apply aborted_here. by eapply fmt_units_arithmetic. }
  apply lift_Return in H8 as [H8 ->].
  apply bind_Raise in H as [H|([] & s9 & H9 & H)]; done.
Qed.

Lemma batch_loop_Raise (fuel : nat) (start : float) (n : nat) (s : state C) e t :
  batch_loop uuid4 time cfg fuel start n s = Raise e t ->
  aborted (JOB_TOPIC_NAME cfg) (MESSAGE cfg) e (trace s) t.
Proof.
  revert s. induction n as [|n IH]; intros s; simpl; [done|].
  unfold bind at 1, get_running. destruct (running s); simpl; [|done].
  intros H. apply bind_Raise in H as [H|([] & s1 & H1 & H)].
  - by apply batch_Raise in H.
  - apply batch_effect in H1
      as (_ & _ & _ & t1 & rate & sent & tput & E1 & _ & (F1 & _ & O1 & _) & _).
    apply IH in H. rewrite E1 in H.
    eapply aborted_more; [| |exact H].
    + by rewrite count_app, F1.
    + by rewrite only_app, O1.
Qed.

Lemma with_tqdm_Raise {A} (total : Z) (body : M C A) (s : state C) e t :
  with_tqdm total body s = Raise e t ->
  exists t1, body (log s [BarOpen total]) = Raise e t1 /\ t = t1 ++ [BarClose].
Proof.
  unfold with_tqdm, bind, emit. fold (log s [BarOpen total]).
  destruct (body _) as [a1 s1|e1 t1|]; [done| |done].
  intros [= <- <-]. by exists t1.
Qed.

(** A run that raises has printed nothing; when the exception is the
    client's, it comes from a call of [produce], which is the last thing the
    run did before it closed the bar, and nothing was flushed. *)
Lemma run_Raise (fuel : nat) (s : state C) e t :
  run uuid4 time cfg fuel s = Raise e t ->
  unprinted (trace s) t /\
  forall detail, e = KafkaException detail ->
    exists batches t' key,
      t = trace s ++ BarOpen batches :: t'
          ++ [Produce (JOB_TOPIC_NAME cfg) key (MESSAGE cfg) (Rejected detail); BarClose] /\
      count is_flush t' = 0%nat /\ only is_stdout t' = [].
Proof.
  unfold run. intros H.
  apply bind_Raise in H as [H|([total_messages batches] & s1 & H1 & H)].
  { apply lift_Raise in H as [H ->]. split.
    - exists []. by rewrite app_nil_r.
    - intros detail ->. by apply plan_arithmetic in H. }
  apply lift_Return in H1 as [H1 ->].
  apply bind_Raise in H as [H|(start & s2 & H2 & H)]; [done|].
  injection H2 as <- <-.
  apply bind_Raise in H as [H|(how' & s3 & H3 & H)].
  { apply with_tqdm_Raise in H as (t1 & H & ->).
    apply batch_loop_Raise in H. simpl in H. split.
    - destruct e; simpl in H.
      4: { destruct H as (t' & key & -> & _ & O). eexists. split.
           - rewrite <- !app_assoc. reflexivity.
           - simpl. rewrite only_cons, only_app, O, !only_cons. done. }
      all: destruct H as (t' & -> & O); eexists; split;
        [rewrite <- !app_assoc; reflexivity|];
        simpl; rewrite only_cons, !only_app, O; done.
    - intros detail ->. simpl in H. destruct H as (t' & key & -> & F & O).
      exists batches, t', key. split; [|done].
      rewrite <- !app_assoc. done. }
  apply with_tqdm_Return in H3 as (s4 & H3 & ->).
  apply batch_loop_effect in H3 as (_ & t3 & E3 & _ & O3 & _).
  apply bind_Raise in H as [H|([] & s5 & H5 & H)]; [|done].
  unfold finish in H.
  apply bind_Raise in H as [H|([] & s6 & H6 & H)];
    [by rewrite producer_flush_log in H|].
  rewrite producer_flush_log in H6. injection H6 as <-.
  apply bind_Raise in H as [H|(total & s7 & H7 & H)]; [done|].
  injection H7 as <- <-.
  apply bind_Raise in H as [H|(scaled & s8 & H8 & H)].
  { apply lift_Raise in H as [H ->]. simpl. split.
    - eexists. rewrite E3. simpl. split; [rewrite <- !app_assoc; reflexivity|].
      simpl. rewrite only_cons, !only_app, O3, !only_cons. simpl.
      apply quiet_callback_events.
    - intros detail ->. by apply fmt_units_arithmetic in H. }
  apply lift_Return in H8 as [H8 ->].
  apply bind_Raise in H as [H|([] & s9 & H9 & H)]; [done|].
  injection H9 as <-.
  apply bind_Raise in H as [H|(last & s10 & H10 & H)]; [|done].
  apply lift_Raise in H as [H _]. by rewrite fmt_rate_zero in H.
Qed.

End Failure.

(** ** Runs that return *)

Lemma nonneg_ltb_zero x : nonneg x -> ltb x (Fin 0 0) = false.
Proof.
  destruct x as [m e|[]|]; simpl; try done. intros Hm.
  unfold cmp_dyadic. rewrite Z.mul_0_l.
  assert (0 < 2 ^ (e - Z.min e 0)) by (apply Z.pow_pos_nonneg; lia).
  destruct (Z.compare_spec (m * 2 ^ (e - Z.min e 0)) 0); [done| |done]. nia.
Qed.

Lemma fmax_epsilon_cases y : fmax y epsilon = NaN \/ positive (fmax y epsilon).
Proof.
  unfold fmax. destruct (ltb y epsilon) eqn:Hl.
  - right. by rewrite epsilon_value.
  - revert Hl. rewrite epsilon_value.
    destruct y as [m e|[]|]; [|done|by right|by left]. simpl. unfold cmp_dyadic.
    assert (0 < 2 ^ (-82 - Z.min e (-82))) by (apply Z.pow_pos_nonneg; lia).
    assert (0 < 2 ^ (e - Z.min e (-82))) by (apply Z.pow_pos_nonneg; lia).
    destruct (Z.compare_spec (m * 2 ^ (e - Z.min e (-82)))
                (4835703278458517 * 2 ^ (-82 - Z.min e (-82)))); [|done|];
      intros _; right; nia.
Qed.

Lemma rate_renderable n x y :
  0 <= n -> of_int n = inr x ->
  exists rate,
    num_div (Int n) (fmax y epsilon) = inr rate /\
    canonical rate /\ ltb rate (Fin 0 0) = false.
Proof.
  intros Hn Hx. unfold num_div. simpl to_float. rewrite Hx.
  destruct (fmax_epsilon_cases y) as [->|Hp].
  - destruct (of_int_finite n x Hx) as (m & e & ->). by exists NaN.
  - destruct (div_nonneg x (fmax y epsilon)) as (r & D & Cr & Nr);
      [by eapply of_int_canonical | by eapply of_int_nonneg
      | by eapply of_int_finite' | done |].
    exists r. split_and!; [done..|]. by apply nonneg_ltb_zero.
Qed.

Lemma fmt_bytes_total n :
  0 <= n < 2 ^ 1023 -> exists s, _fmt_bytes (Int n) = inr s.
Proof.
  intros Hn. destruct (of_int_total n Hn) as [x Hx].
  destruct (fmt_units_rendered 3 ["B"; "KB"; "MB"; "GB"; "TB"] "PB" (Int n) x)
    as (s & Hs & _); [done|by eapply of_int_canonical| |by exists s].
  cbn [num_ltb]. apply nonneg_ltb_zero. simpl. lia.
Qed.

Lemma fmt_rate_total rate :
  canonical rate -> ltb rate (Fin 0 0) = false ->
  exists s, _fmt_rate (Flt rate) = inr s.
Proof.
  intros Hc H0.
  destruct (fmt_units_rendered 2 ["B/s"; "KB/s"; "MB/s"; "GB/s"; "TB/s"] "PB/s"
              (Flt rate) rate) as (s & Hs & _); [done..|by exists s].
Qed.

Lemma round_pos_finite n d :
  0 < n < 2 ^ 1023 -> 0 < d -> exists m e, round_pos n d = Fin m e.
Proof.
  intros Hn Hd.
  pose proof (ilog2_spec n d ltac:(lia) ltac:(lia)) as [L _].
  unfold round_pos. cbv zeta. unfold prec, emin, emax. change (53 - 1) with 52.
  set (k := ilog2 n d) in *.
  assert (Hk : k <= 1022).
  { destruct (Z.le_gt_cases k 1022); [done|exfalso].
    rewrite !shl_pw, pw_nonneg, (pw_nonpos (- k)) in L by lia.
    assert (2 ^ 1023 <= 2 ^ k) by (apply Z.pow_le_mono_r; lia). nia. }
  set (m := rne _ _).
  destruct (m =? 0); [by eexists _, _|].
  destruct (m =? 2 ^ 53).
  - destruct (Z.ltb_spec 971 (Z.max (k - 52) (-1074) + 1)); [lia|by eexists _, _].
  - destruct (Z.ltb_spec 971 (Z.max (k - 52) (-1074))); [lia|by eexists _, _].
Qed.

Lemma int_truediv_total a b :
  0 <= a < 2 ^ 1023 -> 0 < b -> exists x, int_truediv a b = inr x.
Proof.
  intros Ha Hb. unfold int_truediv. destruct (Z.eqb_spec b 0); [lia|].
  rewrite Z.sgn_pos, Z.abs_eq, Z.mul_1_r by lia. unfold round.
  destruct (Z.compare_spec a 0); [by eexists|lia|].
  destruct (round_pos_finite a b) as (m & e & ->); [lia|lia|by eexists].
Qed.

Lemma plan_exact0 (cfg : config) :
  0 <= JOB_MAX_BYTES cfg < 2 ^ 53 -> 0 < JOB_MSG_BYTES cfg < 2 ^ 53 ->
  0 < JOB_BATCH_SIZE cfg < 2 ^ 53 ->
  plan cfg =
    inr (ceiling (JOB_MAX_BYTES cfg) (JOB_MSG_BYTES cfg),
         ceiling (ceiling (JOB_MAX_BYTES cfg) (JOB_MSG_BYTES cfg)) (JOB_BATCH_SIZE cfg)).
Proof.
  intros HT HM HB. destruct (Z.eq_dec (JOB_MAX_BYTES cfg) 0) as [E|E].
  - unfold plan. rewrite E, ceil_div_zero.
    destruct (Z.eqb_spec (JOB_MSG_BYTES cfg) 0); [lia|].
    rewrite ceil_div_zero.
    destruct (Z.eqb_spec (JOB_BATCH_SIZE cfg) 0); [lia|]. done.
  - apply plan_exact; lia.
Qed.

Lemma bind_eq {C A B} (m : M C A) (k : A -> M C B) s a s1 :
  m s = Return a s1 -> bind m k s = k a s1.
Proof. unfold bind. by intros ->. Qed.

Section Total.

Context {C : Type} {client : Client C}.
Variable uuid4 : nat -> string.
Variable time : nat -> float.
Variable cfg : config.

(** The states that the client goes through, and a bound on the refusals
    of one message. *)
Variable Inv : C -> Prop.
Variable K : nat.

Hypothesis Inv_produce :
  forall c key, Inv c -> Inv (produce c (JOB_TOPIC_NAME cfg) key (MESSAGE cfg)).2.
Hypothesis Inv_poll : forall c timeout, Inv c -> Inv (poll c timeout).2.
Hypothesis accepts :
  forall c i, Inv c -> exists k, (k <= K)%nat /\ refuses uuid4 k (MESSAGE cfg) (JOB_TOPIC_NAME cfg) c i.

Lemma Inv_send_client k c i : Inv c -> Inv (send_client uuid4 k (MESSAGE cfg) (JOB_TOPIC_NAME cfg) c i).
Proof.
  revert c i. induction k as [|k IH]; intros c i Hc; simpl.
  - by apply Inv_produce.
  - by apply IH, Inv_poll, Inv_produce.
Qed.

Lemma send_total (fuel : nat) (s : state C) :
  Inv (producer s) -> (K < fuel)%nat ->
  exists s', send uuid4 fuel (MESSAGE cfg) (JOB_TOPIC_NAME cfg) s = Return tt s' /\
             Inv (producer s') /\ running s' = running s /\
             ticks s' = ticks s /\ bytes_sent s' = bytes_sent s.
Proof.
  intros Hi Hf. destruct (accepts (producer s) (uuids s) Hi) as (k & Hk & Hr).
  eexists. split; [apply (send_refused _ k); [done|lia]|].
  simpl. split_and!; [|done..]. by apply Inv_send_client.
Qed.

Lemma sends_total (fuel n : nat) (m : Z) (s : state C) :
  Inv (producer s) -> (K < fuel)%nat ->
  exists s', repeat_ n (send uuid4 fuel (MESSAGE cfg) (JOB_TOPIC_NAME cfg) ;; add_bytes_sent m) s
               = Return tt s' /\
             Inv (producer s') /\ running s' = running s /\
             ticks s' = ticks s /\ bytes_sent s' = bytes_sent s + m * Z.of_nat n.
Proof.
  intros Hi Hf. revert s Hi. induction n as [|n IH]; intros s Hi.
  - exists s. simpl. split_and!; [done..|lia].
  - destruct (send_total fuel s Hi Hf) as (s0 & H0 & I0 & R0 & T0 & B0).
    simpl. rewrite (bind_eq _ _ s tt
      (Make (producer s0) (uuids s0) (ticks s0) (trace s0) (running s0)
            (bytes_sent s0 + m))) by (by rewrite (bind_eq _ _ _ _ _ H0)).
    destruct (IH (Make (producer s0) (uuids s0) (ticks s0) (trace s0) (running s0)
                    (bytes_sent s0 + m)) I0) as (s' & H & I & R & T & B).
    exists s'. simpl in *. split_and!; [done|done|congruence|congruence|lia].
Qed.

Lemma batch_total (fuel : nat) (start : float) (s : state C) :
  Inv (producer s) -> (K < fuel)%nat ->
  0 <= bytes_sent s + batch_bytes cfg < 2 ^ 1023 ->
  exists s', batch uuid4 time cfg fuel start s = Return tt s' /\
             Inv (producer s') /\ running s' = running s /\
             bytes_sent s' = bytes_sent s + batch_bytes cfg.
Proof.
  intros Hi Hf Hb. unfold batch.
  rewrite (bind_eq _ _ _ _ _ (producer_poll_log _ _)).
  set (s1 := log _ _).
  destruct (sends_total fuel (Z.to_nat (JOB_BATCH_SIZE cfg)) (JOB_MSG_BYTES cfg) s1)
    as (s2 & H2 & I2 & R2 & T2 & B2); [by apply Inv_poll|done|].
  rewrite (bind_eq _ _ _ _ _ H2), (bind_eq _ _ _ _ _ (producer_poll_log _ _)).
  set (s3 := log _ _).
  unfold bind at 1, now. unfold bind at 1, get_bytes_sent. simpl.
  assert (B3 : bytes_sent s2 = bytes_sent s + batch_bytes cfg) by (rewrite B2; done).
  rewrite B3.
  destruct (of_int_total (bytes_sent s + batch_bytes cfg) Hb) as [x Hx].
  destruct (rate_renderable (bytes_sent s + batch_bytes cfg) x
              (sub (time (ticks s2)) start) ltac:(lia) Hx) as (rate & D & Cr & Zr).
  destruct (fmt_bytes_total (bytes_sent s + batch_bytes cfg) Hb) as [sent Hsent].
  destruct (fmt_rate_total rate Cr Zr) as [tput Htput].
  unfold bind, lift. rewrite D. unfold ret. rewrite Hsent, Htput. simpl.
  eexists. split; [reflexivity|]. simpl. split_and!; [by apply Inv_poll|done|done].
Qed.

Lemma batch_loop_total (fuel : nat) (start : float) (n : nat) (s : state C) :
  Inv (producer s) -> (K < fuel)%nat -> running s = true ->
  0 <= batch_bytes cfg -> 0 <= bytes_sent s -> bytes_sent s + Z.of_nat n * batch_bytes cfg < 2 ^ 1023 ->
  exists s', batch_loop uuid4 time cfg fuel start n s = Return Exhausted s' /\
             Inv (producer s') /\ running s' = true /\
             bytes_sent s' = bytes_sent s + Z.of_nat n * batch_bytes cfg.
Proof.
  intros Hi Hf. revert s Hi. induction n as [|n IH]; intros s Hi R Hp H0 Hb.
  - exists s. simpl. split_and!; [done..|lia].
  - simpl. unfold bind at 1, get_running. rewrite R. simpl.
    destruct (batch_total fuel start s Hi Hf) as (s1 & H1 & I1 & R1 & B1); [nia|].
    rewrite (bind_eq _ _ _ _ _ H1).
    destruct (IH s1 I1) as (s' & H & I & R' & B); [congruence|done|lia|nia|].
    exists s'. split_and!; [done..|]. rewrite B, B1. lia.
Qed.

Lemma with_tqdm_eq {A} (total : Z) (body : M C A) (s s1 : state C) (a : A) :
  body (log s [BarOpen total]) = Return a s1 ->
  with_tqdm total body s = Return a (log s1 [BarClose]).
Proof.
  intros H. unfold with_tqdm, bind, emit. fold (log s [BarOpen total]).
  by rewrite H.
Qed.

Lemma finish_total (s : state C) :
  0 <= bytes_sent s < 2 ^ 1023 ->
  exists s', finish (Fin 0 0) s = Return tt s'.
Proof.
  intros Hb. unfold finish.
  rewrite (bind_eq _ _ _ _ _ (producer_flush_log _)).
  unfold bind at 1, get_bytes_sent. simpl.
  destruct (fmt_bytes_total (bytes_sent s) Hb) as [scaled Hs].
  unfold bind, lift. rewrite Hs. by eexists.
Qed.

Lemma run_total (fuel : nat) (s : state C) :
  0 <= JOB_MAX_BYTES cfg < 2 ^ 53 -> 0 < JOB_MSG_BYTES cfg < 2 ^ 53 ->
  0 < JOB_BATCH_SIZE cfg < 2 ^ 53 ->
  Inv (producer s) -> (K < fuel)%nat -> running s = true ->
  0 <= bytes_sent s < 2 ^ 53 ->
  exists s', run uuid4 time cfg fuel s = Return Exhausted s'.
Proof.
  intros HT HM HB Hi Hf R H0. unfold run.
  rewrite plan_exact0 by done. simpl lift. unfold bind at 1, ret.
  unfold bind at 1, now.
  set (total := ceiling (JOB_MAX_BYTES cfg) (JOB_MSG_BYTES cfg)).
  set (batches := ceiling total (JOB_BATCH_SIZE cfg)).
  assert (0 <= total <= JOB_MAX_BYTES cfg) as Ht.
  { unfold total. destruct (Z.eq_dec (JOB_MAX_BYTES cfg) 0) as [->|].
    - done.
    - pose proof (ceiling_bounds (JOB_MAX_BYTES cfg) (JOB_MSG_BYTES cfg)). lia. }
  assert (0 <= batches <= total) as Hn.
  { unfold batches. destruct (Z.eq_dec total 0) as [->|].
    - done.
    - pose proof (ceiling_bounds total (JOB_BATCH_SIZE cfg)). lia. }
  assert (Hper : 0 <= batch_bytes cfg < 2 ^ 106).
  { unfold batch_bytes. rewrite Z2Nat.id by lia. assert (2 ^ 106 = 2 ^ 53 * 2 ^ 53) by done.
    nia. }
  assert (Hall : Z.of_nat (Z.to_nat batches) * batch_bytes cfg < 2 ^ 159).
  { rewrite Z2Nat.id by lia. assert (2 ^ 159 = 2 ^ 53 * 2 ^ 106) by done. nia. }
  assert (2 ^ 53 + 2 ^ 159 < 2 ^ 1023) by done.
  match goal with |- context [with_tqdm batches ?b] => set (body := b) end.
  destruct (batch_loop_total fuel (time (ticks s)) (Z.to_nat batches)
              (log (Make (producer s) (uuids s) (S (ticks s)) (trace s) (running s)
                      (bytes_sent s)) [BarOpen batches]))
    as (s1 & H1 & I1 & R1 & B1); simpl; [done|done|done|lia|lia|lia|].
  rewrite (bind_eq _ _ _ _ _ (with_tqdm_eq batches body _ _ _ H1)).
  destruct (finish_total (log s1 [BarClose])) as [s' H']; [simpl in *; lia|].
  rewrite (bind_eq _ _ _ _ _ H'). by eexists.
Qed.

End Total.

(** ** [main] *)

Lemma num_ltb_int_large n : 1024 <= n -> num_ltb (Int n) f1024 = false.
Proof.
  intros Hn. destruct (num_ltb (Int n) f1024) eqn:E; [|done].
  apply num_ltb_int_true in E. lia.
Qed.

Lemma fmt_units_overflow d u units last n :
  2 ^ 1024 <= n -> fmt_units d (u :: units) last (Int n) = inl OverflowError.
Proof.
  intros Hn. assert (0 < 2 ^ 1024) by done. assert (2 ^ 1024 = 1024 * 2 ^ 1014) by done.
  assert (0 < 2 ^ 1014) by done.
  cbn [fmt_units]. rewrite num_ltb_int_large by lia.
  unfold num_div. cbn [to_float]. by rewrite of_int_overflow.
Qed.

Lemma length_str_repeat (c : ascii) (n : Z) :
  String.length (str_repeat (String c "") n) = Z.to_nat n.
Proof.
  unfold str_repeat. destruct (Z.to_nat n) as [|k]; [done|].
  induction k as [|k IH]; [done|].
  change (S (String.length (String.concat "" (replicate (S k) (String c ""))))
          = S (S k)).
  by rewrite IH.
Qed.

Section Main.

Context {C : Type} {client : Client C}.
Variable uuid4 : nat -> string.
Variable time : nat -> float.
Variable cfg : config.

Lemma main_Raise (fuel : nat) e t :
  main uuid4 time cfg fuel = Raise e t ->
  (producer_settings cfg = inl e /\ t = banner cfg) \/
  (exists settings detail,
     producer_settings cfg = inr settings /\ Producer settings = inl detail /\
     e = KafkaException detail /\ t = banner cfg) \/
  exists settings c,
    producer_settings cfg = inr settings /\ Producer settings = inr c /\
    run uuid4 time cfg fuel (initial cfg c) = Raise e t.
Proof.
  unfold main. destruct (producer_settings cfg) as [e'|settings].
  - intros [= <- <-]. by left.
  - destruct (Producer settings) as [detail|c] eqn:E.
    + intros [= <- <-]. right. left. by exists settings, detail.
    + intros H. right. right. by exists settings, c.
Qed.

Lemma producer_settings_batch_size settings :
  producer_settings cfg = inr settings ->
  settings !! "batch.size" = Some (VInt (JOB_MSG_BYTES cfg * JOB_BATCH_SIZE cfg)).
Proof.
  unfold producer_settings.
  destruct (int_truediv _ _) as [e|kbytes]; [done|]. by intros [= <-].
Qed.

Lemma producer_settings_arithmetic e :
  producer_settings cfg = inl e -> arithmetic e.
Proof.
  unfold producer_settings. destruct (int_truediv _ _) as [e'|x] eqn:E; [|done].
  intros [= <-]. by eapply int_truediv_arithmetic.
Qed.

Lemma producer_settings_total :
  0 <= JOB_MSG_BYTES cfg < 2 ^ 53 -> 0 <= JOB_BATCH_SIZE cfg < 2 ^ 53 ->
  exists settings, producer_settings cfg = inr settings.
Proof.
  intros HM HB. unfold producer_settings.
  destruct (int_truediv_total (JOB_MSG_BYTES cfg * JOB_BATCH_SIZE cfg) 1024)
    as [x ->]; [|lia|by eexists].
  assert (2 ^ 53 * 2 ^ 53 < 2 ^ 1023) by done. nia.
Qed.

End Main.

(** ** The simulated client *)

Lemma sim_bounded_produce cap c topic key payload :
  sim_bounded cap c -> sim_bounded cap (Sim.sim_produce c topic key payload).2.
Proof.
  intros [Hc Hq]. unfold Sim.sim_produce.
  destruct (Nat.ltb_spec (length (Sim.queue c)) (Sim.capacity c)); [|done].
  split; [done|]. simpl. rewrite length_app. simpl. lia.
Qed.

Lemma sim_bounded_poll cap c timeout :
  sim_bounded cap c -> sim_bounded cap (Sim.sim_poll c timeout).2.
Proof.
  intros [Hc Hq]. unfold Sim.sim_poll.
  destruct timeout as [[|p|p] e|s|], (Sim.queue c) as [|i q] eqn:E;
    simpl; split; simpl in *; try done; rewrite ?E; simpl; lia.
Qed.

Lemma sim_accepts cap bad (uuid4 : nat -> string) payload topic c i :
  (0 < cap)%nat -> sim_bounded cap c ->
  exists k, (k <= 1)%nat /\
            refuses (client := Sim.client cap bad) uuid4 k payload topic c i.
Proof.
  intros Hcap [Hc Hq].
  destruct (Nat.ltb_spec (length (Sim.queue c)) (Sim.capacity c)) as [Hl|Hl].
  - exists 0%nat. split; [lia|]. simpl. unfold Sim.sim_produce.
    destruct (Nat.ltb_spec (length (Sim.queue c)) (Sim.capacity c)); [done|lia].
  - exists 1%nat. split; [lia|]. cbn [refuses produce poll Sim.client].
    change (round 1 10) with (Fin 7205759403792794 (-56)).
    assert (P : forall key, Sim.sim_produce c topic key payload = (BufferError, c)).
    { intros key. unfold Sim.sim_produce.
      destruct (Nat.ltb_spec (length (Sim.queue c)) (Sim.capacity c)); [lia|done]. }
    rewrite !P. cbn [fst snd]. split; [done|].
    destruct (Sim.queue c) as [|j q] eqn:E; [simpl in *; lia|].
    unfold Sim.sim_poll. rewrite E. cbn [snd]. unfold Sim.sim_produce. cbn [Sim.queue].
    simpl in Hq.
    destruct (Nat.ltb_spec (length q) (Sim.capacity
      {| Sim.capacity := Sim.capacity c; Sim.failing := Sim.failing c;
         Sim.queue := q; Sim.next := Sim.next c |})); [done|simpl in *; lia].
Qed.

(** ** The error stream *)

Lemma logged_nil : logged [].
Proof. done. Qed.

Lemma logged_app t1 t2 : logged t1 -> logged t2 -> logged (t1 ++ t2).
Proof.
  unfold logged. intros H1 H2.
  by rewrite only_app, reports_app, callback_events_app, H1, H2.
Qed.

Lemma logged_poll timeout rs : logged (Poll timeout rs :: callback_events rs).
Proof.
  unfold logged. rewrite only_cons, reports_cons. simpl.
  by rewrite only_stderr_callback_events, reports_callback_events, app_nil_r.
Qed.

Lemma logged_flush rs : logged (Flush rs :: callback_events rs).
Proof.
  unfold logged. rewrite only_cons, reports_cons. simpl.
  by rewrite only_stderr_callback_events, reports_callback_events, app_nil_r.
Qed.

Lemma length_callback_events rs :
  length (callback_events rs) = length (filter (fun r => is_Some (err r)) rs).
Proof.
  induction rs as [|r rs IH]; [done|].
  unfold callback_events in *. simpl. rewrite length_app, IH.
  unfold callback_line. destruct (err r) as [e|] eqn:E.
  - rewrite filter_cons_True by (rewrite E; eauto). done.
  - rewrite filter_cons_False; [done|]. rewrite E. by intros [? [=]].
Qed.

Section Logged.

Context {C : Type} {client : Client C}.
Variable uuid4 : nat -> string.
Variable time : nat -> float.
Variable cfg : config.

Lemma send_logged (fuel : nat) (payload topic : string) (s s' : state C) :
  send uuid4 fuel payload topic s = Return tt s' ->
  exists t, trace s' = trace s ++ t /\ logged t.
Proof.
  intros Hs. destruct (send_Return _ _ _ _ _ _ Hs) as (k & Hk & Hr).
  rewrite (send_refused _ k fuel) in Hs by done. injection Hs as <-. simpl.
  eexists. split; [done|]. apply stderr_send_trace.
Qed.

Lemma sends_logged (fuel n : nat) (payload topic : string) (m : Z) (s s' : state C) :
  repeat_ n (send uuid4 fuel payload topic ;; add_bytes_sent m) s = Return tt s' ->
  exists t, trace s' = trace s ++ t /\ logged t.
Proof.
  revert s. induction n as [|n IH]; intros s; simpl.
  - intros [= <-]. exists []. by rewrite app_nil_r.
  - intros H. apply bind_Return in H as ([] & s1 & H1 & H).
    apply bind_Return in H1 as ([] & s0 & H0 & H1).
    apply send_logged in H0 as (t0 & E0 & L0).
    injection H1 as <-. simpl in H.
    apply IH in H as (t & E & L). simpl in *.
    exists (t0 ++ t). rewrite E, E0, <- app_assoc. split; [done|].
    by apply logged_app.
Qed.

Lemma batch_logged (fuel : nat) (start : float) (s s' : state C) :
  batch uuid4 time cfg fuel start s = Return tt s' ->
  exists t, trace s' = trace s ++ t /\ logged t.
Proof.
  unfold batch. intros H.
  apply bind_Return in H as ([] & s1 & H1 & H).
  rewrite producer_poll_log in H1. injection H1 as <-.
  apply bind_Return in H as ([] & s2 & H2 & H).
  apply sends_logged in H2 as (t2 & E2 & L2).
  apply bind_Return in H as ([] & s3 & H3 & H).
  rewrite producer_poll_log in H3. injection H3 as <-.
  apply bind_Return in H as (t1 & s4 & H4 & H). injection H4 as <- <-.
  apply bind_Return in H as (sent_now & s5 & H5 & H). injection H5 as <- <-.
  apply bind_Return in H as (rate & s6 & H6 & H).
  apply lift_Return in H6 as [H6 ->].
  apply bind_Return in H as (sent & s7 & H7 & H).
  apply lift_Return in H7 as [H7 ->].
  apply bind_Return in H as (tput & s8 & H8 & H).
  apply lift_Return in H8 as [H8 ->].
  apply bind_Return in H as ([] & s9 & H9 & H). injection H9 as <-.
  injection H as <-. simpl in *.
  exists ((Poll (Fin 0 0) (poll (producer s) (Fin 0 0)).1
             :: callback_events (poll (producer s) (Fin 0 0)).1)
            ++ t2
            ++ (Poll (Fin 0 0) (poll (producer s2) (Fin 0 0)).1
                  :: callback_events (poll (producer s2) (Fin 0 0)).1)
            ++ [BarPostfix sent tput; BarUpdate 1]).
  split.
  - rewrite E2. simpl. by rewrite <- !app_assoc.
  - apply logged_app; [apply logged_poll|].
    apply logged_app; [done|].
    apply logged_app; [apply logged_poll|done].
Qed.

Lemma batch_loop_logged (fuel : nat) (start : float) (n : nat)
    (s s' : state C) (how : loop_exit) :
  batch_loop uuid4 time cfg fuel start n s = Return how s' ->
  exists t, trace s' = trace s ++ t /\ logged t.
Proof.
  revert s. induction n as [|n IH]; intros s; simpl.
  - intros [= <- <-]. exists []. by rewrite app_nil_r.
  - unfold bind at 1, get_running. destruct (running s); simpl.
    + intros H. apply bind_Return in H as ([] & s1 & H1 & H).
      apply batch_logged in H1 as (t1 & E1 & L1).
      apply IH in H as (t & E & L).
      exists (t1 ++ t). rewrite E, E1, <- app_assoc. split; [done|].
      by apply logged_app.
    + intros [= <- <-]. exists []. by rewrite app_nil_r.
Qed.

Lemma run_logged (fuel : nat) (s s' : state C) (how : loop_exit) :
  run uuid4 time cfg fuel s = Return how s' ->
  exists batches t,
    trace s' = trace s ++ BarOpen batches :: t /\ logged t /\ BarClose ∈ t.
Proof.
  unfold run. intros H.
  apply bind_Return in H as ([total_messages batches] & s1 & H1 & H).
  apply lift_Return in H1 as [H1 ->].
  apply bind_Return in H as (start & s2 & H2 & H). injection H2 as <- <-.
  apply bind_Return in H as (how' & s3 & H3 & H).
  apply with_tqdm_Return in H3 as (s4 & H3 & ->).
  apply batch_loop_logged in H3 as (t & E3 & L3).
  apply bind_Return in H as ([] & s5 & H5 & H). injection H as <- <-.
  apply finish_effect in H5 as (_ & _ & scaled & last & _ & _ & E5).
  simpl in *.
  exists batches,
    (t ++ [BarClose]
       ++ (Flush (flush (producer s4)).1 :: callback_events (flush (producer s4)).1)
       ++ [Stdout ("Total bytes sent: " +:+ str_int (bytes_sent s4)
                   +:+ " (" +:+ scaled +:+ ")");
           Stdout ("Last-batch throughput: " +:+ last)]).
  split_and!.
  - rewrite E5, E3. simpl. by rewrite <- !app_assoc.
  - apply logged_app; [done|].
    apply (logged_app [_]); [done|].
    apply logged_app; [apply logged_flush|done].
  - apply elem_of_app. right. apply elem_of_app. left. apply list_elem_of_singleton.
    done.
Qed.

End Logged.

(** ** Properties of the formatters, of the plan and of the run *)

(** X1: for a number that is not below zero (an integer that converts to
    a float, or a float in canonical form, infinity and NaN included),
    [_fmt_bytes] returns the value divided by [1024] once per unit passed,
    with three decimals, then a space and the unit; the unit is the first
    of B, KB, MB, GB, TB under which the scaled value is below [1024.0],
    and PB when there is none. *)
Theorem fmt_bytes_selects_unit (n : num) (x : float) :
  to_float n = inr x -> canonical x -> num_ltb n (Fin 0 0) = false ->
  exists s : string,
    _fmt_bytes n = inr s /\
    rendered 3 ["B"; "KB"; "MB"; "GB"; "TB"] "PB" x s.
Proof. apply fmt_units_rendered. Qed.

(** X2: [_fmt_rate] selects its unit in the same way among B/s, KB/s,
    MB/s, GB/s, TB/s, with PB/s as the last resort, and prints the scaled
    value with two decimals. *)
Theorem fmt_rate_selects_unit (bps : num) (x : float) :
  to_float bps = inr x -> canonical x -> num_ltb bps (Fin 0 0) = false ->
  exists s : string,
    _fmt_rate bps = inr s /\
    rendered 2 ["B/s"; "KB/s"; "MB/s"; "GB/s"; "TB/s"] "PB/s" x s.
Proof. apply fmt_units_rendered. Qed.

Lemma fmt_units_below_zero d u units last (n : num) :
  num_ltb n (Fin 0 0) = true ->
  fmt_units d (u :: units) last n =
  match to_float n with
  | inl e => inl e
  | inr x => inr (format_f d x +:+ " " +:+ u)
  end.
Proof.
  intros H0. cbn [fmt_units]. unfold format_num.
  assert (num_ltb n f1024 = true) as ->; [|by destruct (to_float n)].
  destruct n as [z|y]; cbn [num_ltb] in *; by apply ltb_zero_f1024.
Qed.

Lemma of_int_opp n :
  0 < n ->
  of_int (- n) =
  match of_int n with
  | inl e => inl e
  | inr x => inr (opp x)
  end.
Proof.
  intros Hn. unfold of_int, round.
  destruct (Z.compare_spec (- n) 0); [lia| |lia].
  destruct (Z.compare_spec n 0); [lia|lia|].
  rewrite Z.opp_involutive. by destruct (round_pos n 1).
Qed.

Lemma of_int_negative_total z :
  - 2 ^ 1023 < z < 0 -> exists x, of_int z = inr x.
Proof.
  intros Hz. replace z with (- - z) by lia. rewrite of_int_opp by lia.
  destruct (of_int_total (- z)) as [x ->]; [lia|]. by eexists.
Qed.

Lemma of_int_negative_overflow z :
  z <= - 2 ^ 1024 -> of_int z = inl OverflowError.
Proof.
  intros Hz. assert (0 < 2 ^ 1024) by done.
  replace z with (- - z) by lia. rewrite of_int_opp by lia.
  by rewrite of_int_overflow by lia.
Qed.

(** X3: a number below zero is never scaled: it passes the test
    [n < 1024.0] at the first unit, so [_fmt_bytes] prints it whole in B and
    [_fmt_rate] in B/s when it converts to a float, and both raise the
    exception of the conversion when it does not.  Every float converts,
    and so does every integer above [- 2^1023], however large; an integer
    from [- 2^1024] down does not, and the formatters raise
    [OverflowError] for it. *)
Theorem negative_values_are_not_scaled (n : num) :
  num_ltb n (Fin 0 0) = true ->
  _fmt_bytes n =
    match to_float n with
    | inl e => inl e
    | inr x => inr (format_f 3 x +:+ " B")
    end /\
  _fmt_rate n =
    match to_float n with
    | inl e => inl e
    | inr x => inr (format_f 2 x +:+ " B/s")
    end /\
  (forall x : float, n = Flt x -> to_float n = inr x) /\
  (forall z : Z, n = Int z -> - 2 ^ 1023 < z -> exists x, to_float n = inr x) /\
  (forall z : Z, n = Int z -> z <= - 2 ^ 1024 -> to_float n = inl OverflowError).
Proof.
  intros H0. split_and!.
  - by apply fmt_units_below_zero.
  - by apply fmt_units_below_zero.
  - by intros x ->.
  - intros z -> Hz. cbn [to_float]. apply of_int_negative_total. split; [done|].
    destruct (Z.lt_ge_cases z 0); [done|exfalso].
    assert (num_ltb (Int z) (Fin 0 0) = false); [|congruence].
    cbn [num_ltb]. apply nonneg_ltb_zero. simpl. lia.
  - intros z -> Hz. cbn [to_float]. by apply of_int_negative_overflow.
Qed.

(** X4: on integers, [_fmt_bytes] returns a string for every [n] from
    zero to below [2^1023]; from [2^1024] on, [_fmt_bytes] and [_fmt_rate]
    raise [OverflowError], at the division by [1024.0] that has to convert
    [n], instead of falling back to the last unit. *)
Theorem fmt_bytes_int_range (n : Z) :
  (0 <= n < 2 ^ 1023 -> exists s : string, _fmt_bytes (Int n) = inr s) /\
  (2 ^ 1024 <= n ->
   _fmt_bytes (Int n) = inl OverflowError /\ _fmt_rate (Int n) = inl OverflowError).
Proof.
  split.
  - apply fmt_bytes_total.
  - intros Hn. split; by apply fmt_units_overflow.
Qed.

(** X5: whatever finite number they are given, negative ones included,
    the strings the two formatters return read as an integer part (digits
    in groups of three separated by commas, after a minus sign or none), a
    point, exactly three decimal digits for [_fmt_bytes] and two for
    [_fmt_rate], a space and one of the six units. *)
Theorem fmt_fixed_decimals (n : num) (m e : Z) (s : string) :
  to_float n = inr (Fin m e) -> canonical (Fin m e) ->
  (_fmt_bytes n = inr s ->
   fixed_point 3 ["B"; "KB"; "MB"; "GB"; "TB"; "PB"] s) /\
  (_fmt_rate n = inr s ->
   fixed_point 2 ["B/s"; "KB/s"; "MB/s"; "GB/s"; "TB/s"; "PB/s"] s).
Proof.
  intros Hx Hc. split; intros Hs.
  - by apply (fmt_units_fixed_point 2 ["B"; "KB"; "MB"; "GB"; "TB"] "PB" n m e).
  - by apply (fmt_units_fixed_point 1 ["B/s"; "KB/s"; "MB/s"; "GB/s"; "TB/s"] "PB/s"
                n m e).
Qed.

(** X6: the throughput [bytes_sent / max(time.time() - start, 1e-9)] of a
    counter that is not negative and converts to a float is computed
    without [ZeroDivisionError] whatever the two clock readings are (equal,
    going backwards, infinite or NaN); the rate is a canonical float, it is
    not below zero, and [_fmt_rate] accepts it.  When the elapsed time is
    below [1e-9] the rate is the counter divided by [1e-9]. *)
Theorem throughput_never_divides_by_zero (n : Z) (x t1 start : float) :
  0 <= n -> of_int n = inr x ->
  exists (rate : float) (tput : string),
    num_div (Int n) (fmax (sub t1 start) epsilon) = inr rate /\
    _fmt_rate (Flt rate) = inr tput /\
    canonical rate /\ ltb rate (Fin 0 0) = false /\
    (ltb (sub t1 start) epsilon = true -> div x epsilon = inr rate).
Proof.
  intros Hn Hx.
  destruct (rate_renderable n x (sub t1 start) Hn Hx) as (rate & D & Cr & Zr).
  destruct (fmt_rate_total rate Cr Zr) as [tput Ht].
  exists rate, tput. split_and!; [done..|].
  intros Hl. revert D. unfold fmax, num_div. rewrite Hl. cbn [to_float].
  by rewrite Hx.
Qed.

(** X8: for a target from zero to below [2^53] and a message size and a
    batch size from one to below [2^53], lines 93-94 compute the exact
    ceilings: the number of messages is the least whose bytes reach the
    target, and the number of batches the ceiling of that over the batch
    size. *)
Theorem plan_is_exact_below_2_53 (cfg : config) :
  0 <= JOB_MAX_BYTES cfg < 2 ^ 53 -> 0 < JOB_MSG_BYTES cfg < 2 ^ 53 ->
  0 < JOB_BATCH_SIZE cfg < 2 ^ 53 ->
  plan cfg =
    inr (ceiling (JOB_MAX_BYTES cfg) (JOB_MSG_BYTES cfg),
         ceiling (ceiling (JOB_MAX_BYTES cfg) (JOB_MSG_BYTES cfg))
           (JOB_BATCH_SIZE cfg)) /\
  (ceiling (JOB_MAX_BYTES cfg) (JOB_MSG_BYTES cfg) - 1) * JOB_MSG_BYTES cfg
    < JOB_MAX_BYTES cfg
    <= ceiling (JOB_MAX_BYTES cfg) (JOB_MSG_BYTES cfg) * JOB_MSG_BYTES cfg.
Proof.
  intros HT HM HB. split; [by apply plan_exact0|]. apply ceiling_spec. lia.
Qed.

(** X7: a run that ends has called [set_postfix] once per batch; the call
    of batch [i] (from zero) shows the counter after [i + 1] batches, through
    [_fmt_bytes], and that counter divided by the time since the start (the
    reading [i + 1] of the clock minus the reading [0], raised to [1e-9]
    when it is less), through [_fmt_rate]. *)
Theorem run_reports_progress_per_batch
    {C : Type} {client : Client C} (uuid4 : nat -> string) (time : nat -> float)
    (cfg : config) (fuel : nat) (how : loop_exit) (s' : state C) :
  main uuid4 time cfg fuel = Return how s' ->
  exists (total_messages batches : Z),
    plan cfg = inr (total_messages, batches) /\
    length (postfixes (trace s')) = Z.to_nat batches /\
    forall (i : nat) (p : string * string),
      postfixes (trace s') !! i = Some p ->
      progress (time 0%nat) (batch_bytes cfg * (Z.of_nat i + 1)) (time (S i)) p.
Proof.
  intros H. apply main_Return in H as (settings & _ & c0 & _ & H).
  apply run_postfixes in H as (total & batches & ps & P & E & L & A); [|done].
  exists total, batches. simpl in E. rewrite E. split_and!; [done..|].
  intros i p Hp. apply A in Hp. simpl in Hp. by rewrite Z.add_0_l in Hp.
Qed.

(** X9: with a message size or a batch size of zero the settings hold a
    ["batch.size"] of zero and [main] never gets to send.  When the
    constructor raises for these settings, [main] ends with its
    [KafkaException] at line 58; when it returns a client, [main] raises
    [ZeroDivisionError], at line 93 for a message size of zero and at
    line 94 for a batch size of zero (when line 93 gave a number).  Either
    way the banner has been printed and nothing is produced, polled,
    flushed or printed after it. *)
Theorem zero_size_raises_before_sending
    {C : Type} {client : Client C} (uuid4 : nat -> string) (time : nat -> float)
    (cfg : config) (fuel : nat) :
  JOB_MSG_BYTES cfg = 0 \/
  (JOB_BATCH_SIZE cfg = 0 /\
   exists total_messages : Z,
     ceil_div (JOB_MAX_BYTES cfg) (JOB_MSG_BYTES cfg) = inr total_messages) ->
  exists settings : gmap string value,
    producer_settings cfg = inr settings /\
    settings !! "batch.size" = Some (VInt 0) /\
    main uuid4 time cfg fuel =
      match Producer settings with
      | inl detail => Raise (KafkaException detail) (banner cfg)
      | inr _ => Raise ZeroDivisionError (banner cfg)
      end.
Proof.
  intros H.
  assert (Hz : JOB_MSG_BYTES cfg * JOB_BATCH_SIZE cfg = 0)
    by (destruct H as [->|[-> _]]; lia).
  destruct (producer_settings cfg) as [e|settings] eqn:Hs.
  { revert Hs. unfold producer_settings. by rewrite Hz. }
  exists settings. split; [done|].
  pose proof (producer_settings_batch_size cfg settings Hs) as Hb.
  rewrite Hz in Hb. split; [done|].
  unfold main. rewrite Hs. destruct (Producer settings) as [detail|c]; [done|].
  unfold run, plan. destruct H as [HM|[HB [total HT]]].
  - by rewrite HM, ceil_div_by_zero.
  - by rewrite HT, HB, ceil_div_by_zero.
Qed.

(** X10: [last_batch_rate] is assigned once, to [0.0], so the last line
    that a run that ends prints is always
    "Last-batch throughput: 0.00 B/s", whatever was sent. *)
Theorem final_throughput_line_is_zero
    {C : Type} {client : Client C} (uuid4 : nat -> string) (time : nat -> float)
    (cfg : config) (fuel : nat) (how : loop_exit) (s' : state C) :
  main uuid4 time cfg fuel = Return how s' ->
  last (trace s') = Some (Stdout "Last-batch throughput: 0.00 B/s").
Proof.
  intros H. apply main_Return in H as (settings & _ & c0 & _ & H).
  by apply run_last_line in H.
Qed.

(** X11: in a run that ends, every call of [produce], the retries
    included, is for the topic [JOB_TOPIC_NAME] with the payload [MESSAGE]
    under a key drawn for that call: call number [j] has the key of draw
    number [j], and as many keys are drawn as calls are made.  [MESSAGE] is
    [JOB_MSG_BYTES] characters long (none when that is negative), all of
    them ["0"]. *)
Theorem every_attempt_has_fresh_key
    {C : Type} {client : Client C} (uuid4 : nat -> string) (time : nat -> float)
    (cfg : config) (fuel : nat) (how : loop_exit) (s' : state C) :
  main uuid4 time cfg fuel = Return how s' ->
  attempts (trace s') =
    map (fun j => (JOB_TOPIC_NAME cfg, uuid4 j, MESSAGE cfg))
        (seq 0 (count is_attempt (trace s'))) /\
  uuids s' = count is_attempt (trace s') /\
  String.length (MESSAGE cfg) = Z.to_nat (JOB_MSG_BYTES cfg) /\
  (forall c : ascii, c ∈ String.list_ascii_of_string (MESSAGE cfg) -> c = "0"%char).
Proof.
  intros H. apply main_Return in H as (settings & _ & c0 & _ & H).
  apply run_shape in H as (total & batches & t & P & E & U & (A & _) & _); [|done].
  unfold initial in E, U, A. cbn [trace uuids] in E, U, A.
  rewrite E, attempts_app, count_app, count_banner by done.
  split_and!.
  - by rewrite A.
  - done.
  - apply length_str_repeat.
  - unfold MESSAGE, str_repeat. induction (Z.to_nat (JOB_MSG_BYTES cfg)) as [|k IH].
    + intros c Hc. by apply elem_of_nil in Hc.
    + intros c Hc. destruct k as [|k].
      * simpl in Hc. by apply list_elem_of_singleton in Hc.
      * change (c ∈ "0"%char :: String.list_ascii_of_string
                        (String.concat "" (replicate (S k) "0"))) in Hc.
        apply elem_of_cons in Hc as [->|Hc]; [done|]. by apply IH.
Qed.

(** X12: in a run that ends, the client is polled with timeout zero twice
    per batch, and with the back-off of [0.1] once per call of [produce]
    that raised [BufferError]; there is no other poll, and the calls of
    [produce] are the accepted messages (batches times batch size) and the
    refused attempts. *)
Theorem polls_of_a_run
    {C : Type} {client : Client C} (uuid4 : nat -> string) (time : nat -> float)
    (cfg : config) (fuel : nat) (how : loop_exit) (s' : state C) :
  main uuid4 time cfg fuel = Return how s' ->
  exists (total_messages batches : Z),
    plan cfg = inr (total_messages, batches) /\
    count (is_poll_with (Fin 0 0)) (trace s') = (2 * Z.to_nat batches)%nat /\
    count (is_poll_with backoff) (trace s') = count is_refused (trace s') /\
    count is_poll (trace s') =
      (2 * Z.to_nat batches + count is_refused (trace s'))%nat /\
    count is_attempt (trace s') =
      (Z.to_nat batches * Z.to_nat (JOB_BATCH_SIZE cfg)
       + count is_refused (trace s'))%nat.
Proof.
  intros H. pose proof (main_bytes_sent _ _ _ _ _ _ H) as (total' & batches' & P' & N & _).
  apply main_Return in H as (settings & _ & c0 & _ & H).
  apply run_shape in H as (total & batches & t & P & E & U & (A & R & T & Q) & Z);
    [|done].
  rewrite P in P'. injection P' as <- <-.
  exists total, batches. unfold initial in E. cbn [trace] in E. rewrite E in *.
  rewrite !count_app, !count_banner in * by done. simpl in *.
  split_and!; [done|done|done|lia|lia].
Qed.

(** X13: when [main] ends with a [KafkaException], the exception was
    raised either by the constructor at line 58, for the settings of
    lines 59-71 and with nothing but the banner printed, or by a call of
    [produce] for the configured topic and payload; that call is then the
    last thing the run did before the progress bar was closed: the message
    is not sent again, the client is never flushed, and nothing is printed
    after the banner. *)
Theorem rejected_message_aborts_run
    {C : Type} {client : Client C} (uuid4 : nat -> string) (time : nat -> float)
    (cfg : config) (fuel : nat) (detail : string) (t : list event) :
  main uuid4 time cfg fuel = Raise (KafkaException detail) t ->
  (exists settings : gmap string value,
     producer_settings cfg = inr settings /\
     Producer settings = inl detail /\ t = banner cfg) \/
  (exists (settings : gmap string value) (c : C) (batches : Z)
          (t' : list event) (key : string),
     producer_settings cfg = inr settings /\ Producer settings = inr c /\
     t = banner cfg ++ BarOpen batches :: t'
         ++ [Produce (JOB_TOPIC_NAME cfg) key (MESSAGE cfg) (Rejected detail);
             BarClose] /\
     count is_flush t' = 0%nat /\ only is_stdout t' = []).
Proof.
  intros H. apply main_Raise in H
    as [[H _]|[(settings & d & Hs & Hp & [= <-] & ->)|(settings & c & Hs & Hp & H)]].
  - by apply producer_settings_arithmetic in H.
  - left. by exists settings.
  - right. apply run_Raise in H as [_ H].
    destruct (H detail eq_refl) as (batches & t' & key & E & F & O).
    by exists settings, c, batches, t', key.
Qed.

(** X14: whatever exception ends [main], its standard output is the
    banner and nothing else: the totals are printed only by a run that
    ends normally. *)
Theorem failed_run_prints_no_total
    {C : Type} {client : Client C} (uuid4 : nat -> string) (time : nat -> float)
    (cfg : config) (fuel : nat) (e : exn) (t : list event) :
  main uuid4 time cfg fuel = Raise e t ->
  only is_stdout t = banner cfg.
Proof.
  intros H. apply main_Raise in H
    as [[_ ->]|[(settings & d & _ & _ & _ & ->)|(settings & c & _ & _ & H)]].
  - done.
  - done.
  - apply run_Raise in H as [(t' & -> & O) _]. unfold initial. cbn [trace].
    rewrite only_app, O, app_nil_r. done.
Qed.

(** X15: [main] returns, with the batch loop exhausted, provided that the
    target is from zero to below [2^53], the message size and the batch size
    are from one to below [2^53], the constructor returns a client for the
    settings, and the client, in every state it can reach ([Inv]), takes a
    message after at most [K] refusals, each followed by the poll of
    [send]; the retry loop of [send] then runs at most [K + 1] times per
    message. *)
Theorem run_returns_with_patient_client
    {C : Type} {client : Client C} (uuid4 : nat -> string) (time : nat -> float)
    (cfg : config) (fuel : nat) (Inv : C -> Prop) (K : nat) :
  (forall settings, producer_settings cfg = inr settings ->
     exists c, Producer settings = inr c /\ Inv c) ->
  (forall c key, Inv c -> Inv (produce c (JOB_TOPIC_NAME cfg) key (MESSAGE cfg)).2) ->
  (forall c timeout, Inv c -> Inv (poll c timeout).2) ->
  (forall c i, Inv c ->
     exists k, (k <= K)%nat /\
               refuses uuid4 k (MESSAGE cfg) (JOB_TOPIC_NAME cfg) c i) ->
  0 <= JOB_MAX_BYTES cfg < 2 ^ 53 -> 0 < JOB_MSG_BYTES cfg < 2 ^ 53 ->
  0 < JOB_BATCH_SIZE cfg < 2 ^ 53 ->
  (K < fuel)%nat ->
  exists s' : state C, main uuid4 time cfg fuel = Return Exhausted s'.
Proof.
  intros I0 Ip Il Ha HT HM HB Hf.
  destruct (producer_settings_total cfg) as [settings Hs]; [lia..|].
  destruct (I0 settings Hs) as (c & Hc & Hi).
  unfold main. rewrite Hs, Hc.
  by apply (run_total uuid4 time cfg Inv K).
Qed.

(** X16: with a target of zero bytes (and sizes from one to below [2^53])
    [main] returns as soon as the constructor returns a client, whatever
    the client does then: the plan is zero batches, the bar is opened with
    a total of zero and closed, the client is flushed once and left as the
    flush leaves it, no message is produced, and the totals read zero. *)
Theorem zero_target_sends_nothing
    {C : Type} {client : Client C} (uuid4 : nat -> string) (time : nat -> float)
    (cfg : config) (fuel : nat) :
  JOB_MAX_BYTES cfg = 0 -> 0 < JOB_MSG_BYTES cfg < 2 ^ 53 ->
  0 < JOB_BATCH_SIZE cfg < 2 ^ 53 ->
  exists settings : gmap string value,
    producer_settings cfg = inr settings /\
    forall c : C,
      Producer settings = inr c ->
      exists s' : state C,
        main uuid4 time cfg fuel = Return Exhausted s' /\
        bytes_sent s' = 0 /\
        producer s' = (flush c).2 /\
        trace s' =
          banner cfg ++ [BarOpen 0; BarClose]
          ++ Flush (flush c).1 :: callback_events (flush c).1
          ++ [Stdout "Total bytes sent: 0 (0.000 B)";
              Stdout "Last-batch throughput: 0.00 B/s"].
Proof.
  intros HT HM HB.
  destruct (producer_settings_total cfg) as [settings Hs]; [lia..|].
  exists settings. split; [done|]. intros c Hc.
  unfold main. rewrite Hs, Hc. unfold run.
  rewrite plan_exact0 by lia. rewrite HT.
  change (ceiling 0 (JOB_MSG_BYTES cfg)) with 0.
  change (ceiling 0 (JOB_BATCH_SIZE cfg)) with 0.
  simpl lift. unfold bind at 1, ret. unfold bind at 1, now.
  match goal with |- context [bind (with_tqdm 0 ?b) ?k ?s] =>
    rewrite (bind_eq (with_tqdm 0 b) k s Exhausted _ (with_tqdm_eq 0 b s _ _ eq_refl))
  end.
  unfold bind at 1. unfold finish.
  rewrite (bind_eq _ _ _ _ _ (producer_flush_log _)).
  eexists. split; [reflexivity|]. split; [done|]. split; [done|].
  simpl. by rewrite <- !app_assoc.
Qed.

(** X17: in a run that ends, the texts that the program writes to
    [sys.stderr] itself (line 80) are the lines of the delivery callback for
    the reports that the client handed over in its polls and its flush, in
    the order of the reports: one line for each report with an error and
    none for the others.  They are not alone on that stream: what shows on
    [sys.stderr] is these lines and the progress bar, which is opened and
    closed there in every such run. *)
Theorem failed_deliveries_are_logged_once
    {C : Type} {client : Client C} (uuid4 : nat -> string) (time : nat -> float)
    (cfg : config) (fuel : nat) (how : loop_exit) (s' : state C) :
  main uuid4 time cfg fuel = Return how s' ->
  only is_stderr (trace s') = callback_events (reports (trace s')) /\
  length (only is_stderr (trace s'))
    = length (filter (fun r => is_Some (err r)) (reports (trace s'))) /\
  only on_stderr (trace s') = only (fun e => is_stderr e || is_bar e) (trace s') /\
  exists batches : Z,
    BarOpen batches ∈ only on_stderr (trace s') /\
    BarClose ∈ only on_stderr (trace s').
Proof.
  intros H. apply main_Return in H as (settings & _ & c0 & _ & H).
  apply run_logged in H as (batches & t & E & L & B).
  assert (Hl : logged (trace s')).
  { rewrite E. apply logged_app; [done|]. by apply (logged_app [_]). }
  split_and!.
  - exact Hl.
  - rewrite Hl. apply length_callback_events.
  - unfold only. apply list_filter_iff. by intros [].
  - exists batches. unfold only. rewrite !list_elem_of_filter, E. split.
    + split; [done|]. apply elem_of_app. right. left.
    + split; [done|]. apply elem_of_app. right. by right.
Qed.

(** ** The progress report and its formatters together *)


(** ** Instances of the further properties *)

Lemma fmt_bytes_selects_unit_witness :
  exists s : string,
    _fmt_bytes (Int 1536) = inr s /\
    rendered 3 ["B"; "KB"; "MB"; "GB"; "TB"] "PB" (Fin 6755399441055744 (-42)) s.
Proof.
  apply (fmt_bytes_selects_unit (Int 1536)).
  - reflexivity.
  - right. unfold prec, emin, emax. split_and!; [lia..|left; lia].
  - reflexivity.
Defined.

Lemma fmt_rate_selects_unit_witness :
  exists s : string,
    _fmt_rate (Flt (Fin 6755399441055744 (-42))) = inr s /\
    rendered 2 ["B/s"; "KB/s"; "MB/s"; "GB/s"; "TB/s"] "PB/s"
      (Fin 6755399441055744 (-42)) s.
Proof.
  apply (fmt_rate_selects_unit (Flt (Fin 6755399441055744 (-42)))).
  - reflexivity.
  - right. unfold prec, emin, emax. split_and!; [lia..|left; lia].
  - reflexivity.
Defined.

Lemma negative_values_are_not_scaled_witness :
  _fmt_bytes (Int (-2048)) = inr (format_f 3 (Fin (-4503599627370496) (-41)) +:+ " B") /\
  _fmt_rate (Int (- 2 ^ 1024)) = inl OverflowError.
Proof.
  split.
  - apply (proj1 (negative_values_are_not_scaled (Int (-2048)) eq_refl)).
  - destruct (negative_values_are_not_scaled (Int (- 2 ^ 1024)) eq_refl)
      as (_ & H & _ & _ & O).
    rewrite H, (O _ eq_refl); [reflexivity|lia].
Defined.

Lemma fmt_bytes_int_range_witness :
  (exists s : string, _fmt_bytes (Int 5) = inr s) /\
  _fmt_bytes (Int (2 ^ 1024)) = inl OverflowError /\
  _fmt_rate (Int (2 ^ 1024)) = inl OverflowError.
Proof.
  split.
  - apply (proj1 (fmt_bytes_int_range 5)). split; [lia|reflexivity].
  - apply (proj2 (fmt_bytes_int_range (2 ^ 1024))). lia.
Defined.

Lemma fmt_fixed_decimals_witness :
  fixed_point 3 ["B"; "KB"; "MB"; "GB"; "TB"; "PB"] "1.500 KB".
Proof.
  assert (Hc : canonical (Fin 6755399441055744 (-42))).
  { right. unfold prec, emin, emax. split_and!; [lia..|left; lia]. }
  apply (proj1 (fmt_fixed_decimals (Int 1536) 6755399441055744 (-42) "1.500 KB"
                  eq_refl Hc)).
  reflexivity.
Defined.

Lemma throughput_never_divides_by_zero_witness :
  exists (rate : float) (tput : string),
    num_div (Int 9) (fmax (sub (Fin 0 0) (Fin 0 0)) epsilon) = inr rate /\
    _fmt_rate (Flt rate) = inr tput /\
    canonical rate /\ ltb rate (Fin 0 0) = false /\
    (ltb (sub (Fin 0 0) (Fin 0 0)) epsilon = true ->
     div (Fin 5066549580791808 (-49)) epsilon = inr rate).
Proof.
  apply (throughput_never_divides_by_zero 9); [lia|reflexivity].
Defined.

Lemma plan_is_exact_below_2_53_witness :
  plan (Sim.cfg 1000 300 3) = inr (4, 2).
Proof.
  apply (proj1 (plan_is_exact_below_2_53 (Sim.cfg 1000 300 3)
                  ltac:(simpl; lia) ltac:(simpl; lia) ltac:(simpl; lia))).
Defined.

Lemma run_reports_progress_per_batch_witness :
  match main (client := Sim.client 2 []) Sim.uuid4 Sim.time (Sim.cfg 10 3 3) 4 with
  | Return how s' =>
      exists p, postfixes (trace s') !! 1%nat = Some p /\
                progress (Sim.time 0) 18 (Sim.time 2) p
  | _ => False
  end.
Proof.
  destruct (main _ _ _ _) as [how s'| |] eqn:E.
  - destruct (run_reports_progress_per_batch (client := Sim.client 2 [])
                Sim.uuid4 Sim.time (Sim.cfg 10 3 3) 4 how s' E)
      as (total & batches & P & L & A).
    vm_compute in P. injection P as <- <-.
    destruct (postfixes (trace s') !! 1%nat) as [p|] eqn:Hp.
    + exists p. split; [done|]. by apply (A 1%nat p).
    + apply lookup_ge_None in Hp. rewrite L in Hp. simpl in Hp. lia.
  - vm_compute in E. discriminate.
  - vm_compute in E. discriminate.
Defined.

Lemma zero_size_raises_before_sending_witness :
  (exists detail : string,
     main (client := Faulty.client 4) Sim.uuid4 Sim.time (Sim.cfg 10 0 3) 4 =
     Raise (KafkaException detail) (banner (Sim.cfg 10 0 3))) /\
  main (client := Sim.client 2 []) Sim.uuid4 Sim.time (Sim.cfg 10 3 0) 4 =
  Raise ZeroDivisionError (banner (Sim.cfg 10 3 0)).
Proof.
  split.
  - destruct (zero_size_raises_before_sending (client := Faulty.client 4)
                Sim.uuid4 Sim.time (Sim.cfg 10 0 3) 4 (or_introl eq_refl))
      as (settings & Hs & Hb & ->).
    cbn [Producer Faulty.client]. unfold Faulty.faulty_Producer. rewrite Hb.
    by eexists.
  - destruct (zero_size_raises_before_sending (client := Sim.client 2 [])
                Sim.uuid4 Sim.time (Sim.cfg 10 3 0) 4) as (settings & Hs & Hb & ->).
    + right. split; [reflexivity|]. exists 4. by vm_compute.
    + reflexivity.
Defined.

Lemma final_throughput_line_is_zero_witness :
  match main (client := Sim.client 2 []) Sim.uuid4 Sim.time (Sim.cfg 10 3 3) 4 with
  | Return how s' =>
      last (trace s') = Some (Stdout "Last-batch throughput: 0.00 B/s")
  | _ => False
  end.
Proof.
  destruct (main _ _ _ _) as [how s'| |] eqn:E.
  - apply (final_throughput_line_is_zero (client := Sim.client 2 [])
             Sim.uuid4 Sim.time (Sim.cfg 10 3 3) 4 how s' E).
  - vm_compute in E. discriminate.
  - vm_compute in E. discriminate.
Defined.

Lemma every_attempt_has_fresh_key_witness :
  match main (client := Sim.client 2 []) Sim.uuid4 Sim.time (Sim.cfg 10 3 3) 4 with
  | Return how s' =>
      attempts (trace s') =
        map (fun j => ("load", Sim.uuid4 j, "000")) (seq 0 (count is_attempt (trace s')))
  | _ => False
  end.
Proof.
  destruct (main _ _ _ _) as [how s'| |] eqn:E.
  - apply (every_attempt_has_fresh_key (client := Sim.client 2 [])
             Sim.uuid4 Sim.time (Sim.cfg 10 3 3) 4 how s' E).
  - vm_compute in E. discriminate.
  - vm_compute in E. discriminate.
Defined.

Lemma polls_of_a_run_witness :
  match main (client := Sim.client 2 []) Sim.uuid4 Sim.time (Sim.cfg 10 3 3) 4 with
  | Return how s' =>
      count (is_poll_with (Fin 0 0)) (trace s') = 4%nat /\
      count (is_poll_with backoff) (trace s') = count is_refused (trace s')
  | _ => False
  end.
Proof.
  destruct (main _ _ _ _) as [how s'| |] eqn:E.
  - destruct (polls_of_a_run (client := Sim.client 2 [])
                Sim.uuid4 Sim.time (Sim.cfg 10 3 3) 4 how s' E)
      as (total & batches & P & Z & B & _).
    vm_compute in P. injection P as <- <-. by split.
  - vm_compute in E. discriminate.
  - vm_compute in E. discriminate.
Defined.

Lemma rejected_message_aborts_run_witness :
  match main (client := Faulty.client 4) Sim.uuid4 Sim.time (Sim.cfg 10 3 3) 4 with
  | Raise (KafkaException detail) t =>
      exists (batches : Z) (t' : list event) (key : string),
        t = banner (Sim.cfg 10 3 3) ++ BarOpen batches :: t'
            ++ [Produce "load" key "000" (Rejected detail); BarClose] /\
        count is_flush t' = 0%nat /\ only is_stdout t' = []
  | _ => False
  end.
Proof.
  destruct (main _ _ _ _) as [how s'|e t|] eqn:E.
  - vm_compute in E. discriminate.
  - destruct e as [| | |detail]; try (vm_compute in E; discriminate).
    destruct (rejected_message_aborts_run (client := Faulty.client 4)
                Sim.uuid4 Sim.time (Sim.cfg 10 3 3) 4 detail t E)
      as [(settings & Hs & Hp & _)|(settings & c & batches & t' & key & _ & _ & H)].
    + exfalso. pose proof (producer_settings_batch_size _ _ Hs) as Hb.
      revert Hp. cbn [Producer Faulty.client]. unfold Faulty.faulty_Producer.
      by rewrite Hb.
    + by exists batches, t', key.
  - vm_compute in E. discriminate.
Defined.

Lemma failed_run_prints_no_total_witness :
  match main (client := Faulty.client 0) Sim.uuid4 Sim.time (Sim.cfg 10 3 3) 4 with
  | Raise e t => only is_stdout t = banner (Sim.cfg 10 3 3)
  | _ => False
  end.
Proof.
  destruct (main _ _ _ _) as [how s'|e t|] eqn:E.
  - vm_compute in E. discriminate.
  - apply (failed_run_prints_no_total (client := Faulty.client 0)
             Sim.uuid4 Sim.time (Sim.cfg 10 3 3) 4 e t E).
  - vm_compute in E. discriminate.
Defined.

Lemma run_returns_with_patient_client_witness :
  exists s' : state Sim.sim,
    main (client := Sim.client 2 []) Sim.uuid4 Sim.time (Sim.cfg 10 3 3) 2
    = Return Exhausted s'.
Proof.
  apply (run_returns_with_patient_client (client := Sim.client 2 [])
           Sim.uuid4 Sim.time (Sim.cfg 10 3 3) 2 (sim_bounded 2) 1).
  - intros settings _. eexists. split; [reflexivity|]. split; simpl; lia.
  - intros c key. apply sim_bounded_produce.
  - intros c timeout. apply sim_bounded_poll.
  - intros c i. apply sim_accepts. lia.
  - simpl. lia.
  - simpl. lia.
  - simpl. lia.
  - lia.
Defined.

Lemma zero_target_sends_nothing_witness :
  exists s' : state Sim.sim,
    main (client := Sim.client 2 []) Sim.uuid4 Sim.time (Sim.cfg 0 1024 3) 0
      = Return Exhausted s' /\
    bytes_sent s' = 0 /\
    count is_attempt (trace s') = 0%nat /\ count is_flush (trace s') = 1%nat.
Proof.
  destruct (zero_target_sends_nothing (client := Sim.client 2 [])
              Sim.uuid4 Sim.time (Sim.cfg 0 1024 3) 0)
    as (settings & Hs & H); [simpl; lia..|].
  destruct (H (Sim.Make 2 [] [] 0) eq_refl) as (s' & Hm & Hb & _ & Ht).
  exists s'. split_and!; [done|done|by rewrite Ht..].
Defined.

Lemma failed_deliveries_are_logged_once_witness :
  match main (client := Sim.client 2 [3%nat]) Sim.uuid4 Sim.time (Sim.cfg 10 3 3) 4 with
  | Return how s' =>
      only is_stderr (trace s') = callback_events (reports (trace s')) /\
      length (only is_stderr (trace s'))
        = length (filter (fun r => is_Some (err r)) (reports (trace s'))) /\
      only on_stderr (trace s')
        = only (fun e => is_stderr e || is_bar e) (trace s') /\
      exists batches : Z,
        BarOpen batches ∈ only on_stderr (trace s') /\
        BarClose ∈ only on_stderr (trace s')
  | _ => False
  end.
Proof.
  destruct (main _ _ _ _) as [how s'| |] eqn:E.
  - apply (failed_deliveries_are_logged_once (client := Sim.client 2 [3%nat])
             Sim.uuid4 Sim.time (Sim.cfg 10 3 3) 4 how s' E).
  - vm_compute in E. discriminate.
  - vm_compute in E. discriminate.
Defined.


